(** * KNOT Modbus gateway: the Slave aggregate ([src/slave.c])

    A shallow embedding of [slave.c]: the per-Slave connection state machine
    ([enable_slave], [disconnected_cb], [destroy_handler]), the polling
    callbacks ([polling_start], [polling_to_expired]), the AddSource and
    RemoveSource methods, the replay of stored Sources and [slave_create].

    Conventions.
    - A C string is the Rocq [string] of its bytes before the terminating
      NUL; a [char *] that may be [NULL] is an [option string].
    - Fixed-width unsigned integers are [Z] with the range written out.
    - Pointers to heap objects (Sources, handles) are natural numbers; a
      pointer that may be [NULL] is an [option].
    - Calls into the event loop, the bus, the driver and the store are
      recorded, in program order, in the [w_log] of the world. *)

From Stdlib Require Import ZArith String Ascii List Lia Bool.
From stdpp Require Import gmap strings list fin_maps.

Local Open Scope Z_scope.

(** ** C library *)

(** The value of a [char] read as [unsigned char]. *)
Definition uchar (c : ascii) : Z := Z.of_N (N_of_ascii c).

(** [strcmp], by its sign: the order of the first pair of bytes that
    differ, read as [unsigned char]; a string that ends first is the
    smaller one. *)
Fixpoint strcmp (s1 s2 : string) : Z :=
  match s1, s2 with
  | EmptyString, EmptyString => 0
  | EmptyString, String _ _ => -1
  | String _ _, EmptyString => 1
  | String c1 r1, String c2 r2 =>
      if uchar c1 =? uchar c2 then strcmp r1 r2
      else if uchar c1 <? uchar c2 then -1 else 1
  end.

(** [strlen]. *)
Definition strlen (s : string) : Z := Z.of_nat (String.length s).

(** [s] begins with [p]. *)
Fixpoint starts_with (p s : string) : bool :=
  match p, s with
  | EmptyString, _ => true
  | String a p', String b s' => Ascii.eqb a b && starts_with p' s'
  | String _ _, EmptyString => false
  end.

(** [EOF], what [sscanf] returns when the input ends before the first
    conversion. *)
Definition EOF : Z := -1.

(** [isspace] in the C locale. *)
Definition isspace (c : ascii) : bool :=
  let n := uchar c in (n =? 32) || ((9 <=? n) && (n <=? 13)).

Fixpoint skip_space (s : string) : string :=
  match s with
  | String c r => if isspace c then skip_space r else s
  | EmptyString => s
  end.

(** The value of a hexadecimal digit, either case. *)
Definition hex_value (c : ascii) : option Z :=
  let n := uchar c in
  if (48 <=? n) && (n <=? 57) then Some (n - 48)
  else if (97 <=? n) && (n <=? 102) then Some (n - 87)
  else if (65 <=? n) && (n <=? 70) then Some (n - 55)
  else None.

(** The digits of a [%x] conversion: at most [width] of them, most
    significant first; [seen] tells whether a digit was read before. *)
Fixpoint scan_hex_digits (width : nat) (s : string) (acc : Z) (seen : bool)
  : option Z :=
  match width, s with
  | S w, String c r =>
      match hex_value c with
      | Some d => scan_hex_digits w r (16 * acc + d) true
      | None => if seen then Some acc else None
      end
  | _, _ => if seen then Some acc else None
  end.

(** The conversion [%<width>x] into an [unsigned int]: white space is
    skipped, then a sign, a [0x] prefix and the digits are read within the
    field width, as [strtoul] in base 16 reads them (glibc: a [0x] with no
    digit after it reads as 0). The result is [inl ret] when the conversion
    fails ([EOF] at the end of the input, 0 on a mismatch) and [inr v]
    when it stores [v]. *)
Definition scan_percent_x (width : nat) (input : string) : Z + Z :=
  match skip_space input with
  | EmptyString => inl EOF
  | String c r as s =>
      let '(neg, s, width) :=
        if Ascii.eqb c "-" then (true, r, Nat.pred width)
        else if Ascii.eqb c "+" then (false, r, Nat.pred width)
        else (false, s, width) in
      let digits :=
        match width, s with
        | S (S w), String c0 (String c1 r') =>
            if Ascii.eqb c0 "0" && (Ascii.eqb c1 "x" || Ascii.eqb c1 "X")
            then scan_hex_digits w r' 0 true
            else scan_hex_digits width s 0 false
        | _, _ => scan_hex_digits width s 0 false
        end in
      match digits with
      | Some v => inr ((if neg then - v else v) mod 2 ^ 32)
      | None => inl 0
      end
  end.

(** [sscanf(address, "0x%04x", &uaddr)]: the return value and, when it is
    1, what [uaddr] holds. *)
Definition sscanf_0x04x (address : string) : Z * option Z :=
  match address with
  | EmptyString => (EOF, None)
  | String c0 r0 =>
      if negb (Ascii.eqb c0 "0") then (0, None)
      else match r0 with
           | EmptyString => (EOF, None)
           | String c1 r1 =>
               if negb (Ascii.eqb c1 "x") then (0, None)
               else match scan_percent_x 4 r1 with
                    | inl ret => (ret, None)
                    | inr v => (1, Some v)
                    end
           end
  end.

(** The conversion [%[set]]: the longest prefix of the input made of
    bytes of [set]. *)
Fixpoint scan_set (set : list ascii) (input : string) : string :=
  match input with
  | String c r =>
      if existsb (Ascii.eqb c) set then String c (scan_set set r)
      else EmptyString
  | EmptyString => EmptyString
  end.

(** [sscanf(type, "%[byqut]1s", signature)]: the return value and the bytes
    stored in [signature]. The literal [1s] after the conversion can only
    stop the scan; the count of stored items is decided before it. *)
Definition sscanf_byqut (type : string) : Z * string :=
  match type with
  | EmptyString => (EOF, EmptyString)
  | _ =>
      let m := scan_set ["b"; "y"; "q"; "u"; "t"]%char type in
      match m with
      | EmptyString => (0, EmptyString)
      | _ => (1, m)
      end
  end.

(** A digit of [printf]'s [%x] and of its upper-case sibling. *)
Definition hex_lower (d : Z) : ascii :=
  ascii_of_N (Z.to_N (if d <? 10 then 48 + d else 87 + d)).

Definition hex_upper (d : Z) : ascii :=
  ascii_of_N (Z.to_N (if d <? 10 then 48 + d else 55 + d)).

(** The digits of [n] in base 16, least significant last, in front of
    [acc]. *)
Fixpoint to_hex (fuel : nat) (n : Z) (acc : string) : string :=
  match fuel with
  | O => acc
  | S f =>
      let acc' := String (hex_lower (n mod 16)) acc in
      if n / 16 =? 0 then acc' else to_hex f (n / 16) acc'
  end.

Fixpoint zero_pad (n : nat) (s : string) : string :=
  match n with
  | O => s
  | S k => String "0" (zero_pad k s)
  end.

(** [printf("0x%04x", n)] for an [unsigned int] [n]. *)
Definition printf_0x04x (n : Z) : string :=
  let digits := to_hex 8 n EmptyString in
  String "0" (String "x"
    (zero_pad (4 - String.length digits) digits)).

(** ** ell utilities *)

(** [l_util_hexstring_upper(buf, len)]: two upper-case digits per byte. *)
Fixpoint l_util_hexstring_upper (buf : string) : string :=
  match buf with
  | EmptyString => EmptyString
  | String c r =>
      String (hex_upper (uchar c / 16))
        (String (hex_upper (uchar c mod 16)) (l_util_hexstring_upper r))
  end.

(** The byte order of the host, which decides what [L_BE32_TO_CPU] and
    [L_BE64_TO_CPU] expand to. *)
Inductive byte_order := LittleEndian | BigEndian.

(** Byte [i] (0 the least significant) of [x]. *)
Definition byte_at (x : Z) (i : Z) : Z := Z.land (Z.shiftr x (8 * i)) 255.

Definition bswap_32 (x : Z) : Z :=
  Z.lor (Z.shiftl (byte_at x 0) 24)
    (Z.lor (Z.shiftl (byte_at x 1) 16)
       (Z.lor (Z.shiftl (byte_at x 2) 8) (byte_at x 3))).

Definition bswap_64 (x : Z) : Z :=
  Z.lor (Z.shiftl (byte_at x 0) 56)
    (Z.lor (Z.shiftl (byte_at x 1) 48)
       (Z.lor (Z.shiftl (byte_at x 2) 40)
          (Z.lor (Z.shiftl (byte_at x 3) 32)
             (Z.lor (Z.shiftl (byte_at x 4) 24)
                (Z.lor (Z.shiftl (byte_at x 5) 16)
                   (Z.lor (Z.shiftl (byte_at x 6) 8) (byte_at x 7))))))).

Definition L_BE32_TO_CPU (host : byte_order) (val : Z) : Z :=
  match host with
  | LittleEndian => bswap_32 val
  | BigEndian => val
  end.

Definition L_BE64_TO_CPU (host : byte_order) (val : Z) : Z :=
  match host with
  | LittleEndian => bswap_64 val
  | BigEndian => val
  end.

(** The bytes of an [n]-byte unsigned integer as the host keeps them in
    memory, lowest address first; and the integer that a sequence of bytes
    spells in big-endian (network) order. *)
Fixpoint le_bytes (n : nat) (x : Z) : list Z :=
  match n with
  | O => []
  | S k => x mod 256 :: le_bytes k (x / 256)
  end.

Definition host_bytes (host : byte_order) (n : nat) (x : Z) : list Z :=
  match host with
  | LittleEndian => le_bytes n x
  | BigEndian => rev (le_bytes n x)
  end.

Definition be_decode (bytes : list Z) : Z :=
  fold_left (fun acc b => 256 * acc + b) bytes 0.

(** ** Transport drivers *)

(** [extern struct modbus_driver tcp, rtu]: the stream-socket and the
    serial-line driver. *)
Inductive modbus_driver := tcp | rtu.

(** The driver choice at the head of [slave_create] (lines 596-608):
    [None] is the [return NULL] of the [url == NULL] and ["Invalid url!"]
    branches. *)
Definition slave_create_driver (url : option string) : option modbus_driver :=
  match url with
  | None => None
  | Some url =>
      if strcmp "tcp://" url <? 0 then Some tcp
      else if strcmp "serial://" url <? 0 then Some rtu
      else None
  end.

(** ** Sources ([source.h])

    [slave.c] reaches a Source only through the functions that [source.h]
    declares; their bodies are not in this file. *)

(** The last observed value, tagged by the type it was read as. *)
Inductive value :=
| ValBool (b : bool)
| ValByte (n : Z)
| ValU16 (n : Z)
| ValU32 (n : Z)
| ValU64 (n : Z).

(** Modelled from the spec: [struct source], which [source.c] defines. The
    fields are those of the spec's data model: the object path (the
    identity the timers are keyed by), name, type signature, unit symbol,
    16-bit address, polling interval in milliseconds, last observed value
    (absent until the first successful read), the store it belongs to and
    the persisted flag. *)
Record source := {
  src_path : string;
  src_name : string;
  src_signature : string;
  src_unit : string;
  src_address : Z;
  src_interval : Z;
  src_value : option value;
  src_storage_id : Z;
  src_persisted : bool
}.

(** Modelled from the spec: the getters of [source.h], plain field
    reads. *)
Definition source_get_path (s : source) : string := src_path s.
Definition source_get_address (s : source) : Z := src_address s.
Definition source_get_signature (s : source) : string := src_signature s.
Definition source_get_interval (s : source) : Z := src_interval s.

(** Modelled from the spec: the setters of [source.h] replace the last
    observed value and nothing else. *)
Definition source_set_value (v : value) (s : source) : source :=
  {| src_path := src_path s; src_name := src_name s;
     src_signature := src_signature s; src_unit := src_unit s;
     src_address := src_address s; src_interval := src_interval s;
     src_value := Some v;
     src_storage_id := src_storage_id s; src_persisted := src_persisted s |}.

Definition source_set_value_bool (s : source) (v : bool) := source_set_value (ValBool v) s.
Definition source_set_value_byte (s : source) (v : Z) := source_set_value (ValByte v) s.
Definition source_set_value_u16 (s : source) (v : Z) := source_set_value (ValU16 v) s.
Definition source_set_value_u32 (s : source) (v : Z) := source_set_value (ValU32 v) s.
Definition source_set_value_u64 (s : source) (v : Z) := source_set_value (ValU64 v) s.

(** A row of a Slave's Source table in the durable store: the address
    string that names the row, then name, type signature, unit and
    interval, in the order [storage_foreach_source] hands them to its
    callback. *)
Record source_row := {
  row_address : string;
  row_name : string;
  row_type : string;
  row_unit : string;
  row_interval : Z
}.

(** Modelled from the spec: the row that [source_create] writes for a
    Source when it is asked to store it, the address as a zero-padded
    4-hex-digit string prefixed [0x]. *)
Definition source_row_of (s : source) : source_row :=
  {| row_address := printf_0x04x (src_address s);
     row_name := src_name s;
     row_type := src_signature s;
     row_unit := src_unit s;
     row_interval := src_interval s |}.

(** Modelled from the spec: the object that [source_create] builds, when
    the bus registers it under [path]. The address parameter is 16 bits
    wide. *)
Definition source_new (path name type unit : string) (address interval : Z)
    (storage_id : Z) (store : bool) : source :=
  {| src_path := path; src_name := name; src_signature := type;
     src_unit := unit; src_address := address mod 2 ^ 16;
     src_interval := interval; src_value := None;
     src_storage_id := storage_id; src_persisted := store |}.

(** Modelled from the spec: [storage_has_unit(units_storage, group, key)],
    a lookup of the hex-encoded symbol under a category of the unit
    catalog, here the list of its (category, symbol) entries. *)
Definition storage_has_unit (catalog : list (string * string))
    (group key : string) : bool :=
  existsb (fun e => String.eqb (fst e) group && String.eqb (snd e) key) catalog.

(** ** The Slave *)

(** A polling timer of [to_list]: the delay it is armed with, in
    milliseconds ([None] between its expiry and the moment its callback
    arms it again), and the Source of the bond it carries as user data.
    The bond's other half is the Slave itself. *)
Record polling_timeout := {
  to_armed : option Z;
  to_bond : nat
}.

(** [struct slave]. [poll_to] is the connection-attempt timer: the delay
    it is armed with, in milliseconds, or [None] once it has expired. *)
Record slave := {
  refs : Z;
  key : string;
  id : Z;
  name : option string;
  path : string;
  url : string;
  modbus : option nat;
  io : option nat;
  source_list : list nat;
  to_list : gmap string polling_timeout;
  src_storage : Z;
  poll_to : option Z;
  drv : modbus_driver
}.

(** What the program asks of its collaborators, in program order.
    [SlavePropertyChanged path p] is
    [l_dbus_property_changed(bus, path, SLAVE_IFACE, p)]. *)
Inductive event :=
| DriverCreate (d : modbus_driver) (url : string)
| DriverDestroy (d : modbus_driver) (h : option nat)
| IoNew (i : nat)
| IoSetDisconnectHandler (i : nat)
| IoDestroy (i : nat)
| TimeoutRemove (k : string)
| PollToRemove
| SlavePropertyChanged (path property : string)
| SourceDestroy (p : nat) (rm : bool)
| StorageWriteSource (storage : Z) (row : source_row)
| StorageWriteKeyInt (k field : string) (v : Z)
| StorageWriteKeyString (k field : string) (v : string)
| StorageClose (storage : Z).

(** The state the callbacks of one Slave run in: the Slave, the Sources
    that are allocated (by address), the next free address, the unit
    catalog behind [units_storage], and the log. *)
Record world := {
  w_slave : slave;
  w_sources : gmap nat source;
  w_next : nat;
  w_units : list (string * string);
  w_log : list event
}.

Definition with_slave (f : slave -> slave) (w : world) : world :=
  {| w_slave := f (w_slave w); w_sources := w_sources w; w_next := w_next w;
     w_units := w_units w; w_log := w_log w |}.

Definition emit (e : event) (w : world) : world :=
  {| w_slave := w_slave w; w_sources := w_sources w; w_next := w_next w;
     w_units := w_units w; w_log := w_log w ++ [e] |}.

Definition set_modbus (m : option nat) (s : slave) : slave :=
  {| refs := refs s; key := key s; id := id s; name := name s; path := path s;
     url := url s; modbus := m; io := io s; source_list := source_list s;
     to_list := to_list s; src_storage := src_storage s;
     poll_to := poll_to s; drv := drv s |}.

Definition set_io (i : option nat) (s : slave) : slave :=
  {| refs := refs s; key := key s; id := id s; name := name s; path := path s;
     url := url s; modbus := modbus s; io := i; source_list := source_list s;
     to_list := to_list s; src_storage := src_storage s;
     poll_to := poll_to s; drv := drv s |}.

Definition set_source_list (l : list nat) (s : slave) : slave :=
  {| refs := refs s; key := key s; id := id s; name := name s; path := path s;
     url := url s; modbus := modbus s; io := io s; source_list := l;
     to_list := to_list s; src_storage := src_storage s;
     poll_to := poll_to s; drv := drv s |}.

Definition set_to_list (m : gmap string polling_timeout) (s : slave) : slave :=
  {| refs := refs s; key := key s; id := id s; name := name s; path := path s;
     url := url s; modbus := modbus s; io := io s; source_list := source_list s;
     to_list := m; src_storage := src_storage s;
     poll_to := poll_to s; drv := drv s |}.

Definition set_poll_to (t : option Z) (s : slave) : slave :=
  {| refs := refs s; key := key s; id := id s; name := name s; path := path s;
     url := url s; modbus := modbus s; io := io s; source_list := source_list s;
     to_list := to_list s; src_storage := src_storage s;
     poll_to := t; drv := drv s |}.

Definition set_name (n : option string) (s : slave) : slave :=
  {| refs := refs s; key := key s; id := id s; name := n; path := path s;
     url := url s; modbus := modbus s; io := io s; source_list := source_list s;
     to_list := to_list s; src_storage := src_storage s;
     poll_to := poll_to s; drv := drv s |}.

Definition set_refs (n : Z) (s : slave) : slave :=
  {| refs := n; key := key s; id := id s; name := name s; path := path s;
     url := url s; modbus := modbus s; io := io s; source_list := source_list s;
     to_list := to_list s; src_storage := src_storage s;
     poll_to := poll_to s; drv := drv s |}.

Definition set_sources (h : gmap nat source) (w : world) : world :=
  {| w_slave := w_slave w; w_sources := h; w_next := w_next w;
     w_units := w_units w; w_log := w_log w |}.

(** A delay given in seconds, in milliseconds. *)
Definition seconds (n : Z) : Z := 1000 * n.

(** ** Queue and timer helpers *)

(** [address_cmp]: the address of a live Source against [b], read as a
    [uint16_t]. *)
Definition address_cmp (src : source) (b : Z) : bool :=
  source_get_address src =? b mod 2 ^ 16.

(** [path_cmp]. *)
Definition path_cmp (src : source) (b : string) : bool :=
  strcmp (source_get_path src) b =? 0.

(** [l_queue_find] over the queue of Source pointers: the first entry
    that [cmp] accepts. *)
Fixpoint l_queue_find (heap : gmap nat source) (cmp : source -> bool)
    (q : list nat) : option nat :=
  match q with
  | [] => None
  | p :: rest =>
      match heap !! p with
      | Some src => if cmp src then Some p else l_queue_find heap cmp rest
      | None => l_queue_find heap cmp rest
      end
  end.

(** [l_queue_remove_if]: the first entry that [cmp] accepts, and the queue
    without it. *)
Fixpoint l_queue_remove_if (heap : gmap nat source) (cmp : source -> bool)
    (q : list nat) : option nat * list nat :=
  match q with
  | [] => (None, [])
  | p :: rest =>
      let keep := let '(r, rest') := l_queue_remove_if heap cmp rest in
                  (r, p :: rest') in
      match heap !! p with
      | Some src => if cmp src then (Some p, rest) else keep
      | None => keep
      end
  end.

(** [l_hashmap_destroy(slave->to_list, timeout_destroy)]: every polling
    timer is removed ([timeout_destroy] is [l_timeout_remove], which also
    frees the bond). The map itself is gone afterwards; the caller
    replaces or abandons it. *)
Definition timeout_destroy (k : string) (w : world) : world :=
  emit (TimeoutRemove k) w.

Definition l_hashmap_destroy_to_list (w : world) : world :=
  fold_left (fun w kv => timeout_destroy (fst kv) w)
    (map_to_list (to_list (w_slave w))) w.

(** [l_io_destroy], which ignores [NULL]. *)
Definition l_io_destroy (i : option nat) (w : world) : world :=
  match i with
  | Some i => emit (IoDestroy i) w
  | None => w
  end.

(** [source_destroy(source, rm)]: the Source is freed. *)
Definition source_destroy (p : nat) (rm : bool) (w : world) : world :=
  emit (SourceDestroy p rm) (set_sources (delete p (w_sources w)) w).

(** Modelled from the spec: [source_create], which [source.c] defines.
    [reg] is the outcome of registering the new object on the bus: the
    object path, or [None] when registration fails and [source_create]
    returns [NULL]. A Source created with [store] set is written to its
    table at once (the spec: "persisted immediately if requested"). The
    result is the pointer to the new Source. *)
Definition source_create (reg : option string) (prefix name type unit : string)
    (address interval : Z) (storage_id : Z) (store : bool) (w : world)
  : option nat * world :=
  match reg with
  | None => (None, w)
  | Some opath =>
      let src := source_new opath name type unit address interval
                   storage_id store in
      let p := w_next w in
      let w := {| w_slave := w_slave w;
                  w_sources := <[p := src]> (w_sources w);
                  w_next := S p; w_units := w_units w; w_log := w_log w |} in
      let w := if store
               then emit (StorageWriteSource storage_id (source_row_of src)) w
               else w in
      (Some p, w)
  end.

(** ** Callbacks of [slave.c] *)

(** [slave_free] (lines 106-126). The timer object [slave->poll_to] exists
    from [slave_create] on, armed or not, so its removal is not guarded
    here. *)
Definition slave_free (w : world) : world :=
  let w := fold_left (fun w p => source_destroy p false w)
             (source_list (w_slave w)) w in
  let w := with_slave (set_source_list []) w in
  let w := l_hashmap_destroy_to_list w in
  let w := with_slave (set_to_list ∅) w in
  let w := l_io_destroy (io (w_slave w)) w in
  let w := match modbus (w_slave w) with
           | Some h => emit (DriverDestroy (drv (w_slave w)) (Some h)) w
           | None => w
           end in
  let w := emit PollToRemove w in
  emit (StorageClose (src_storage (w_slave w))) w.

(** [create_source_from_storage] (lines 167-187), the callback of
    [storage_foreach_source]; the row is its first five arguments. *)
Definition create_source_from_storage (reg : option string) (row : source_row)
    (w : world) : world :=
  match sscanf_0x04x (row_address row) with
  | (1, Some uaddr) =>
      let slave := w_slave w in
      let '(created, w) :=
        source_create reg (path slave) (row_name row) (row_type row)
          (row_unit row) uaddr (row_interval row) (src_storage slave) false w in
      match created with
      | None => w
      | Some p => with_slave (fun s => set_source_list (p :: source_list s) s) w
      end
  | _ => w
  end.

(** [destroy_handler] (lines 189-195): [l_timeout_modify(slave->poll_to, 5)]. *)
Definition destroy_handler (w : world) : world :=
  with_slave (set_poll_to (Some (seconds 5))) w.

(** [disconnected_cb] (lines 197-215). *)
Definition disconnected_cb (w : world) : world :=
  let w := l_hashmap_destroy_to_list w in
  let w := with_slave (set_to_list ∅) w in
  let w := emit (DriverDestroy (drv (w_slave w)) (modbus (w_slave w))) w in
  let w := with_slave (set_modbus None) w in
  let w := l_io_destroy (io (w_slave w)) w in
  let w := with_slave (set_io None) w in
  emit (SlavePropertyChanged (path (w_slave w)) "Online") w.

(** What the device answers to the typed reads of the driver at one
    moment: the [int] each read returns and the value it leaves behind its
    out-pointer. *)
Record driver_env := {
  read_bool : option nat -> Z -> Z * bool;
  read_byte : option nat -> Z -> Z * Z;
  read_u16 : option nat -> Z -> Z * Z;
  read_u32 : option nat -> Z -> Z * Z;
  read_u64 : option nat -> Z -> Z * Z
}.

(** The first byte of a string, NUL when it is empty. *)
Definition first_char (s : string) : ascii :=
  match s with
  | String c _ => c
  | EmptyString => zero
  end.

(** [polling_to_expired] (lines 217-273) on the Source and the handle its
    bond leads to: the Source afterwards, the [ret] of the read, and the
    delay handed to [l_timeout_modify_ms]. *)
Definition polling_to_expired (host : byte_order) (driver : driver_env)
    (slave_modbus : option nat) (src : source) : source * Z * Z :=
  let sig := source_get_signature src in
  let u16_addr := source_get_address src in
  let '(src, ret) :=
    let c := first_char sig in
    if Ascii.eqb c "b" then
      let '(ret, val_bool) := read_bool driver slave_modbus u16_addr in
      (if negb (ret =? -1) then source_set_value_bool src val_bool
       else src, ret)
    else if Ascii.eqb c "y" then
      let '(ret, val_u8) := read_byte driver slave_modbus u16_addr in
      (if negb (ret =? -1) then source_set_value_byte src val_u8
       else src, ret)
    else if Ascii.eqb c "q" then
      let '(ret, val_u16) := read_u16 driver slave_modbus u16_addr in
      (if negb (ret =? -1) then source_set_value_u16 src val_u16
       else src, ret)
    else if Ascii.eqb c "u" then
      let '(ret, val_u32) := read_u32 driver slave_modbus u16_addr in
      (if negb (ret =? -1)
       then source_set_value_u32 src (L_BE32_TO_CPU host val_u32)
       else src, ret)
    else if Ascii.eqb c "t" then
      let '(ret, val_u64) := read_u64 driver slave_modbus u16_addr in
      (if negb (ret =? -1)
       then source_set_value_u64 src (L_BE64_TO_CPU host val_u64)
       else src, ret)
    else (src, 0) in
  (src, ret, source_get_interval src).

(** [polling_start] (lines 275-298) for the Source at [p]. Every pointer
    of [source_list] is live (see [wf_source_list]); the first branch is
    there for totality only. *)
Definition polling_start (p : nat) (w : world) : world :=
  match w_sources w !! p with
  | None => w
  | Some src =>
      let tl := to_list (w_slave w) in
      let k := source_get_path src in
      match tl !! k with
      | Some timeout =>
          with_slave (set_to_list
            (<[k := {| to_armed := Some (source_get_interval src);
                       to_bond := to_bond timeout |}]> tl)) w
      | None =>
          with_slave (set_to_list
            (<[k := {| to_armed := Some (source_get_interval src);
                       to_bond := p |}]> tl)) w
      end
  end.

(** What the outside answers during one connection attempt. *)
Record connect_env := {
  env_create : option nat;
  env_set_slave : Z;
  env_connect : Z;
  env_io_new : option nat
}.

(** The labels [retry:] and [error:] of [enable_slave]. *)
Definition enable_slave_retry (w : world) : world :=
  with_slave (set_poll_to (Some (seconds 5))) w.

Definition enable_slave_error (w : world) : world :=
  let w := emit (DriverDestroy (drv (w_slave w)) (modbus (w_slave w))) w in
  let w := with_slave (set_modbus None) w in
  enable_slave_retry w.

(** [enable_slave] (lines 300-353); its [timeout] argument is
    [slave->poll_to], the timer it was created as the callback of. *)
Definition enable_slave (e : connect_env) (w : world) : world :=
  match modbus (w_slave w) with
  | Some _ => w
  | None =>
      let w := emit (DriverCreate (drv (w_slave w)) (url (w_slave w))) w in
      let w := with_slave (set_modbus (env_create e)) w in
      match env_create e with
      | None => enable_slave_retry w
      | Some _ =>
          if env_set_slave e <? 0 then enable_slave_error w
          else if negb (env_connect e =? -1) then
            let w := with_slave (set_io (env_io_new e)) w in
            match env_io_new e with
            | None => enable_slave_error w
            | Some i =>
                let w := emit (IoNew i) w in
                let w := emit (IoSetDisconnectHandler i) w in
                let w := fold_left (fun w p => polling_start p w)
                           (source_list (w_slave w)) w in
                emit (SlavePropertyChanged (path (w_slave w)) "Online") w
            end
          else enable_slave_error w
      end
  end.

(** ** Method calls *)

(** A value inside a variant of a message, by D-Bus type. *)
Inductive variant :=
| VarString (s : string)
| VarObjectPath (o : string)
| VarBool (b : bool)
| VarByte (n : Z)
| VarInt16 (n : Z)
| VarUint16 (n : Z)
| VarInt32 (n : Z)
| VarUint32 (n : Z)
| VarInt64 (n : Z)
| VarUint64 (n : Z).

(** The body of a method call, as far as the two methods tell bodies
    apart: a dictionary [a{sv}], one object path [o], or anything else. *)
Inductive message :=
| MsgDict (entries : list (string * variant))
| MsgObjectPath (opath : string)
| MsgOther.

(** The replies of the two methods. *)
Inductive reply :=
| dbus_error_invalid_args
| method_return_path (opath : string)
| method_return.

(** [l_dbus_message_iter_get_variant(&value, "s", &out)] and
    [(..., "q", &out)]: [None] is the [false] they return on a variant of
    another type; a [uint16_t] is stored for ["q"]. *)
Definition get_variant_s (v : variant) : option string :=
  match v with
  | VarString s => Some s
  | _ => None
  end.

Definition get_variant_q (v : variant) : option Z :=
  match v with
  | VarUint16 n => Some (n mod 2 ^ 16)
  | _ => None
  end.

(** The locals of [method_source_add] that the dictionary fills. *)
Record add_args := {
  arg_name : option string;
  arg_type : option string;
  arg_unit : option string;
  arg_address : Z;
  arg_interval : Z
}.

(** Their initial values (lines 366-372). *)
Definition add_args_init : add_args :=
  {| arg_name := None; arg_type := None; arg_unit := None;
     arg_address := 65535; arg_interval := 1000 |}.

(** One turn of the [while] loop of lines 378-403; [None] is a
    [return dbus_error_invalid_args(msg)]. *)
Definition add_args_entry (k : string) (value : variant) (a : add_args)
  : option add_args :=
  if strcmp k "Name" =? 0 then
    match get_variant_s value with
    | Some v => Some {| arg_name := Some v; arg_type := arg_type a;
                        arg_unit := arg_unit a; arg_address := arg_address a;
                        arg_interval := arg_interval a |}
    | None => None
    end
  else if strcmp k "Type" =? 0 then
    match get_variant_s value with
    | Some v => Some {| arg_name := arg_name a; arg_type := Some v;
                        arg_unit := arg_unit a; arg_address := arg_address a;
                        arg_interval := arg_interval a |}
    | None => None
    end
  else if strcmp k "Unit" =? 0 then
    match get_variant_s value with
    | Some v => Some {| arg_name := arg_name a; arg_type := arg_type a;
                        arg_unit := Some v; arg_address := arg_address a;
                        arg_interval := arg_interval a |}
    | None => None
    end
  else if strcmp k "Address" =? 0 then
    match get_variant_q value with
    | Some v => Some {| arg_name := arg_name a; arg_type := arg_type a;
                        arg_unit := arg_unit a; arg_address := v;
                        arg_interval := arg_interval a |}
    | None => None
    end
  else if strcmp k "PollingInterval" =? 0 then
    match get_variant_q value with
    | Some v => Some {| arg_name := arg_name a; arg_type := arg_type a;
                        arg_unit := arg_unit a; arg_address := arg_address a;
                        arg_interval := v |}
    | None => None
    end
  else None.

(** The whole loop. *)
Fixpoint add_args_loop (dict : list (string * variant)) (a : add_args)
  : option add_args :=
  match dict with
  | [] => Some a
  | (k, value) :: rest =>
      match add_args_entry k value a with
      | Some a' => add_args_loop rest a'
      | None => None
      end
  end.

(** [method_source_add] (lines 355-448). [reg] is the outcome of the bus
    registration inside [source_create], should the call get that far. *)
Definition method_source_add (reg : option string) (msg : message) (w : world)
  : reply * world :=
  let slave := w_slave w in
  match msg with
  | MsgDict dict =>
      match add_args_loop dict add_args_init with
      | None => (dbus_error_invalid_args, w)
      | Some a =>
          match arg_name a, arg_type a, arg_unit a with
          | Some name, Some type, Some unit =>
              if (arg_address a =? 65535) || negb (strlen type =? 1)
              then (dbus_error_invalid_args, w)
              else
                let unithex := l_util_hexstring_upper unit in
                if negb (storage_has_unit (w_units w) "SI" unithex)
                then (dbus_error_invalid_args, w)
                else if negb (fst (sscanf_byqut type) =? 1)
                then (dbus_error_invalid_args, w)
                else
                  match l_queue_find (w_sources w)
                          (fun src => address_cmp src (arg_address a))
                          (source_list slave) with
                  | Some _ => (dbus_error_invalid_args, w)
                  | None =>
                      let '(created, w) :=
                        source_create reg (path slave) name type unit
                          (arg_address a) (arg_interval a)
                          (src_storage slave) true w in
                      match created with
                      | None => (dbus_error_invalid_args, w)
                      | Some p =>
                          let opath :=
                            match w_sources w !! p with
                            | Some src => source_get_path src
                            | None => EmptyString
                            end in
                          let w := with_slave
                                     (fun s => set_source_list (p :: source_list s) s) w in
                          let w := match io (w_slave w) with
                                   | Some _ => polling_start p w
                                   | None => w
                                   end in
                          (method_return_path opath, w)
                      end
                  end
          | _, _, _ => (dbus_error_invalid_args, w)
          end
      end
  | _ => (dbus_error_invalid_args, w)
  end.

(** [method_source_remove] (lines 450-469). *)
Definition method_source_remove (msg : message) (w : world) : reply * world :=
  match msg with
  | MsgObjectPath opath =>
      match l_queue_remove_if (w_sources w) (fun src => path_cmp src opath)
              (source_list (w_slave w)) with
      | (Some p, rest) =>
          let w := with_slave (set_source_list rest) w in
          (method_return, source_destroy p true w)
      | (None, _) => (dbus_error_invalid_args, w)
      end
  | _ => (dbus_error_invalid_args, w)
  end.

(** [property_get_online] (lines 533-546): the boolean appended to the
    reply. *)
Definition property_get_online (s : slave) : bool :=
  match modbus s with
  | Some _ => true
  | None => false
  end.

(** ** Creation *)

(** What the outside answers during [slave_create]: whether the bus
    registers the Slave, what [stat] and [storage_open] return for its
    Source table, the rows of that table in the order the store replays
    them, and the outcome of registering the Source of each row. *)
Record create_env := {
  ce_register : bool;
  ce_stat : Z;
  ce_storage : Z;
  ce_rows : list source_row;
  ce_source_reg : source_row -> option string
}.

(** [slave_ref], on a Slave that exists. *)
Definition slave_ref (w : world) : world :=
  with_slave (fun s => set_refs (refs s + 1) s) w.

(** [slave_create] (lines 584-666), in a process whose unit catalog is
    [units]. [None] is [return NULL]. [name ? : url] is what is written
    for the name of a new Slave. *)
Definition slave_create (e : create_env) (units : list (string * string))
    (k : string) (slave_id : Z) (nm : option string) (u : option string)
  : option world :=
  match u, slave_create_driver u with
  | Some url0, Some driver =>
      let dpath := "/slave_" +:+ k in
      let slave :=
        {| refs := 0; key := k; id := slave_id mod 2 ^ 8; name := nm;
           path := EmptyString; url := url0; modbus := None; io := None;
           source_list := []; to_list := ∅; src_storage := ce_storage e;
           poll_to := None; drv := driver |} in
      let w := {| w_slave := slave; w_sources := ∅; w_next := 1%nat;
                  w_units := units; w_log := [] |} in
      let w := slave_ref w in
      if negb (ce_register e) then None
      else
        let w := with_slave (fun s =>
                   {| refs := refs s; key := key s; id := id s; name := name s;
                      path := dpath; url := url s; modbus := modbus s;
                      io := io s; source_list := source_list s;
                      to_list := to_list s; src_storage := src_storage s;
                      poll_to := poll_to s; drv := drv s |}) w in
        let w :=
          if ce_stat e =? 0 then
            fold_left (fun w row =>
                         create_source_from_storage (ce_source_reg e row) row w)
              (ce_rows e) w
          else
            let w := emit (StorageWriteKeyInt k "Id" (slave_id mod 2 ^ 8)) w in
            let w := emit (StorageWriteKeyString k "Name"
                             (match nm with Some n => n | None => url0 end)) w in
            emit (StorageWriteKeyString k "URL" url0) w in
        let w := with_slave (set_poll_to (Some (seconds 1))) w in
        Some (slave_ref w)
  | _, _ => None
  end.

(** ** The event loop, seen from one Slave

    The loop runs one callback at a time. An input is what makes it run
    one: the expiry of the connection timer (with what the outside answers
    during the attempt), the loss of the connection, the expiry of a
    polling timer (with what the device answers), or a method call. *)
Inductive input :=
| PollToExpired (e : connect_env)
| IoDisconnected
| PollingExpired (k : string) (d : driver_env)
| AddSource (reg : option string) (msg : message)
| RemoveSource (msg : message).

(** One turn of the loop; [None] when the input cannot occur in the state
    (a timer that is not armed, a connection that is not watched) or when
    the callback would run on freed memory (a polling timer whose bond
    leads to a Source that RemoveSource has destroyed).

    A timer fires once per arming. On the loss of the connection ell calls
    the disconnect handler and then the destroy callback registered with
    it by [l_io_set_disconnect_handler]: [disconnected_cb], then
    [destroy_handler]. *)
Definition step (host : byte_order) (i : input) (w : world) : option world :=
  match i with
  | PollToExpired e =>
      match poll_to (w_slave w) with
      | Some _ => Some (enable_slave e (with_slave (set_poll_to None) w))
      | None => None
      end
  | IoDisconnected =>
      match io (w_slave w) with
      | Some _ => Some (destroy_handler (disconnected_cb w))
      | None => None
      end
  | PollingExpired k d =>
      match to_list (w_slave w) !! k with
      | Some t =>
          match to_armed t, w_sources w !! to_bond t with
          | Some _, Some src =>
              let '(src', _, ms) :=
                polling_to_expired host d (modbus (w_slave w)) src in
              let w := set_sources (<[to_bond t := src']> (w_sources w)) w in
              Some (with_slave
                      (fun s => set_to_list
                         (<[k := {| to_armed := Some ms; to_bond := to_bond t |}]>
                            (to_list s)) s) w)
          | _, _ => None
          end
      | None => None
      end
  | AddSource reg msg => Some (snd (method_source_add reg msg w))
  | RemoveSource msg => Some (snd (method_source_remove msg w))
  end.

(** A run of the loop over a list of inputs. *)
Fixpoint run (host : byte_order) (inputs : list input) (w : world)
  : option world :=
  match inputs with
  | [] => Some w
  | i :: rest =>
      match step host i w with
      | Some w' => run host rest w'
      | None => None
      end
  end.

(** ** Predicates of the specification and sample inputs *)

(** The states a Slave can be in between two callbacks: those a run of
    the loop reaches from a successful [slave_create]. *)
Definition reachable (host : byte_order) (w : world) : Prop :=
  exists e units k slave_id nm u inputs w0,
    slave_create e units k slave_id nm u = Some w0
    /\ run host inputs w0 = Some w.

(** The log of a callback: what it appended. *)
Definition appended (w w' : world) (evs : list event) : Prop :=
  w_log w' = w_log w ++ evs.

(** Is the event a change notification of the Online property? *)
Definition is_online_changed (e : event) : bool :=
  match e with
  | SlavePropertyChanged _ p => String.eqb p "Online"
  | _ => false
  end.

(** Between callbacks the I/O registration and the handle come and go
    together, and polling timers exist only with them. *)
Definition connected_inv (w : world) : Prop :=
  (io (w_slave w) = None <-> modbus (w_slave w) = None)
  /\ (io (w_slave w) = None -> to_list (w_slave w) = ∅).

(** The environment of a Slave that is created for the first time: the
    bus accepts it and it has no Source table yet. *)
Definition first_creation : create_env :=
  {| ce_register := true; ce_stat := -1; ce_storage := 3; ce_rows := [];
     ce_source_reg := fun _ => None |}.

(** A connection attempt in which everything succeeds, with handle 7 and
    I/O registration 9. *)
Definition attempt_ok : connect_env :=
  {| env_create := Some 7%nat; env_set_slave := 0; env_connect := 0;
     env_io_new := Some 9%nat |}.

(** A request that AddSource accepts when [V] is in the catalog. *)
Definition sample_request : message :=
  MsgDict [("Name", VarString "Temp1"); ("Type", VarString "q");
           ("Unit", VarString "V"); ("Address", VarUint16 16);
           ("PollingInterval", VarUint16 2000)].

Definition sample_source : source :=
  {| src_path := "/slave_a1/source_0010"; src_name := "Temp1";
     src_signature := "q"; src_unit := "V"; src_address := 16;
     src_interval := 2000; src_value := None; src_storage_id := 3;
     src_persisted := true |}.

Definition sample_slave : slave :=
  {| refs := 2; key := "a1"; id := 1; name := Some "plc";
     path := "/slave_a1"; url := "tcp://10.0.0.7:502";
     modbus := None; io := None; source_list := []; to_list := ∅;
     src_storage := 3; poll_to := Some (seconds 1); drv := tcp |}.

Definition sample_creation_log : list event :=
  [StorageWriteKeyInt "a1" "Id" 1; StorageWriteKeyString "a1" "Name" "plc";
   StorageWriteKeyString "a1" "URL" "tcp://10.0.0.7:502"].

Definition sample_connection_log : list event :=
  [DriverCreate tcp "tcp://10.0.0.7:502"; IoNew 9; IoSetDisconnectHandler 9;
   SlavePropertyChanged "/slave_a1" "Online"].

(** A new Slave on [tcp://10.0.0.7:502] as [slave_create] returns it, the
    same Slave after its first connection attempt has succeeded, and then
    after [sample_request] has been accepted. *)
Definition sample_offline : world :=
  {| w_slave := sample_slave; w_sources := ∅; w_next := 1%nat;
     w_units := [("SI", "56")]; w_log := sample_creation_log |}.

Definition sample_connected : world :=
  {| w_slave := set_poll_to None
                  (set_io (Some 9%nat) (set_modbus (Some 7%nat) sample_slave));
     w_sources := ∅; w_next := 1%nat; w_units := [("SI", "56")];
     w_log := sample_creation_log ++ sample_connection_log |}.

Definition sample_polling : world :=
  {| w_slave := set_to_list
                  {[ "/slave_a1/source_0010" :=
                       {| to_armed := Some 2000; to_bond := 1%nat |} ]}
                  (set_source_list [1%nat]
                     (set_poll_to None
                        (set_io (Some 9%nat) (set_modbus (Some 7%nat) sample_slave))));
     w_sources := {[ 1%nat := sample_source ]}; w_next := 2%nat;
     w_units := [("SI", "56")];
     w_log := sample_creation_log ++ sample_connection_log
              ++ [StorageWriteSource 3 (source_row_of sample_source)] |}.

(** Attempts that fail: no handle, unit id refused, connection refused. *)
Definition attempt_no_handle : connect_env :=
  {| env_create := None; env_set_slave := 0; env_connect := 0;
     env_io_new := None |}.

Definition attempt_unit_refused : connect_env :=
  {| env_create := Some 7%nat; env_set_slave := -1; env_connect := 0;
     env_io_new := Some 9%nat |}.

Definition attempt_refused : connect_env :=
  {| env_create := Some 7%nat; env_set_slave := 0; env_connect := -1;
     env_io_new := Some 9%nat |}.

(** A device that fails every read, and one that answers every read
    with the same bytes. *)
Definition device_silent : driver_env :=
  {| read_bool := fun _ _ => (-1, false);
     read_byte := fun _ _ => (-1, 0);
     read_u16 := fun _ _ => (-1, 0);
     read_u32 := fun _ _ => (-1, 0);
     read_u64 := fun _ _ => (-1, 0) |}.

Definition device_answering : driver_env :=
  {| read_bool := fun _ _ => (1, true);
     read_byte := fun _ _ => (1, 171);
     read_u16 := fun _ _ => (1, 4660);
     read_u32 := fun _ _ => (2, 305419896);
     read_u64 := fun _ _ => (4, 81985529216486895) |}.

(** A Source of each wire type, at address 16. *)
Definition sample_source_of (sig : string) : source :=
  {| src_path := "/slave_a1/source_0010"; src_name := "Temp1";
     src_signature := sig; src_unit := "V"; src_address := 16;
     src_interval := 2000; src_value := None; src_storage_id := 3;
     src_persisted := true |}.

(** Two more dictionaries: one without a polling interval, one with a key
    that AddSource does not know. *)
Definition sample_dict_no_interval : list (string * variant) :=
  [("Name", VarString "Temp1"); ("Type", VarString "q");
   ("Unit", VarString "V"); ("Address", VarUint16 16)].

Definition sample_dict_unknown_key : list (string * variant) :=
  [("Name", VarString "Temp1"); ("Type", VarString "q");
   ("Unit", VarString "V"); ("Address", VarUint16 16);
   ("Scale", VarUint16 10)].

(** A connection attempt fails when the handle cannot be created, the
    unit id cannot be set, the connection is refused, or the socket cannot
    be watched. *)
Definition attempt_fails (e : connect_env) : Prop :=
  env_create e = None \/ env_set_slave e < 0 \/ env_connect e = -1
  \/ env_io_new e = None.

Definition is_driver_create (e : event) : bool :=
  match e with
  | DriverCreate _ _ => true
  | _ => false
  end.

(** The world after AddSource has accepted a request: the Source is
    allocated and stored, pushed on [source_list], and given a polling
    timer when the connection is watched. *)
Definition world_with_source (opath name type unit : string)
    (address interval : Z) (w : world) : world :=
  let src := source_new opath name type unit address interval
               (src_storage (w_slave w)) true in
  let p := w_next w in
  let w1 := {| w_slave := set_source_list (p :: source_list (w_slave w)) (w_slave w);
               w_sources := <[p := src]> (w_sources w);
               w_next := S p; w_units := w_units w;
               w_log := w_log w
                        ++ [StorageWriteSource (src_storage (w_slave w))
                              (source_row_of src)] |} in
  match io (w_slave w) with
  | Some _ => polling_start p w1
  | None => w1
  end.

(** The one-character signatures that AddSource lets through. *)
Definition basic_types : list ascii := ["b"; "y"; "q"; "u"; "t"]%char.

(** The queue of Sources holds live pointers, each once, and the
    allocator has not handed out the addresses it will hand out next. *)
Definition wf_sources (l : list nat) (h : gmap nat source) (n : nat) : Prop :=
  (forall p, p ∈ l -> is_Some (h !! p))
  /\ (forall p, is_Some (h !! p) -> (p < n)%nat)
  /\ NoDup l.

Definition wf_source_list (w : world) : Prop :=
  wf_sources (source_list (w_slave w)) (w_sources w) (w_next w).




(** The address a stored row replays to, when it parses. *)
Definition row_replay_address (row : source_row) : option Z :=
  match sscanf_0x04x (row_address row) with
  | (1, Some uaddr) => Some (uaddr mod 2 ^ 16)
  | _ => None
  end.

(** Two worlds whose Slaves agree on everything that concerns the
    connection and the timers. *)
Definition same_connection (w w' : world) : Prop :=
  modbus (w_slave w') = modbus (w_slave w)
  /\ io (w_slave w') = io (w_slave w)
  /\ to_list (w_slave w') = to_list (w_slave w)
  /\ poll_to (w_slave w') = poll_to (w_slave w)
  /\ path (w_slave w') = path (w_slave w)
  /\ src_storage (w_slave w') = src_storage (w_slave w)
  /\ drv (w_slave w') = drv (w_slave w).

(** Where the locals of AddSource come from: each is what it was
    initialised to, or what an entry of the dictionary gave. *)
Definition args_from (dict : list (string * variant)) (a : add_args) : Prop :=
  (forall n, arg_name a = Some n -> In ("Name", VarString n) dict)
  /\ (forall t, arg_type a = Some t -> In ("Type", VarString t) dict)
  /\ (forall u, arg_unit a = Some u -> In ("Unit", VarString u) dict)
  /\ (arg_address a = 65535
      \/ exists n, In ("Address", VarUint16 n) dict
                   /\ arg_address a = n mod 2 ^ 16)
  /\ (arg_interval a = 1000
      \/ exists n, In ("PollingInterval", VarUint16 n) dict
                   /\ arg_interval a = n mod 2 ^ 16).

(** The keys AddSource knows. *)
Definition known_keys : list string :=
  ["Name"; "Type"; "Unit"; "Address"; "PollingInterval"].

(** What the scan needs to know of a character to read it as the digit
    [d]: it has that value, and it is no white space, sign or [x]. *)
Definition lower_hex_digit (c : ascii) (d : Z) : Prop :=
  hex_value c = Some d /\ isspace c = false
  /\ Ascii.eqb c "-" = false /\ Ascii.eqb c "+" = false
  /\ Ascii.eqb c "x" = false /\ Ascii.eqb c "X" = false.

(** Two Sources with the same definition, as far as the store keeps it:
    address, type signature, unit and interval. *)
Definition same_definition (s s' : source) : Prop :=
  src_address s' = src_address s
  /\ src_signature s' = src_signature s
  /\ src_unit s' = src_unit s
  /\ src_interval s' = src_interval s.

(** The Source at [p] is a replay of [s]: same definition, and not to be
    stored again. *)
Definition replayed (w : world) (p : nat) (s : source) : Prop :=
  exists s', w_sources w !! p = Some s'
             /\ same_definition s s' /\ src_persisted s' = false.

(** A table with the rows of two Sources, and the environment of a Slave
    that is created again over it. *)
Definition sample_stored : list source :=
  [sample_source_of "q";
   {| src_path := "/slave_a1/source_ffee"; src_name := "Flow";
      src_signature := "u"; src_unit := "V"; src_address := 65518;
      src_interval := 500; src_value := Some (ValU32 7); src_storage_id := 3;
      src_persisted := true |}].

Definition second_creation : create_env :=
  {| ce_register := true; ce_stat := 0; ce_storage := 3;
     ce_rows := map source_row_of sample_stored;
     ce_source_reg := fun row => Some ("/slave_a1/source_" +:+ row_name row) |}.




(** ** Properties and lifetime: the rest of [slave.c] *)

(** [property_get_name] (lines 484-495): the string appended to the
    reply, [slave->name], which may be [NULL]. *)
Definition property_get_name (s : slave) : option string := name s.

(** [slave_unref] (lines 139-149) on a Slave that exists: the Slave
    afterwards and whether it was freed. *)
Definition slave_unref (w : world) : world * bool :=
  let w := with_slave (fun s => set_refs (refs s - 1) s) w in
  if refs (w_slave w) =? 0 then (slave_free w, true) else (w, false).

(** What [slave_destroy] asks of the file system and of the Slave table. *)
Inductive removal :=
| Unlink (file : string)
| Rmdir (dir : string)
| StorageRemoveGroup (k : string).

(** [slave_destroy] (lines 668-711) on a Slave that exists, [storagedir]
    being the macro [STORAGEDIR]. [l_dbus_unregister_object] releases the
    reference that the bus took in [slave_create], through the destroy
    function registered there, [slave_unref]. [None] when that release
    already frees the Slave: the lines after it would read freed memory.
    The result is the Slave afterwards, the removals asked for, and
    whether the Slave was freed. *)
Definition slave_destroy (storagedir : string) (rm : bool) (w : world)
  : option (world * list removal * bool) :=
  let w := match io (w_slave w) with
           | Some i => emit (IoSetDisconnectHandler i) w
           | None => w
           end in
  let '(w, freed) := slave_unref w in
  if freed then None
  else
    let k := key (w_slave w) in
    let removals :=
      if rm
      then [Unlink (storagedir +:+ "/" +:+ k +:+ "/sources.conf");
            Rmdir (storagedir +:+ "/" +:+ k);
            StorageRemoveGroup k]
      else [] in
    let '(w, freed) := slave_unref w in
    Some (w, removals, freed).

(** ** Further predicates *)

(** The paths of the Sources of a queue, in queue order. *)
Definition paths_of (h : gmap nat source) (l : list nat) : list string :=
  omap (fun p => src_path <$> h !! p) l.

(** Every polling timer is armed, carries a bond to a pointer that has
    been allocated, and is filed under the path of the Source its bond
    leads to, if that Source is still alive. *)
Definition timers_inv (w : world) : Prop :=
  forall k t, to_list (w_slave w) !! k = Some t ->
    is_Some (to_armed t)
    /\ (to_bond t < w_next w)%nat
    /\ forall s, w_sources w !! to_bond t = Some s -> src_path s = k.

(** Events that take and release an I/O registration, and a [destroy] of
    the driver that is handed [NULL]. *)
Definition is_io_new (e : event) : bool :=
  match e with
  | IoNew _ => true
  | _ => false
  end.

Definition is_io_destroy (e : event) : bool :=
  match e with
  | IoDestroy _ => true
  | _ => false
  end.

Definition is_null_destroy (e : event) : bool :=
  match e with
  | DriverDestroy _ None => true
  | _ => false
  end.

Definition is_storage_close (e : event) : bool :=
  match e with
  | StorageClose _ => true
  | _ => false
  end.

Definition count (f : event -> bool) (log : list event) : nat :=
  length (List.filter f log).

(** Registrations taken and not yet released, against [slave->io]. *)
Definition io_balanced (w : world) : Prop :=
  count is_io_new (w_log w)
  = (count is_io_destroy (w_log w)
     + match io (w_slave w) with Some _ => 1 | None => 0 end)%nat.

(** A Slave with two Sources, offline: what [second_creation] gives. *)
Definition sample_two_sources : world :=
  {| w_slave := set_source_list [2%nat; 1%nat] sample_slave;
     w_sources :=
       {[ 1%nat := source_new "/slave_a1/source_Temp1" "Temp1" "q" "V" 16 2000
                     3 false;
          2%nat := source_new "/slave_a1/source_Flow" "Flow" "u" "V" 65518 500
                     3 false ]};
     w_next := 3%nat; w_units := [("SI", "56")]; w_log := [] |}.

Definition is_driver_destroy (e : event) : bool :=
  match e with
  | DriverDestroy _ _ => true
  | _ => false
  end.

(** ** Theorems *)

(** *** Strings *)

Lemma uchar_range c : 0 <= uchar c < 256.
Proof.
  unfold uchar. pose proof (N_ascii_bounded c) as H. lia.
Qed.

Lemma uchar_inj a b : uchar a = uchar b -> a = b.
Proof.
  unfold uchar. intros H. apply N2Z.inj in H.
  rewrite <- (ascii_N_embedding a), <- (ascii_N_embedding b). now rewrite H.
Qed.

Lemma strcmp_refl s : strcmp s s = 0.
Proof.
  induction s as [|c s IH]; simpl; [reflexivity|].
  now rewrite Z.eqb_refl.
Qed.

Lemma strcmp_eq s1 : forall s2, strcmp s1 s2 = 0 <-> s1 = s2.
Proof.
  induction s1 as [|c1 r1 IH]; intros [|c2 r2]; simpl; try (split; discriminate || reflexivity).
  destruct (Z.eqb_spec (uchar c1) (uchar c2)) as [E|E].
  - apply uchar_inj in E. subst c2. rewrite IH. split; congruence.
  - destruct (uchar c1 <? uchar c2); split; try discriminate; intros H; congruence.
Qed.

Lemma strcmp_eqb s1 s2 : (strcmp s1 s2 =? 0) = true <-> s1 = s2.
Proof. rewrite Z.eqb_eq. apply strcmp_eq. Qed.

Lemma strcmp_neqb s1 s2 : s1 <> s2 -> (strcmp s1 s2 =? 0) = false.
Proof.
  intros H. apply Z.eqb_neq. intros E. apply H. now apply strcmp_eq.
Qed.

(** A proper extension of a string compares greater than the string. *)
Lemma strcmp_proper_prefix p c rest : strcmp p (p +:+ String c rest) = -1.
Proof.
  induction p as [|a p IH]; simpl; [reflexivity|].
  now rewrite Z.eqb_refl.
Qed.

(** The first byte decides when it differs. *)
Lemma strcmp_first_lt c1 r1 c2 r2 :
  uchar c1 < uchar c2 -> strcmp (String c1 r1) (String c2 r2) = -1.
Proof.
  intros H. simpl.
  destruct (Z.eqb_spec (uchar c1) (uchar c2)); [lia|].
  destruct (Z.ltb_spec (uchar c1) (uchar c2)); [reflexivity|lia].
Qed.

(** *** The driver choice of [slave_create] *)

(** What the comparison does choose: a URL that extends [tcp://] gets the
    stream-socket driver, and one that extends [serial://] the serial-line
    driver. *)
Lemma slave_create_driver_tcp_extended c rest :
  slave_create_driver (Some ("tcp://" +:+ String c rest)) = Some tcp.
Proof.
  unfold slave_create_driver.
  now rewrite (strcmp_proper_prefix "tcp://" c rest).
Qed.

Lemma slave_create_driver_serial_extended c rest :
  slave_create_driver (Some ("serial://" +:+ String c rest)) = Some rtu.
Proof.
  unfold slave_create_driver.
  now rewrite (strcmp_proper_prefix "serial://" c rest).
Qed.

(** Every URL whose first byte comes after [t] gets the stream-socket
    driver, whatever follows. *)
Lemma slave_create_driver_after_t c rest :
  116 < uchar c -> slave_create_driver (Some (String c rest)) = Some tcp.
Proof.
  intros H. unfold slave_create_driver.
  now rewrite (strcmp_first_lt "t" "cp://" c rest H).
Qed.

(** C4, at the inputs where the code departs from it: [slave_create]
    compares the whole URL with the scheme by [strcmp] and takes every URL
    that sorts after the scheme. A URL of another scheme ([udp://...]) is
    given the stream-socket driver instead of being refused; the URL
    [tcp://] itself is given the serial-line driver; the URL [serial://]
    itself is refused. *)
Theorem slave_create_scheme_by_order :
  (exists w, slave_create first_creation [] "a1" 1 None
               (Some "udp://10.0.0.7:502") = Some w
             /\ drv (w_slave w) = tcp)
  /\ (exists w, slave_create first_creation [] "a1" 1 None
                  (Some "tcp://") = Some w
                /\ drv (w_slave w) = rtu)
  /\ slave_create first_creation [] "a1" 1 None (Some "serial://") = None
  /\ starts_with "tcp://" "udp://10.0.0.7:502" = false
  /\ starts_with "serial://" "udp://10.0.0.7:502" = false
  /\ starts_with "tcp://" "tcp://" = true
  /\ starts_with "serial://" "serial://" = true.
Proof.
  repeat split; try reflexivity.
  - eexists. split; [vm_compute; reflexivity | reflexivity].
  - eexists. split; [vm_compute; reflexivity | reflexivity].
Qed.

(** *** The log *)

Lemma fold_emit {A} (f : A -> event) (l : list A) : forall w,
  fold_left (fun w a => emit (f a) w) l w
  = {| w_slave := w_slave w; w_sources := w_sources w; w_next := w_next w;
       w_units := w_units w; w_log := w_log w ++ map f l |}.
Proof.
  induction l as [|a l IH]; intros w; simpl.
  - rewrite app_nil_r. now destruct w.
  - rewrite IH. simpl. now rewrite <- app_assoc.
Qed.

Lemma l_hashmap_destroy_to_list_eq w :
  l_hashmap_destroy_to_list w
  = {| w_slave := w_slave w; w_sources := w_sources w; w_next := w_next w;
       w_units := w_units w;
       w_log := w_log w ++ map (fun kv => TimeoutRemove (fst kv))
                             (map_to_list (to_list (w_slave w))) |}.
Proof.
  unfold l_hashmap_destroy_to_list, timeout_destroy.
  apply (fold_emit (fun kv : string * polling_timeout => TimeoutRemove (fst kv))).
Qed.

(** [disconnected_cb], in one equation. *)
Lemma disconnected_cb_eq w :
  disconnected_cb w
  = {| w_slave := set_io None (set_modbus None (set_to_list ∅ (w_slave w)));
       w_sources := w_sources w; w_next := w_next w; w_units := w_units w;
       w_log := w_log w
                ++ map (fun kv => TimeoutRemove (fst kv))
                     (map_to_list (to_list (w_slave w)))
                ++ [DriverDestroy (drv (w_slave w)) (modbus (w_slave w))]
                ++ match io (w_slave w) with
                   | Some i => [IoDestroy i]
                   | None => []
                   end
                ++ [SlavePropertyChanged (path (w_slave w)) "Online"] |}.
Proof.
  unfold disconnected_cb. rewrite l_hashmap_destroy_to_list_eq.
  destruct w as [s h n u l]. unfold with_slave, emit, l_io_destroy; simpl.
  destruct (io s); simpl; f_equal; rewrite <- ?app_assoc; reflexivity.
Qed.

Lemma fold_source_destroy rm (l : list nat) : forall w,
  let w' := fold_left (fun w p => source_destroy p rm w) l w in
  w_slave w' = w_slave w /\ w_units w' = w_units w /\ w_next w' = w_next w
  /\ w_log w' = w_log w ++ map (fun p => SourceDestroy p rm) l.
Proof.
  induction l as [|p l IH]; intros w; simpl.
  - now rewrite app_nil_r.
  - destruct (IH (source_destroy p rm w)) as (Hs & Hu & Hn & Hl).
    rewrite Hs, Hu, Hn, Hl. simpl. now rewrite <- app_assoc.
Qed.

(** *** Teardown order *)

(** The log of the final teardown. *)
Lemma slave_free_log w :
  w_log (slave_free w)
  = w_log w
    ++ map (fun p => SourceDestroy p false) (source_list (w_slave w))
    ++ map (fun kv => TimeoutRemove (fst kv)) (map_to_list (to_list (w_slave w)))
    ++ match io (w_slave w) with Some i => [IoDestroy i] | None => [] end
    ++ match modbus (w_slave w) with
       | Some h => [DriverDestroy (drv (w_slave w)) (Some h)]
       | None => []
       end
    ++ [PollToRemove; StorageClose (src_storage (w_slave w))].
Proof.
  unfold slave_free.
  destruct (fold_source_destroy false (source_list (w_slave w)) w)
    as (Hs & _ & _ & Hl).
  set (w1 := fold_left _ _ w) in *.
  rewrite l_hashmap_destroy_to_list_eq.
  unfold with_slave, emit, l_io_destroy; simpl.
  rewrite Hs, Hl.
  destruct (io (w_slave w)); simpl;
    destruct (modbus (w_slave w)); simpl;
    repeat rewrite <- app_assoc; reflexivity.
Qed.

(** The final teardown releases the I/O registration first and the
    handle after it. *)
Lemma slave_free_io_before_handle w h i :
  modbus (w_slave w) = Some h -> io (w_slave w) = Some i ->
  exists pre post,
    w_log (slave_free w)
    = w_log w ++ pre
      ++ IoDestroy i :: DriverDestroy (drv (w_slave w)) (Some h) :: post
    /\ ~ In (DriverDestroy (drv (w_slave w)) (Some h)) pre.
Proof.
  intros Hm Hi. rewrite slave_free_log, Hm, Hi.
  eexists (_ ++ _), _. split.
  - rewrite <- app_assoc. reflexivity.
  - rewrite in_app_iff, !in_map_iff.
    intros [(x & Hx & _)|(x & Hx & _)]; discriminate.
Qed.

(** C8, at the disconnect callback: [disconnected_cb] hands the handle to
    the driver's [destroy] (line 207) and only then calls [l_io_destroy]
    (line 210); the I/O registration outlives the handle it watches. *)
Theorem disconnected_cb_handle_before_io w h i :
  modbus (w_slave w) = Some h -> io (w_slave w) = Some i ->
  exists pre post,
    w_log (disconnected_cb w)
    = w_log w ++ pre
      ++ DriverDestroy (drv (w_slave w)) (Some h) :: IoDestroy i :: post
    /\ ~ In (IoDestroy i) pre.
Proof.
  intros Hm Hi. rewrite disconnected_cb_eq. simpl. rewrite Hm, Hi.
  eexists _, _. split; [reflexivity|].
  rewrite in_map_iff. intros (x & Hx & _); discriminate.
Qed.

Lemma disconnected_cb_handle_before_io_witness :
  exists pre post,
    w_log (disconnected_cb sample_polling)
    = w_log sample_polling ++ pre
      ++ DriverDestroy (drv (w_slave sample_polling)) (Some 7%nat)
           :: IoDestroy 9%nat :: post
    /\ ~ In (IoDestroy 9%nat) pre.
Proof.
  apply (disconnected_cb_handle_before_io sample_polling 7%nat 9%nat);
    reflexivity.
Defined.

(** *** Polling timers are the only thing [polling_start] touches *)

Lemma polling_start_shape p w :
  exists m, polling_start p w = with_slave (set_to_list m) w
            /\ (is_Some (w_sources w !! p) -> m <> ∅).
Proof.
  unfold polling_start.
  destruct (w_sources w !! p) as [src|] eqn:Hp.
  - destruct (to_list (w_slave w) !! source_get_path src);
      eexists; (split; [reflexivity|]); intros _; apply insert_non_empty.
  - exists (to_list (w_slave w)). split.
    + destruct w as [[] ? ? ? ?]; reflexivity.
    + intros [? ?]; discriminate.
Qed.

Lemma with_slave_set_to_list_twice m1 m2 w :
  with_slave (set_to_list m2) (with_slave (set_to_list m1) w)
  = with_slave (set_to_list m2) w.
Proof. reflexivity. Qed.

Lemma fold_polling_start_shape (l : list nat) : forall w,
  exists m, fold_left (fun w p => polling_start p w) l w
            = with_slave (set_to_list m) w.
Proof.
  induction l as [|p l IH]; intros w; simpl.
  - exists (to_list (w_slave w)). destruct w as [[] ? ? ? ?]; reflexivity.
  - destruct (polling_start_shape p w) as (m1 & -> & _).
    destruct (IH (with_slave (set_to_list m1) w)) as (m2 & ->).
    exists m2. apply with_slave_set_to_list_twice.
Qed.

(** *** One connection attempt *)

(** A failed attempt: no handle is kept, the connection timer is armed
    for 5 seconds, the driver was asked once, nothing was announced and
    nothing else moved. *)
Lemma enable_slave_failure e w :
  modbus (w_slave w) = None -> attempt_fails e ->
  let w' := enable_slave e w in
  modbus (w_slave w') = None
  /\ poll_to (w_slave w') = Some (seconds 5)
  /\ (io (w_slave w) = None -> io (w_slave w') = None)
  /\ to_list (w_slave w') = to_list (w_slave w)
  /\ source_list (w_slave w') = source_list (w_slave w)
  /\ w_sources w' = w_sources w /\ w_next w' = w_next w
  /\ exists evs, w_log w' = w_log w ++ evs
                 /\ length (List.filter is_driver_create evs) = 1%nat
                 /\ List.filter is_online_changed evs = [].
Proof.
  intros Hm Hf. unfold enable_slave. rewrite Hm.
  destruct e as [c ss cn ion]. unfold attempt_fails in Hf. simpl in *.
  destruct c as [h|]; simpl.
  - destruct (Z.ltb_spec ss 0); simpl.
    { repeat split; auto. eexists. split; [rewrite <- app_assoc; reflexivity|].
      split; reflexivity. }
    destruct (Z.eqb_spec cn (-1)); simpl.
    { repeat split; auto. eexists. split; [rewrite <- app_assoc; reflexivity|].
      split; reflexivity. }
    destruct ion as [i|]; simpl.
    { exfalso. destruct Hf as [Hf|[Hf|[Hf|Hf]]]; try discriminate; lia. }
    repeat split; auto. eexists. split; [rewrite <- app_assoc; reflexivity|].
    split; reflexivity.
  - repeat split; auto. eexists. split; [reflexivity|]. split; reflexivity.
Qed.

(** A successful attempt: handle and I/O registration are kept, a polling
    timer is started for the Sources, Online is announced once, and the
    connection timer is left alone. *)
Lemma enable_slave_success e w h i :
  modbus (w_slave w) = None ->
  env_create e = Some h -> 0 <= env_set_slave e -> env_connect e <> -1 ->
  env_io_new e = Some i ->
  exists m,
    enable_slave e w
    = {| w_slave := set_to_list m (set_io (Some i) (set_modbus (Some h) (w_slave w)));
         w_sources := w_sources w; w_next := w_next w; w_units := w_units w;
         w_log := w_log w ++ [DriverCreate (drv (w_slave w)) (url (w_slave w));
                              IoNew i; IoSetDisconnectHandler i;
                              SlavePropertyChanged (path (w_slave w)) "Online"] |}.
Proof.
  intros Hm Hc Hs Hn Hi. unfold enable_slave. rewrite Hm, Hc, Hi.
  destruct (Z.ltb_spec (env_set_slave e) 0); [lia|].
  destruct (Z.eqb_spec (env_connect e) (-1)); [contradiction|]. simpl.
  match goal with
  | |- context [fold_left _ ?l ?w0] =>
      destruct (fold_polling_start_shape l w0) as (m & ->)
  end.
  exists m. unfold emit, with_slave; simpl.
  rewrite <- !app_assoc. reflexivity.
Qed.

(** An attempt either fails or succeeds. *)
Lemma attempt_cases e :
  attempt_fails e
  \/ exists h i, env_create e = Some h /\ 0 <= env_set_slave e
                 /\ env_connect e <> -1 /\ env_io_new e = Some i.
Proof.
  unfold attempt_fails. destruct e as [[h|] ss cn [i|]]; simpl; auto.
  destruct (Z.ltb_spec ss 0); auto.
  destruct (Z.eq_dec cn (-1)); auto.
  right. exists h, i. auto.
Qed.

(** *** AddSource, case by case *)

(** The request is refused and the world is as it was, or every check of
    lines 375-432 has passed and the world is [world_with_source]. *)
Lemma method_source_add_cases reg msg w :
  method_source_add reg msg w = (dbus_error_invalid_args, w)
  \/ exists dict a nm type unit opath,
       msg = MsgDict dict
       /\ add_args_loop dict add_args_init = Some a
       /\ arg_name a = Some nm /\ arg_type a = Some type
       /\ arg_unit a = Some unit
       /\ arg_address a <> 65535
       /\ strlen type = 1
       /\ storage_has_unit (w_units w) "SI" (l_util_hexstring_upper unit) = true
       /\ fst (sscanf_byqut type) = 1
       /\ l_queue_find (w_sources w)
            (fun src => address_cmp src (arg_address a))
            (source_list (w_slave w)) = None
       /\ reg = Some opath
       /\ method_source_add reg msg w
          = (method_return_path opath,
             world_with_source opath nm type unit (arg_address a)
               (arg_interval a) w).
Proof.
  unfold method_source_add.
  destruct msg as [dict| |]; auto.
  destruct (add_args_loop dict add_args_init) as [a|] eqn:Hloop; auto.
  destruct (arg_name a) as [nm|] eqn:Hn; auto.
  destruct (arg_type a) as [type|] eqn:Ht; auto.
  destruct (arg_unit a) as [unit|] eqn:Hu; auto.
  destruct (Z.eqb_spec (arg_address a) 65535) as [|Ha]; auto.
  destruct (Z.eqb_spec (strlen type) 1) as [Hl|]; auto. simpl.
  destruct (storage_has_unit (w_units w) "SI" (l_util_hexstring_upper unit))
    eqn:Hcat; auto. simpl.
  destruct (Z.eqb_spec (fst (sscanf_byqut type)) 1) as [Hsig|]; auto. simpl.
  destruct (l_queue_find _ _ _) eqn:Hfind; auto.
  destruct reg as [opath|]; simpl; auto.
  right. exists dict, a, nm, type, unit, opath.
  repeat (split; [assumption || reflexivity|]).
  unfold world_with_source. rewrite lookup_insert_eq. simpl.
  destruct (io (w_slave w)); reflexivity.
Qed.

Lemma world_with_source_eq opath nm type unit address interval w :
  let src := source_new opath nm type unit address interval
               (src_storage (w_slave w)) true in
  exists m,
    world_with_source opath nm type unit address interval w
    = {| w_slave := set_to_list m
                      (set_source_list (w_next w :: source_list (w_slave w))
                         (w_slave w));
         w_sources := <[w_next w := src]> (w_sources w);
         w_next := S (w_next w); w_units := w_units w;
         w_log := w_log w ++ [StorageWriteSource (src_storage (w_slave w))
                                (source_row_of src)] |}
    /\ (io (w_slave w) = None -> m = to_list (w_slave w))
    /\ (is_Some (io (w_slave w)) ->
        exists t, m !! opath = Some t
                  /\ to_armed t = Some interval
                  /\ (to_list (w_slave w) !! opath = None -> to_bond t = w_next w)).
Proof.
  intros src. unfold world_with_source. fold src.
  destruct (io (w_slave w)) as [i|] eqn:Hio.
  - unfold polling_start. simpl. rewrite lookup_insert_eq. simpl.
    destruct (to_list (w_slave w) !! opath) as [t|] eqn:Ht.
    + eexists. split; [reflexivity|]. split; [discriminate|].
      intros _. eexists. rewrite lookup_insert_eq. split; [reflexivity|].
      split; [reflexivity|]. discriminate.
    + eexists. split; [reflexivity|]. split; [discriminate|].
      intros _. eexists. rewrite lookup_insert_eq. split; [reflexivity|].
      split; reflexivity.
  - exists (to_list (w_slave w)). split.
    + destruct w as [[] ? ? ? ?]; reflexivity.
    + split; [reflexivity|]. intros [? ?]; discriminate.
Qed.

(** *** Replay of one stored row *)

Lemma create_source_from_storage_cases reg row w :
  create_source_from_storage reg row w = w
  \/ exists uaddr opath,
       sscanf_0x04x (row_address row) = (1, Some uaddr)
       /\ reg = Some opath
       /\ create_source_from_storage reg row w
          = {| w_slave := set_source_list (w_next w :: source_list (w_slave w))
                            (w_slave w);
               w_sources :=
                 <[w_next w := source_new opath (row_name row) (row_type row)
                                 (row_unit row) uaddr (row_interval row)
                                 (src_storage (w_slave w)) false]> (w_sources w);
               w_next := S (w_next w); w_units := w_units w;
               w_log := w_log w |}.
Proof.
  unfold create_source_from_storage.
  destruct (sscanf_0x04x (row_address row)) as [ret [uaddr|]] eqn:Hs.
  2:{ left. destruct ret as [|[]|]; reflexivity. }
  destruct (Z.eq_dec ret 1) as [->|Hne].
  2:{ left. destruct ret as [|[]|]; try reflexivity. contradiction. }
  destruct reg as [opath|]; simpl; [|now left].
  right. exists uaddr, opath. repeat split.
Qed.

(** *** What the callbacks leave alone *)

Lemma enable_slave_frame e w :
  let w' := enable_slave e w in
  source_list (w_slave w') = source_list (w_slave w)
  /\ w_sources w' = w_sources w /\ w_next w' = w_next w
  /\ w_units w' = w_units w.
Proof.
  destruct (modbus (w_slave w)) as [h|] eqn:Hm.
  - unfold enable_slave. rewrite Hm. auto.
  - destruct (attempt_cases e) as [Hf|(h & i & Hc & Hs & Hn & Hi)].
    + unfold enable_slave. rewrite Hm.
      destruct e as [[c|] ss cn [ion|]]; simpl;
        repeat match goal with
               | |- context [if ?b then _ else _] => destruct b; simpl
               end; auto;
        match goal with
        | |- context [fold_left _ ?l ?w0] =>
            destruct (fold_polling_start_shape l w0) as (m & ->)
        end; simpl; auto.
    + destruct (enable_slave_success e w h i Hm Hc Hs Hn Hi) as (m & ->).
      simpl. auto.
Qed.

Lemma polling_to_expired_shape host d h src :
  exists ret,
    polling_to_expired host d h src = (src, ret, src_interval src)
    \/ (ret <> -1
        /\ exists v, polling_to_expired host d h src
                     = (source_set_value v src, ret, src_interval src)).
Proof.
  unfold polling_to_expired.
  destruct (Ascii.eqb (first_char (source_get_signature src)) "b").
  { destruct (read_bool d h _) as [ret v].
    exists ret. destruct (Z.eqb_spec ret (-1)); simpl; eauto. }
  destruct (Ascii.eqb (first_char (source_get_signature src)) "y").
  { destruct (read_byte d h _) as [ret v].
    exists ret. destruct (Z.eqb_spec ret (-1)); simpl; eauto. }
  destruct (Ascii.eqb (first_char (source_get_signature src)) "q").
  { destruct (read_u16 d h _) as [ret v].
    exists ret. destruct (Z.eqb_spec ret (-1)); simpl; eauto. }
  destruct (Ascii.eqb (first_char (source_get_signature src)) "u").
  { destruct (read_u32 d h _) as [ret v].
    exists ret. destruct (Z.eqb_spec ret (-1)); simpl; eauto. }
  destruct (Ascii.eqb (first_char (source_get_signature src)) "t").
  { destruct (read_u64 d h _) as [ret v].
    exists ret. destruct (Z.eqb_spec ret (-1)); simpl; eauto. }
  exists 0. now left.
Qed.

Lemma polling_to_expired_fields host d h src :
  let src' := fst (fst (polling_to_expired host d h src)) in
  src_path src' = src_path src /\ src_address src' = src_address src
  /\ src_signature src' = src_signature src /\ src_unit src' = src_unit src
  /\ src_interval src' = src_interval src
  /\ src_persisted src' = src_persisted src.
Proof.
  destruct (polling_to_expired_shape host d h src) as (ret & [->|(_ & v & ->)]);
    simpl; auto 10.
Qed.

Lemma same_connection_refl w : same_connection w w.
Proof. unfold same_connection; auto 10. Qed.

Lemma same_connection_trans w1 w2 w3 :
  same_connection w1 w2 -> same_connection w2 w3 -> same_connection w1 w3.
Proof.
  unfold same_connection.
  intros (?&?&?&?&?&?&?) (?&?&?&?&?&?&?). repeat split; congruence.
Qed.

Lemma create_source_from_storage_frame reg row w :
  same_connection w (create_source_from_storage reg row w)
  /\ w_log (create_source_from_storage reg row w) = w_log w.
Proof.
  destruct (create_source_from_storage_cases reg row w)
    as [->|(uaddr & opath & _ & _ & ->)].
  - split; [apply same_connection_refl | reflexivity].
  - split; [unfold same_connection; simpl; auto 10 | reflexivity].
Qed.

Lemma fold_create_source_frame (f : source_row -> option string) rows : forall w,
  let w' := fold_left (fun w row => create_source_from_storage (f row) row w)
              rows w in
  same_connection w w' /\ w_log w' = w_log w.
Proof.
  induction rows as [|row rows IH]; intros w; simpl.
  - split; [apply same_connection_refl | reflexivity].
  - destruct (create_source_from_storage_frame (f row) row w) as (H1 & L1).
    destruct (IH (create_source_from_storage (f row) row w)) as (H2 & L2).
    split; [eapply same_connection_trans; eauto | congruence].
Qed.

(** *** The Slave that [slave_create] returns *)

Lemma slave_create_initial e units k sid nm u w0 :
  slave_create e units k sid nm u = Some w0 ->
  modbus (w_slave w0) = None /\ io (w_slave w0) = None
  /\ to_list (w_slave w0) = ∅
  /\ poll_to (w_slave w0) = Some (seconds 1)
  /\ slave_create_driver u = Some (drv (w_slave w0)).
Proof.
  unfold slave_create. intros H.
  destruct u as [url0|]; [|discriminate].
  destruct (slave_create_driver (Some url0)) as [driver|]; [|discriminate].
  destruct (ce_register e); [|discriminate]. simpl in H.
  injection H as <-. simpl.
  destruct (ce_stat e =? 0).
  - match goal with
    | |- context [fold_left ?g ?l ?w1] =>
        destruct (fold_create_source_frame (ce_source_reg e) l w1)
          as ((Hm & Hi & Ht & _ & _ & _ & Hd) & _)
    end.
    simpl in *. rewrite Hm, Hi, Ht, Hd. auto.
  - simpl. auto.
Qed.

(** *** The connection invariant *)

Lemma connected_inv_step host i w w' :
  connected_inv w -> step host i w = Some w' -> connected_inv w'.
Proof.
  intros [Hio Hto] Hstep. destruct i as [e| |k d|reg msg|msg]; simpl in Hstep.
  - (* the connection timer *)
    destruct (poll_to (w_slave w)); [|discriminate]. injection Hstep as <-.
    set (w1 := with_slave (set_poll_to None) w).
    assert (H1 : connected_inv w1) by (split; simpl; assumption).
    destruct (modbus (w_slave w1)) as [h|] eqn:Hm.
    { unfold enable_slave. now rewrite Hm. }
    destruct (attempt_cases e) as [Hf|(h & i & Hc & Hs & Hn & Hi)].
    + destruct (enable_slave_failure e w1 Hm Hf) as (Hm' & _ & Hi' & Ht' & _).
      destruct H1 as [H1 H2]. split.
      * split; intros _; auto. apply Hi'. now apply H1.
      * intros _. rewrite Ht'. apply H2. now apply H1.
    + destruct (enable_slave_success e w1 h i Hm Hc Hs Hn Hi) as (m & ->).
      split; simpl; [split|]; discriminate.
  - (* the connection is lost *)
    destruct (io (w_slave w)); [|discriminate]. injection Hstep as <-.
    rewrite disconnected_cb_eq. split; simpl; [split|]; reflexivity.
  - (* a polling timer *)
    destruct (to_list (w_slave w) !! k) as [t|] eqn:Hk; [|discriminate].
    destruct (to_armed t); [|discriminate].
    destruct (w_sources w !! to_bond t) as [src|]; [|discriminate].
    destruct (polling_to_expired host d (modbus (w_slave w)) src) as [[src' ret] ms].
    injection Hstep as <-. split; simpl; [assumption|].
    intros Hnone. apply Hto in Hnone. rewrite Hnone in Hk.
    rewrite lookup_empty in Hk. discriminate.
  - (* AddSource *)
    injection Hstep as <-.
    destruct (method_source_add_cases reg msg w)
      as [->|(dict & a & nm & type & unit & opath & _ & _ & _ & _ & _ & _ & _ & _ & _ & _ & _ & ->)];
      [split; assumption|]. simpl.
    destruct (world_with_source_eq opath nm type unit (arg_address a)
                (arg_interval a) w) as (m & -> & Hm & _).
    split; simpl; [assumption|]. intros Hnone. rewrite (Hm Hnone). auto.
  - (* RemoveSource *)
    injection Hstep as <-. unfold method_source_remove.
    destruct msg as [|opath|]; try (split; assumption).
    destruct (l_queue_remove_if _ _ _) as [[p|] rest]; split; simpl; assumption.
Qed.

Lemma connected_inv_run host inputs : forall w w',
  connected_inv w -> run host inputs w = Some w' -> connected_inv w'.
Proof.
  induction inputs as [|i inputs IH]; intros w w' Hinv Hrun; simpl in Hrun.
  - now injection Hrun as <-.
  - destruct (step host i w) as [w1|] eqn:Hs; [|discriminate].
    eapply IH; [eapply connected_inv_step|]; eauto.
Qed.

Lemma reachable_connected_inv host w : reachable host w -> connected_inv w.
Proof.
  intros (e & units & k & sid & nm & u & inputs & w0 & Hc & Hr).
  eapply connected_inv_run; [|exact Hr].
  destruct (slave_create_initial _ _ _ _ _ _ _ Hc) as (Hm & Hi & Ht & _).
  split; [split; auto | auto].
Qed.

Lemma filter_online_timeout_remove (l : list (string * polling_timeout)) :
  List.filter is_online_changed (map (fun kv => TimeoutRemove (fst kv)) l) = [].
Proof. induction l as [|kv l IH]; simpl; auto. Qed.

(** *** Sample worlds *)

Lemma sample_offline_created :
  slave_create first_creation [("SI", "56")] "a1" 1 (Some "plc")
    (Some "tcp://10.0.0.7:502") = Some sample_offline.
Proof. vm_compute. reflexivity. Qed.

Lemma sample_polling_run :
  run LittleEndian
    [PollToExpired attempt_ok;
     AddSource (Some "/slave_a1/source_0010") sample_request] sample_offline
  = Some sample_polling.
Proof. vm_compute. reflexivity. Qed.

(** *** Online, handle and timers (C1) *)

(** C1. In every state the Slave can be in between two callbacks, the
    Online property that [property_get_online] reports is true exactly
    when the [modbus] handle is non-null, and [to_list] holds timers only
    while the Slave is connected. [disconnected_cb] clears the handle and
    the timer set and announces the change of Online once, all in the one
    callback. *)
Theorem online_iff_handle_and_timers host w :
  reachable host w ->
  (property_get_online (w_slave w) = true <-> modbus (w_slave w) <> None)
  /\ (to_list (w_slave w) <> ∅ -> property_get_online (w_slave w) = true)
  /\ (let w' := disconnected_cb w in
      modbus (w_slave w') = None
      /\ to_list (w_slave w') = ∅
      /\ property_get_online (w_slave w') = false
      /\ exists evs, appended w w' evs
                     /\ length (List.filter is_online_changed evs) = 1%nat).
Proof.
  intros Hr. destruct (reachable_connected_inv host w Hr) as [Hio Hto].
  unfold property_get_online. split; [|split].
  - destruct (modbus (w_slave w)); split; congruence.
  - intros Hne. destruct (modbus (w_slave w)) eqn:Hm; [reflexivity|].
    exfalso. apply Hne, Hto, Hio, eq_refl.
  - rewrite disconnected_cb_eq. simpl. repeat split.
    eexists. split; [reflexivity|].
    rewrite !List.filter_app, filter_online_timeout_remove.
    destruct (io (w_slave w)); reflexivity.
Qed.

Lemma online_iff_handle_and_timers_witness :
  reachable LittleEndian sample_polling
  /\ (property_get_online (w_slave sample_polling) = true
      <-> modbus (w_slave sample_polling) <> None)
  /\ (to_list (w_slave sample_polling) <> ∅
      -> property_get_online (w_slave sample_polling) = true)
  /\ (let w' := disconnected_cb sample_polling in
      modbus (w_slave w') = None
      /\ to_list (w_slave w') = ∅
      /\ property_get_online (w_slave w') = false
      /\ exists evs, appended sample_polling w' evs
                     /\ length (List.filter is_online_changed evs) = 1%nat).
Proof.
  assert (Hr : reachable LittleEndian sample_polling).
  { exists first_creation, [("SI", "56")], "a1", 1, (Some "plc"),
      (Some "tcp://10.0.0.7:502"),
      [PollToExpired attempt_ok;
       AddSource (Some "/slave_a1/source_0010") sample_request],
      sample_offline.
    split; vm_compute; reflexivity. }
  split; [exact Hr|].
  exact (online_iff_handle_and_timers LittleEndian sample_polling Hr).
Defined.

(** *** Retry (C2) *)

(** Failed attempts in a row, as many as one likes: the loop never gets
    stuck, the Slave stays offline, the timer is armed for 5 seconds
    after the last of them, and the driver was asked once per attempt. *)
Lemma failed_attempts_run host es : forall w,
  modbus (w_slave w) = None -> is_Some (poll_to (w_slave w)) ->
  Forall attempt_fails es ->
  exists w',
    run host (map PollToExpired es) w = Some w'
    /\ modbus (w_slave w') = None
    /\ (es <> [] -> poll_to (w_slave w') = Some (seconds 5))
    /\ is_Some (poll_to (w_slave w'))
    /\ exists evs, appended w w' evs
                   /\ length (List.filter is_driver_create evs) = length es
                   /\ List.filter is_online_changed evs = [].
Proof.
  induction es as [|e es IH]; intros w Hm Hp Hf; simpl.
  - exists w. repeat split; auto; [congruence|].
    exists []. unfold appended. rewrite app_nil_r. auto.
  - inversion Hf as [|? ? He Hes]; subst.
    destruct Hp as [t Hp]. rewrite Hp.
    set (w1 := with_slave (set_poll_to None) w).
    destruct (enable_slave_failure e w1 Hm He)
      as (Hm' & Hp' & _ & _ & _ & _ & _ & evs1 & Hl1 & Hc1 & Ho1).
    destruct (IH (enable_slave e w1) Hm' (ltac:(rewrite Hp'; eauto)) Hes)
      as (w' & Hrun & Hm2 & Hp2 & Hs2 & evs2 & Hl2 & Hc2 & Ho2).
    exists w'. split; [exact Hrun|]. split; [exact Hm2|].
    split.
    { intros _. destruct es as [|e' es'].
      - simpl in Hrun. injection Hrun as <-. exact Hp'.
      - apply Hp2. discriminate. }
    split; [exact Hs2|].
    exists (evs1 ++ evs2). unfold appended in *.
    rewrite Hl2, Hl1. simpl. rewrite <- app_assoc.
    split; [reflexivity|].
    rewrite !List.filter_app, length_app, Hc1, Hc2, Ho1, Ho2. auto.
Qed.

(** C2. Whatever makes a connection attempt fail (no handle, unit id
    refused, connection refused, socket not watched), and after a
    connection that was up is lost, the connection timer is armed again
    for 5 seconds, the same delay every time; a run of failed attempts of
    any length leaves the timer armed, so that the next attempt follows. *)
Theorem retry_fixed_five_seconds host w es wd :
  modbus (w_slave w) = None -> is_Some (poll_to (w_slave w)) ->
  Forall attempt_fails es -> es <> [] ->
  is_Some (io (w_slave wd)) ->
  (exists w',
     run host (map PollToExpired es) w = Some w'
     /\ modbus (w_slave w') = None
     /\ poll_to (w_slave w') = Some (seconds 5)
     /\ exists evs, appended w w' evs
                    /\ length (List.filter is_driver_create evs) = length es)
  /\ (exists wd',
        step host IoDisconnected wd = Some wd'
        /\ modbus (w_slave wd') = None
        /\ poll_to (w_slave wd') = Some (seconds 5)).
Proof.
  intros Hm Hp Hf Hne [i Hi]. split.
  - destruct (failed_attempts_run host es w Hm Hp Hf)
      as (w' & Hrun & Hm' & Hp' & _ & evs & Hl & Hc & _).
    exists w'. repeat split; auto. exists evs. auto.
  - simpl. rewrite Hi. eexists. split; [reflexivity|].
    unfold destroy_handler. rewrite disconnected_cb_eq. split; reflexivity.
Qed.

Lemma retry_fixed_five_seconds_witness :
  let es := [attempt_no_handle; attempt_unit_refused; attempt_refused] in
  (exists w',
     run LittleEndian (map PollToExpired es) sample_offline = Some w'
     /\ modbus (w_slave w') = None
     /\ poll_to (w_slave w') = Some (seconds 5)
     /\ exists evs, appended sample_offline w' evs
                    /\ length (List.filter is_driver_create evs) = length es)
  /\ (exists wd',
        step LittleEndian IoDisconnected sample_polling = Some wd'
        /\ modbus (w_slave wd') = None
        /\ poll_to (w_slave wd') = Some (seconds 5)).
Proof.
  apply (retry_fixed_five_seconds LittleEndian sample_offline
           [attempt_no_handle; attempt_unit_refused; attempt_refused]
           sample_polling).
  - reflexivity.
  - exists (seconds 1). reflexivity.
  - repeat constructor; unfold attempt_fails; simpl; auto; lia.
  - discriminate.
  - exists 9%nat. reflexivity.
Defined.

(** *** Polling (C3) *)

(** The [ret] of the read inside [polling_to_expired]. *)
Lemma polling_to_expired_failed host d h src :
  snd (fst (polling_to_expired host d h src)) = -1 ->
  fst (fst (polling_to_expired host d h src)) = src.
Proof.
  destruct (polling_to_expired_shape host d h src)
    as (ret & [->|(Hne & v & ->)]); simpl; [reflexivity|].
  intros ->. contradiction.
Qed.

Lemma polling_to_expired_delay host d h src :
  snd (polling_to_expired host d h src)
  = source_get_interval (fst (fst (polling_to_expired host d h src))).
Proof.
  destruct (polling_to_expired_shape host d h src)
    as (ret & [->|(Hne & v & ->)]); reflexivity.
Qed.

(** C3. When an armed polling timer whose Source is alive expires, the
    callback runs; if the read returns -1 the Source is as it was before,
    last value included; and whatever the read returns, the timer is
    armed again with the polling interval of the Source, so that it will
    expire again. *)
Theorem polling_survives_failed_read host k d w t ms0 src :
  to_list (w_slave w) !! k = Some t -> to_armed t = Some ms0 ->
  w_sources w !! to_bond t = Some src ->
  exists w' src',
    step host (PollingExpired k d) w = Some w'
    /\ w_sources w' !! to_bond t = Some src'
    /\ (snd (fst (polling_to_expired host d (modbus (w_slave w)) src)) = -1 ->
        src' = src /\ w_sources w' = w_sources w)
    /\ to_list (w_slave w') !! k
       = Some {| to_armed := Some (source_get_interval src');
                 to_bond := to_bond t |}
    /\ source_get_interval src' = source_get_interval src
    /\ forall d', is_Some (step host (PollingExpired k d') w').
Proof.
  intros Hk Ha Hp. simpl. rewrite Hk, Ha, Hp.
  pose proof (polling_to_expired_failed host d (modbus (w_slave w)) src) as Hfail.
  pose proof (polling_to_expired_delay host d (modbus (w_slave w)) src) as Hdelay.
  pose proof (polling_to_expired_fields host d (modbus (w_slave w)) src) as Hfields.
  destruct (polling_to_expired host d (modbus (w_slave w)) src) as [[src' ret] ms].
  simpl in *. subst ms.
  eexists _, src'. split; [reflexivity|]. simpl.
  rewrite !lookup_insert_eq. repeat split.
  - now apply Hfail.
  - rewrite (Hfail ltac:(assumption)). now apply insert_id.
  - unfold source_get_interval. apply Hfields.
  - intros d'. simpl.
    destruct (polling_to_expired host d' (modbus (w_slave w)) src')
      as [[src'' ret'] ms'].
    eauto.
Qed.

Lemma polling_survives_failed_read_witness :
  exists w' src',
    step LittleEndian (PollingExpired "/slave_a1/source_0010" device_silent)
      sample_polling = Some w'
    /\ w_sources w' !! 1%nat = Some src'
    /\ (snd (fst (polling_to_expired LittleEndian device_silent
                    (modbus (w_slave sample_polling)) sample_source)) = -1 ->
        src' = sample_source /\ w_sources w' = w_sources sample_polling)
    /\ to_list (w_slave w') !! "/slave_a1/source_0010"
       = Some {| to_armed := Some (source_get_interval src');
                 to_bond := 1%nat |}
    /\ source_get_interval src' = source_get_interval sample_source
    /\ forall d', is_Some (step LittleEndian
                             (PollingExpired "/slave_a1/source_0010" d') w').
Proof.
  apply (polling_survives_failed_read LittleEndian "/slave_a1/source_0010"
           device_silent sample_polling
           {| to_armed := Some 2000; to_bond := 1%nat |} 2000 sample_source).
  - vm_compute. reflexivity.
  - reflexivity.
  - vm_compute. reflexivity.
Defined.

(** *** Byte order *)

Lemma byte_at_eq x i : 0 <= i -> byte_at x i = (x / 2 ^ (8 * i)) mod 256.
Proof.
  intros Hi. unfold byte_at.
  rewrite Z.shiftr_div_pow2 by lia.
  change 255 with (Z.ones 8). rewrite Z.land_ones by lia. reflexivity.
Qed.

Lemma byte_at_range x i : 0 <= i -> 0 <= byte_at x i < 256.
Proof.
  intros Hi. rewrite byte_at_eq by assumption. apply Z.mod_pos_bound. lia.
Qed.

(** Bits that do not overlap add up. *)
Lemma lor_shiftl_add b k r :
  0 <= k -> 0 <= r < 2 ^ k -> Z.lor (Z.shiftl b k) r = b * 2 ^ k + r.
Proof.
  intros Hk Hr. rewrite Z.shiftl_mul_pow2 by assumption.
  assert (Hland : Z.land (b * 2 ^ k) r = 0).
  { apply Z.bits_inj'. intros n Hn. rewrite Z.land_spec, Z.bits_0.
    destruct (Z.lt_ge_cases n k) as [Hlt|Hge].
    - now rewrite Z.mul_pow2_bits_low.
    - rewrite <- (Z.mod_small r (2 ^ k)) by assumption.
      rewrite Z.mod_pow2_bits_high by lia. apply andb_false_r. }
  now rewrite <- Z.lxor_lor, <- Z.add_nocarry_lxor.
Qed.

Lemma be_decode_snoc l b : be_decode (l ++ [b]) = 256 * be_decode l + b.
Proof. unfold be_decode. now rewrite fold_left_app. Qed.

(** Read back in big-endian order, the bytes of a big-endian host spell
    the integer itself. *)
Lemma be_decode_rev_le_bytes n : forall x,
  be_decode (rev (le_bytes n x)) = x mod 256 ^ Z.of_nat n.
Proof.
  induction n as [|n IH]; intros x.
  - simpl. now rewrite Z.mod_1_r.
  - change (le_bytes (S n) x) with (x mod 256 :: le_bytes n (x / 256)).
    change (rev (?a :: ?l)) with (rev l ++ [a]).
    rewrite be_decode_snoc, IH.
    rewrite Nat2Z.inj_succ, Z.pow_succ_r by lia.
    rewrite Z.rem_mul_r by lia. lia.
Qed.

Lemma bswap_32_spells x :
  0 <= x < 2 ^ 32 -> bswap_32 x = be_decode (le_bytes 4 x).
Proof.
  intros Hx. unfold bswap_32.
  pose proof (byte_at_range x 1 ltac:(lia)).
  pose proof (byte_at_range x 2 ltac:(lia)).
  pose proof (byte_at_range x 3 ltac:(lia)).
  rewrite (lor_shiftl_add (byte_at x 2) 8) by lia.
  rewrite (lor_shiftl_add (byte_at x 1) 16) by lia.
  rewrite (lor_shiftl_add (byte_at x 0) 24) by lia.
  rewrite !byte_at_eq by lia.
  unfold be_decode. simpl le_bytes. simpl fold_left.
  rewrite !Z.div_div by lia.
  change (2 ^ (8 * 0)) with 1. change (2 ^ (8 * 1)) with 256.
  change (2 ^ (8 * 2)) with 65536. change (2 ^ (8 * 3)) with 16777216.
  change (256 * 256) with 65536. change (65536 * 256) with 16777216.
  rewrite Z.div_1_r. lia.
Qed.

Lemma bswap_64_spells x :
  0 <= x < 2 ^ 64 -> bswap_64 x = be_decode (le_bytes 8 x).
Proof.
  intros Hx. unfold bswap_64.
  pose proof (byte_at_range x 1 ltac:(lia)).
  pose proof (byte_at_range x 2 ltac:(lia)).
  pose proof (byte_at_range x 3 ltac:(lia)).
  pose proof (byte_at_range x 4 ltac:(lia)).
  pose proof (byte_at_range x 5 ltac:(lia)).
  pose proof (byte_at_range x 6 ltac:(lia)).
  pose proof (byte_at_range x 7 ltac:(lia)).
  rewrite (lor_shiftl_add (byte_at x 6) 8) by lia.
  rewrite (lor_shiftl_add (byte_at x 5) 16) by lia.
  rewrite (lor_shiftl_add (byte_at x 4) 24) by lia.
  rewrite (lor_shiftl_add (byte_at x 3) 32) by lia.
  rewrite (lor_shiftl_add (byte_at x 2) 40) by lia.
  rewrite (lor_shiftl_add (byte_at x 1) 48) by lia.
  rewrite (lor_shiftl_add (byte_at x 0) 56) by lia.
  rewrite !byte_at_eq by lia.
  unfold be_decode. simpl le_bytes. simpl fold_left.
  rewrite !Z.div_div by lia.
  change (2 ^ (8 * 0)) with 1. change (2 ^ (8 * 1)) with 256.
  change (2 ^ (8 * 2)) with 65536. change (2 ^ (8 * 3)) with 16777216.
  change (2 ^ (8 * 4)) with 4294967296.
  change (2 ^ (8 * 5)) with 1099511627776.
  change (2 ^ (8 * 6)) with 281474976710656.
  change (2 ^ (8 * 7)) with 72057594037927936.
  change (256 * 256) with 65536. change (65536 * 256) with 16777216.
  change (16777216 * 256) with 4294967296.
  change (4294967296 * 256) with 1099511627776.
  change (1099511627776 * 256) with 281474976710656.
  change (281474976710656 * 256) with 72057594037927936.
  rewrite Z.div_1_r. lia.
Qed.

(** What [L_BE32_TO_CPU] and [L_BE64_TO_CPU] compute on either host: the
    integer that the bytes of [val], as they lie in memory, spell in
    network order. *)
Lemma L_BE32_TO_CPU_spells host val :
  0 <= val < 2 ^ 32 ->
  L_BE32_TO_CPU host val = be_decode (host_bytes host 4 val).
Proof.
  intros Hv. destruct host; unfold host_bytes, L_BE32_TO_CPU.
  - now apply bswap_32_spells.
  - rewrite be_decode_rev_le_bytes. now rewrite Z.mod_small.
Qed.

Lemma L_BE64_TO_CPU_spells host val :
  0 <= val < 2 ^ 64 ->
  L_BE64_TO_CPU host val = be_decode (host_bytes host 8 val).
Proof.
  intros Hv. destruct host; unfold host_bytes, L_BE64_TO_CPU.
  - now apply bswap_64_spells.
  - rewrite be_decode_rev_le_bytes. now rewrite Z.mod_small.
Qed.

(** *** The value codec (C7) *)

Ltac codec_case Hc r :=
  unfold polling_to_expired; rewrite Hc; simpl;
  destruct r as [? ?]; simpl; intros ?;
  match goal with
  | |- context [?x =? -1] => destruct (Z.eqb_spec x (-1)); [contradiction|]
  end; simpl.

(** C7. [polling_to_expired] dispatches on the first character of the
    signature. A boolean, a byte and a 16-bit value are stored as the
    driver returned them. A 32-bit and a 64-bit value are stored as the
    integer that the bytes the driver left in memory spell in big-endian
    order, whatever the byte order of the host. Any other signature reads
    nothing and stores nothing. *)
Theorem value_codec_by_signature host d h src :
  let a := source_get_address src in
  let c := first_char (source_get_signature src) in
  let src' := fst (fst (polling_to_expired host d h src)) in
  0 <= snd (read_u32 d h a) < 2 ^ 32 ->
  0 <= snd (read_u64 d h a) < 2 ^ 64 ->
  (c = "b"%char -> fst (read_bool d h a) <> -1 ->
   src' = source_set_value_bool src (snd (read_bool d h a)))
  /\ (c = "y"%char -> fst (read_byte d h a) <> -1 ->
      src' = source_set_value_byte src (snd (read_byte d h a)))
  /\ (c = "q"%char -> fst (read_u16 d h a) <> -1 ->
      src' = source_set_value_u16 src (snd (read_u16 d h a)))
  /\ (c = "u"%char -> fst (read_u32 d h a) <> -1 ->
      src' = source_set_value_u32 src
               (be_decode (host_bytes host 4 (snd (read_u32 d h a)))))
  /\ (c = "t"%char -> fst (read_u64 d h a) <> -1 ->
      src' = source_set_value_u64 src
               (be_decode (host_bytes host 8 (snd (read_u64 d h a)))))
  /\ (~ In c basic_types -> src' = src).
Proof.
  intros a c src' H32 H64. subst a c src'.
  repeat split; intros Hc.
  - codec_case Hc (read_bool d h (source_get_address src)). reflexivity.
  - codec_case Hc (read_byte d h (source_get_address src)). reflexivity.
  - codec_case Hc (read_u16 d h (source_get_address src)). reflexivity.
  - revert H32. codec_case Hc (read_u32 d h (source_get_address src)).
    now rewrite L_BE32_TO_CPU_spells.
  - revert H64. codec_case Hc (read_u64 d h (source_get_address src)).
    now rewrite L_BE64_TO_CPU_spells.
  - unfold polling_to_expired.
    repeat match goal with
           | |- context [Ascii.eqb ?x ?y] =>
               destruct (Ascii.eqb_spec x y) as [E|_];
               [exfalso; apply Hc; rewrite E; simpl; tauto|]
           end.
    reflexivity.
Qed.

(** On a little-endian host the conversion does swap: the bytes
    [78 56 34 12] that the device sent for a 32-bit register are stored as
    0x78563412, while a 16-bit register is stored as it was read. *)
Lemma value_codec_by_signature_witness :
  let d := device_answering in
  let h := Some 7%nat in
  let src := sample_source_of "u" in
  let a := source_get_address src in
  let c := first_char (source_get_signature src) in
  let src' := fst (fst (polling_to_expired LittleEndian d h src)) in
  src_value src' = Some (ValU32 2018915346)
  /\ (c = "b"%char -> fst (read_bool d h a) <> -1 ->
      src' = source_set_value_bool src (snd (read_bool d h a)))
  /\ (c = "y"%char -> fst (read_byte d h a) <> -1 ->
      src' = source_set_value_byte src (snd (read_byte d h a)))
  /\ (c = "q"%char -> fst (read_u16 d h a) <> -1 ->
      src' = source_set_value_u16 src (snd (read_u16 d h a)))
  /\ (c = "u"%char -> fst (read_u32 d h a) <> -1 ->
      src' = source_set_value_u32 src
               (be_decode (host_bytes LittleEndian 4 (snd (read_u32 d h a)))))
  /\ (c = "t"%char -> fst (read_u64 d h a) <> -1 ->
      src' = source_set_value_u64 src
               (be_decode (host_bytes LittleEndian 8 (snd (read_u64 d h a)))))
  /\ (~ In c basic_types -> src' = src).
Proof.
  split; [vm_compute; reflexivity|].
  apply (value_codec_by_signature LittleEndian device_answering (Some 7%nat)
           (sample_source_of "u")); simpl; lia.
Defined.

Example value_codec_u16_unconverted :
  src_value (fst (fst (polling_to_expired LittleEndian device_answering
                         (Some 7%nat) (sample_source_of "q"))))
  = Some (ValU16 4660).
Proof. reflexivity. Qed.

(** *** The dictionary of AddSource *)

Lemma add_args_entry_known k value a a' :
  add_args_entry k value a = Some a' -> In k known_keys.
Proof.
  unfold add_args_entry, known_keys.
  destruct (Z.eqb_spec (strcmp k "Name") 0) as [E|_];
    [apply strcmp_eq in E; subst; simpl; auto|].
  destruct (Z.eqb_spec (strcmp k "Type") 0) as [E|_];
    [apply strcmp_eq in E; subst; simpl; auto|].
  destruct (Z.eqb_spec (strcmp k "Unit") 0) as [E|_];
    [apply strcmp_eq in E; subst; simpl; auto|].
  destruct (Z.eqb_spec (strcmp k "Address") 0) as [E|_];
    [apply strcmp_eq in E; subst; simpl; auto 6|].
  destruct (Z.eqb_spec (strcmp k "PollingInterval") 0) as [E|_];
    [apply strcmp_eq in E; subst; simpl; auto 6|].
  discriminate.
Qed.

Lemma args_from_weaken done k value a :
  args_from done a -> args_from (done ++ [(k, value)]) a.
Proof.
  intros (Hn & Ht & Hu & Ha & Hi).
  repeat split; intros; try (apply in_or_app; left; auto).
  - destruct Ha as [|(n & ? & ?)]; [now left|right].
    exists n. split; [apply in_or_app; now left|assumption].
  - destruct Hi as [|(n & ? & ?)]; [now left|right].
    exists n. split; [apply in_or_app; now left|assumption].
Qed.

Lemma in_last {A} (x : A) l : In x (l ++ [x]).
Proof. apply in_or_app. right. now left. Qed.

Lemma add_args_entry_from done k value a a' :
  add_args_entry k value a = Some a' ->
  args_from done a -> args_from (done ++ [(k, value)]) a'.
Proof.
  intros He Hfrom.
  pose proof (args_from_weaken done k value a Hfrom)
    as (Hn & Ht & Hu & Ha & Hi).
  unfold add_args_entry in He.
  destruct (Z.eqb_spec (strcmp k "Name") 0) as [E|_].
  { apply strcmp_eq in E; subst k. destruct value; try discriminate.
    injection He as <-. repeat split; simpl; auto.
    intros n [= <-]. apply in_last. }
  destruct (Z.eqb_spec (strcmp k "Type") 0) as [E|_].
  { apply strcmp_eq in E; subst k. destruct value; try discriminate.
    injection He as <-. repeat split; simpl; auto.
    intros n [= <-]. apply in_last. }
  destruct (Z.eqb_spec (strcmp k "Unit") 0) as [E|_].
  { apply strcmp_eq in E; subst k. destruct value; try discriminate.
    injection He as <-. repeat split; simpl; auto.
    intros n [= <-]. apply in_last. }
  destruct (Z.eqb_spec (strcmp k "Address") 0) as [E|_].
  { apply strcmp_eq in E; subst k. destruct value; try discriminate.
    injection He as <-. repeat split; simpl; auto.
    right. eexists. split; [apply in_last | reflexivity]. }
  destruct (Z.eqb_spec (strcmp k "PollingInterval") 0) as [E|_].
  { apply strcmp_eq in E; subst k. destruct value; try discriminate.
    injection He as <-. repeat split; simpl; auto.
    right. eexists. split; [apply in_last | reflexivity]. }
  discriminate.
Qed.

Lemma add_args_loop_from rest : forall done a a',
  add_args_loop rest a = Some a' ->
  args_from done a -> args_from (done ++ rest) a'.
Proof.
  induction rest as [|[k value] rest IH]; intros done a a' Hl Hfrom; simpl in Hl.
  - injection Hl as <-. now rewrite app_nil_r.
  - destruct (add_args_entry k value a) as [a1|] eqn:He; [|discriminate].
    replace (done ++ (k, value) :: rest) with ((done ++ [(k, value)]) ++ rest)
      by (now rewrite <- app_assoc).
    eapply IH; [exact Hl|]. eapply add_args_entry_from; eauto.
Qed.

Lemma add_args_init_from : args_from [] add_args_init.
Proof.
  unfold args_from, add_args_init; simpl.
  repeat split; try discriminate; now left.
Qed.

Lemma add_args_loop_init_from dict a :
  add_args_loop dict add_args_init = Some a -> args_from dict a.
Proof.
  intros H. apply (add_args_loop_from dict [] _ _ H add_args_init_from).
Qed.

(** A key the method does not know stops the loop. *)
Lemma add_args_loop_unknown_key dict : forall a k value,
  In (k, value) dict -> ~ In k known_keys -> add_args_loop dict a = None.
Proof.
  induction dict as [|[k0 v0] dict IH]; intros a k value Hin Hk; [destruct Hin|].
  simpl. destruct (add_args_entry k0 v0 a) as [a1|] eqn:He; [|reflexivity].
  destruct Hin as [[= -> ->]|Hin].
  - exfalso. apply Hk. eapply add_args_entry_known; eauto.
  - eapply IH; eauto.
Qed.

(** Without a PollingInterval entry the interval keeps its initial value. *)
Lemma add_args_loop_interval dict : forall a a',
  (forall value, ~ In ("PollingInterval", value) dict) ->
  add_args_loop dict a = Some a' -> arg_interval a' = arg_interval a.
Proof.
  induction dict as [|[k v] dict IH]; intros a a' Hno Hl; simpl in Hl.
  - now injection Hl as <-.
  - destruct (add_args_entry k v a) as [a1|] eqn:He; [|discriminate].
    rewrite (IH a1 a'); [| intros value Hin; apply (Hno value); now right | exact Hl].
    unfold add_args_entry in He.
    repeat match type of He with
           | (if ?b then _ else _) = _ => destruct b eqn:?
           | match ?o with Some _ => _ | None => _ end = _ => destruct o
           end; try discriminate; try (injection He as <-; reflexivity).
    exfalso. apply (Hno v). left. f_equal.
    match goal with
    | H : (strcmp k "PollingInterval" =? 0) = true |- _ =>
        apply strcmp_eqb in H; now rewrite H
    end.
Qed.

(** A signature of length 1 that the scan accepts is one of the five
    characters. *)
Lemma sscanf_byqut_one type :
  strlen type = 1 -> fst (sscanf_byqut type) = 1 ->
  exists c, type = String c EmptyString /\ In c basic_types.
Proof.
  unfold strlen. intros Hlen Hscan.
  destruct type as [|c [|c' r]]; simpl in Hlen; try lia.
  exists c. split; [reflexivity|].
  unfold sscanf_byqut in Hscan. simpl in Hscan. unfold basic_types.
  destruct (Ascii.eqb_spec c "b"); [subst; simpl; auto|].
  destruct (Ascii.eqb_spec c "y"); [subst; simpl; auto|].
  destruct (Ascii.eqb_spec c "q"); [subst; simpl; auto|].
  destruct (Ascii.eqb_spec c "u"); [subst; simpl; auto 6|].
  destruct (Ascii.eqb_spec c "t"); [subst; simpl; auto 6|].
  simpl in Hscan. discriminate.
Qed.

(** *** AddSource (C5) *)

Lemma source_new_address_mod opath nm type unit addr ival st store :
  source_new opath nm type unit (addr mod 2 ^ 16) ival st store
  = source_new opath nm type unit addr ival st store.
Proof. unfold source_new. now rewrite Z.mod_mod by lia. Qed.

(** In every state the Slave can be in between two callbacks,
    AddSource either answers with the invalid-arguments error and leaves
    the world as it was, or the request is a dictionary that gave a name,
    an address other than 0xFFFF, a type of exactly one character among
    b, y, q, u, t, and a unit whose upper-case hex string is in the
    catalog under SI. In the second case the new Source is put on
    [source_list] (at its head) and, when the Slave is Online, [to_list]
    holds an armed timer under the path of the Source, set to its polling
    interval; that timer is bound to the new Source unless a timer of
    that path was there already. *)
Lemma add_source_validation host reg msg w :
  reachable host w ->
  method_source_add reg msg w = (dbus_error_invalid_args, w)
  \/ exists dict nm c unit addr ival opath,
       msg = MsgDict dict
       /\ In ("Name", VarString nm) dict
       /\ In ("Address", VarUint16 addr) dict /\ addr mod 2 ^ 16 <> 65535
       /\ In ("Type", VarString (String c EmptyString)) dict
       /\ In c basic_types
       /\ In ("Unit", VarString unit) dict
       /\ storage_has_unit (w_units w) "SI" (l_util_hexstring_upper unit) = true
       /\ let src := source_new opath nm (String c EmptyString) unit addr ival
                       (src_storage (w_slave w)) true in
          let w' := snd (method_source_add reg msg w) in
          fst (method_source_add reg msg w) = method_return_path opath
          /\ source_list (w_slave w') = w_next w :: source_list (w_slave w)
          /\ w_sources w' !! w_next w = Some src
          /\ (property_get_online (w_slave w) = true ->
              exists t,
                to_list (w_slave w') !! source_get_path src = Some t
                /\ to_armed t = Some (source_get_interval src)
                /\ (to_list (w_slave w) !! source_get_path src = None ->
                    to_bond t = w_next w)).
Proof.
  intros Hr. destruct (reachable_connected_inv host w Hr) as [Hio _].
  destruct (method_source_add_cases reg msg w)
    as [H|(dict & a & nm & type & unit & opath & -> & Hloop & Hn & Ht & Hu
           & Ha & Hlen & Hcat & Hsig & _ & _ & Heq)]; [now left|right].
  destruct (add_args_loop_init_from dict a Hloop) as (Fn & Ft & Fu & Fa & _).
  destruct (sscanf_byqut_one type Hlen Hsig) as (c & -> & Hc).
  destruct Fa as [Fa|(addr & Hin & Haddr)]; [contradiction|].
  exists dict, nm, c, unit, addr, (arg_interval a), opath.
  repeat (split; [solve [auto | congruence]|]).
  rewrite Heq. simpl.
  destruct (world_with_source_eq opath nm (String c EmptyString) unit
              (arg_address a) (arg_interval a) w) as (m & -> & _ & Hon).
  simpl. rewrite lookup_insert_eq, Haddr, source_new_address_mod.
  repeat split.
  unfold property_get_online. intros Honline.
  apply Hon. destruct (io (w_slave w)) eqn:Ei; [eauto|].
  destruct Hio as [Hio _]. rewrite (Hio eq_refl) in Honline. discriminate.
Qed.

(** C5, at the input where the code departs from it. An Online Slave
    accepts a request, its Source is removed again, and the same request
    is made once more. RemoveSource has left the timer of the removed
    Source in [to_list], so [polling_start] finds a timer under the path
    and only sets its interval again: the request is accepted and the new
    Source is queued, but [to_list] holds that one timer, whose bond
    still leads to the freed Source. The new Source has no timer, and the
    expiry of the timer that is there has no defined turn. On the same
    Slave before the first request, the same call starts a timer bound to
    the Source it creates. *)
Theorem add_source_after_remove_no_timer :
  let p := "/slave_a1/source_0010" in
  let stale := {| to_armed := Some 2000; to_bond := 1%nat |} in
  exists w,
    run LittleEndian
      [PollToExpired attempt_ok; AddSource (Some p) sample_request;
       RemoveSource (MsgObjectPath p)] sample_offline = Some w
    /\ reachable LittleEndian w
    /\ property_get_online (w_slave w) = true
    /\ source_list (w_slave w) = []
    /\ w_sources w = ∅
    /\ w_next w = 2%nat
    /\ to_list (w_slave w) = {[ p := stale ]}
    /\ (let r := method_source_add (Some p) sample_request w in
        fst r = method_return_path p
        /\ source_list (w_slave (snd r)) = [2%nat]
        /\ w_sources (snd r)
           = {[ 2%nat := source_new p "Temp1" "q" "V" 16 2000 3 true ]}
        /\ to_list (w_slave (snd r)) = {[ p := stale ]}
        /\ w_sources (snd r) !! to_bond stale = None
        /\ forall d, step LittleEndian (PollingExpired p d) (snd r) = None)
    /\ (let r := method_source_add (Some p) sample_request sample_connected in
        fst r = method_return_path p
        /\ source_list (w_slave (snd r)) = [w_next sample_connected]
        /\ to_list (w_slave (snd r))
           = {[ p := {| to_armed := Some 2000;
                        to_bond := w_next sample_connected |} ]}).
Proof.
  intros p stale. eexists.
  split; [vm_compute; reflexivity|].
  split.
  { exists first_creation, [("SI", "56")], "a1", 1, (Some "plc"),
      (Some "tcp://10.0.0.7:502"),
      [PollToExpired attempt_ok; AddSource (Some p) sample_request;
       RemoveSource (MsgObjectPath p)], sample_offline.
    split; vm_compute; reflexivity. }
  repeat split; try (vm_compute; reflexivity).
Qed.

(** *** AddSource: the default interval and unknown keys (C10) *)

(** C10. A request without a PollingInterval entry that AddSource accepts
    creates its Source with an interval of 1000 milliseconds. And a
    dictionary with a key other than Name, Type, Unit, Address and
    PollingInterval is answered with the invalid-arguments error and the
    world stays as it was, so no Source is allocated, queued or stored:
    this for every requester, catalog and state, whatever the other
    entries are and wherever the key stands in the dictionary. *)
Theorem add_source_default_interval reg w :
  (forall dict opath,
     (forall v, ~ In ("PollingInterval", v) dict) ->
     fst (method_source_add reg (MsgDict dict) w) = method_return_path opath ->
     let w' := snd (method_source_add reg (MsgDict dict) w) in
     exists src,
       source_list (w_slave w') = w_next w :: source_list (w_slave w)
       /\ w_sources w' !! w_next w = Some src
       /\ source_get_interval src = 1000)
  /\ (forall dict k value,
        In (k, value) dict -> ~ In k known_keys ->
        method_source_add reg (MsgDict dict) w = (dbus_error_invalid_args, w)).
Proof.
  split.
  - intros dict opath Hno Hok.
    destruct (method_source_add_cases reg (MsgDict dict) w)
      as [H|(dict0 & a & nm & type & unit & opath0 & [= <-] & Hloop & _ & _ & _
             & _ & _ & _ & _ & _ & _ & Heq)].
    { rewrite H in Hok. discriminate. }
    rewrite Heq. simpl.
    destruct (world_with_source_eq opath0 nm type unit (arg_address a)
                (arg_interval a) w) as (m & -> & _).
    simpl. rewrite lookup_insert_eq. eexists. repeat split.
    simpl. apply (add_args_loop_interval dict _ _ Hno Hloop).
  - intros dict k value Hin Hk. unfold method_source_add.
    now rewrite (add_args_loop_unknown_key dict add_args_init k value Hin Hk).
Qed.

(** The request of [sample_dict_no_interval] on the connected Slave, and
    a request with the key [Scale] on a Slave that no requester can
    register a Source for and whose catalog is empty. *)
Lemma add_source_default_interval_witness :
  (let w' := snd (method_source_add (Some "/slave_a1/source_0010")
                    (MsgDict sample_dict_no_interval) sample_connected) in
   exists src,
     source_list (w_slave w')
     = w_next sample_connected :: source_list (w_slave sample_connected)
     /\ w_sources w' !! w_next sample_connected = Some src
     /\ source_get_interval src = 1000)
  /\ (let w := {| w_slave := sample_slave; w_sources := ∅; w_next := 1%nat;
                  w_units := []; w_log := [] |} in
      method_source_add None (MsgDict sample_dict_unknown_key) w
      = (dbus_error_invalid_args, w)).
Proof.
  split.
  - apply (proj1 (add_source_default_interval (Some "/slave_a1/source_0010")
                    sample_connected)
             sample_dict_no_interval "/slave_a1/source_0010").
    + intros v Hin. unfold sample_dict_no_interval in Hin. simpl in Hin.
      repeat (destruct Hin as [Hin|Hin]; [discriminate|]). exact Hin.
    + vm_compute. reflexivity.
  - apply (proj2 (add_source_default_interval None
                    {| w_slave := sample_slave; w_sources := ∅;
                       w_next := 1%nat; w_units := []; w_log := [] |})
             sample_dict_unknown_key "Scale" (VarUint16 10)).
    + unfold sample_dict_unknown_key. simpl. auto 6.
    + unfold known_keys. simpl.
      intros Hin. repeat (destruct Hin as [Hin|Hin]; [discriminate|]). exact Hin.
Defined.

(** *** The address of a stored row, written and read back *)

Lemma hex_lower_digit d : 0 <= d < 16 -> lower_hex_digit (hex_lower d) d.
Proof.
  intros Hd.
  assert (H : d = 0 \/ d = 1 \/ d = 2 \/ d = 3 \/ d = 4 \/ d = 5 \/ d = 6
              \/ d = 7 \/ d = 8 \/ d = 9 \/ d = 10 \/ d = 11 \/ d = 12
              \/ d = 13 \/ d = 14 \/ d = 15) by lia.
  repeat (destruct H as [->|H]; [vm_compute; auto 10|]).
  subst d. vm_compute. auto 10.
Qed.

(** Four digits, read by [%04x]. *)
Lemma scan_percent_x_four c3 c2 c1 c0 d3 d2 d1 d0 :
  lower_hex_digit c3 d3 -> lower_hex_digit c2 d2 ->
  lower_hex_digit c1 d1 -> lower_hex_digit c0 d0 ->
  scan_percent_x 4 (String c3 (String c2 (String c1 (String c0 EmptyString))))
  = inr ((16 * (16 * (16 * (16 * 0 + d3) + d2) + d1) + d0) mod 2 ^ 32).
Proof.
  intros (V3 & S3 & M3 & P3 & _) (V2 & _ & _ & _ & X2 & X2')
         (V1 & _) (V0 & _).
  unfold scan_percent_x. simpl skip_space. rewrite S3, M3, P3, X2, X2'.
  rewrite andb_false_r. simpl. rewrite V3, V2, V1, V0. reflexivity.
Qed.

(** [printf("0x%04x")] of a 16-bit number: the prefix and four digits. *)
Lemma printf_0x04x_digits n :
  0 <= n < 65536 ->
  printf_0x04x n
  = String "0" (String "x"
      (String (hex_lower (n / 16 / 16 / 16 mod 16))
         (String (hex_lower (n / 16 / 16 mod 16))
            (String (hex_lower (n / 16 mod 16))
               (String (hex_lower (n mod 16)) EmptyString))))).
Proof.
  intros Hn. unfold printf_0x04x, to_hex.
  destruct (Z.eqb_spec (n / 16) 0) as [E1|_].
  { rewrite E1. reflexivity. }
  destruct (Z.eqb_spec (n / 16 / 16) 0) as [E2|_].
  { rewrite E2. reflexivity. }
  destruct (Z.eqb_spec (n / 16 / 16 / 16) 0) as [E3|_].
  { rewrite E3. reflexivity. }
  destruct (Z.eqb_spec (n / 16 / 16 / 16 / 16) 0) as [E4|N4].
  { reflexivity. }
  exfalso. apply N4. rewrite !Z.div_div by lia. apply Z.div_small. lia.
Qed.

(** Reading back what was written gives the address. *)
Lemma sscanf_printf_0x04x n :
  0 <= n < 65536 -> sscanf_0x04x (printf_0x04x n) = (1, Some n).
Proof.
  intros Hn. rewrite printf_0x04x_digits by assumption.
  unfold sscanf_0x04x. simpl negb.
  rewrite (scan_percent_x_four _ _ _ _
             (n / 16 / 16 / 16 mod 16) (n / 16 / 16 mod 16)
             (n / 16 mod 16) (n mod 16));
    try (apply hex_lower_digit; apply Z.mod_pos_bound; lia).
  do 2 f_equal.
  rewrite !Z.div_div by lia. simpl Z.mul.
  rewrite Z.mod_small.
  - pose proof (Z.div_small n 65536 Hn).
    Z.div_mod_to_equations. lia.
  - Z.div_mod_to_equations. lia.
Qed.

(** *** Replay from the store (C9) *)

Lemma replay_row src opath w :
  0 <= src_address src < 65536 ->
  create_source_from_storage (Some opath) (source_row_of src) w
  = {| w_slave := set_source_list (w_next w :: source_list (w_slave w))
                    (w_slave w);
       w_sources :=
         <[w_next w := source_new opath (src_name src) (src_signature src)
                         (src_unit src) (src_address src) (src_interval src)
                         (src_storage (w_slave w)) false]> (w_sources w);
       w_next := S (w_next w); w_units := w_units w; w_log := w_log w |}.
Proof.
  intros Ha. unfold create_source_from_storage.
  change (row_address (source_row_of src)) with (printf_0x04x (src_address src)).
  rewrite sscanf_printf_0x04x by assumption. reflexivity.
Qed.

Lemma replayed_source_new w p s opath st :
  0 <= src_address s < 65536 ->
  w_sources w !! p
  = Some (source_new opath (src_name s) (src_signature s) (src_unit s)
            (src_address s) (src_interval s) st false) ->
  replayed w p s.
Proof.
  intros Ha Hp. eexists. split; [exact Hp|].
  unfold same_definition, source_new; simpl.
  rewrite Z.mod_small by (change (2 ^ 16) with 65536; lia). auto.
Qed.

Lemma fold_replay (f : source_row -> option string) srcs : forall w,
  Forall (fun s => 0 <= src_address s < 65536
                   /\ is_Some (f (source_row_of s))) srcs ->
  let w' := fold_left (fun w row => create_source_from_storage (f row) row w)
              (map source_row_of srcs) w in
  exists ps,
    source_list (w_slave w') = rev ps ++ source_list (w_slave w)
    /\ Forall2 (replayed w') ps srcs
    /\ (forall p, (p < w_next w)%nat -> w_sources w' !! p = w_sources w !! p)
    /\ (w_next w <= w_next w')%nat.
Proof.
  induction srcs as [|s srcs IH]; intros w Hok; simpl.
  - exists []. repeat split; auto.
  - inversion Hok as [|? ? (Ha & opath & Hreg) Hrest]; subst.
    rewrite Hreg, (replay_row s opath w Ha).
    match goal with
    | |- context [fold_left _ _ ?w1] => destruct (IH w1 Hrest) as (ps & Hl & Hf & Hold & Hn)
    end.
    simpl in Hl, Hold, Hn.
    exists (w_next w :: ps). split; [|split; [|split]].
    + rewrite Hl. simpl. now rewrite <- app_assoc.
    + constructor; [|exact Hf].
      eapply replayed_source_new; [exact Ha|].
      rewrite Hold by lia. apply lookup_insert_eq.
    + intros p Hp. rewrite Hold by lia. apply lookup_insert_ne. lia.
    + lia.
Qed.

(** C9. A Slave is created over a table that holds the rows written for
    Sources when they were created (address as [0x] and four hex digits),
    and the bus registers each of them again. Then the Slave has, in the
    order of the table, one Source per row with the address, type
    signature, unit and interval of the Source that was stored; each is
    created with its persisted flag false and nothing is written to the
    Source table during the replay. *)
Theorem stored_sources_round_trip e units k sid nm u srcs w :
  ce_stat e = 0 -> ce_rows e = map source_row_of srcs ->
  Forall (fun s => 0 <= src_address s < 65536
                   /\ is_Some (ce_source_reg e (source_row_of s))) srcs ->
  slave_create e units k sid nm u = Some w ->
  Forall2 (replayed w) (rev (source_list (w_slave w))) srcs
  /\ forall st row, ~ In (StorageWriteSource st row) (w_log w).
Proof.
  intros Hstat Hrows Hok Hc. unfold slave_create in Hc.
  destruct u as [url0|]; [|discriminate].
  destruct (slave_create_driver (Some url0)) as [driver|]; [|discriminate].
  destruct (ce_register e); [|discriminate]. simpl in Hc.
  rewrite Hstat, Hrows in Hc. simpl in Hc. injection Hc as <-.
  match goal with
  | |- context [fold_left _ _ ?w1] =>
      destruct (fold_replay (ce_source_reg e) srcs w1 Hok) as (ps & Hl & Hf & _);
      destruct (fold_create_source_frame (ce_source_reg e)
                  (map source_row_of srcs) w1) as (_ & Hlog)
  end.
  simpl in *. rewrite Hl, app_nil_r, rev_involutive, Hlog.
  split; [|intros st row []].
  exact Hf.
Qed.

Lemma stored_sources_round_trip_witness :
  exists w,
    slave_create second_creation [("SI", "56")] "a1" 1 (Some "plc")
      (Some "tcp://10.0.0.7:502") = Some w
    /\ Forall2 (replayed w) (rev (source_list (w_slave w))) sample_stored
    /\ forall st row, ~ In (StorageWriteSource st row) (w_log w).
Proof.
  eexists. split; [vm_compute; reflexivity|].
  eapply (stored_sources_round_trip second_creation [("SI", "56")] "a1" 1
            (Some "plc") (Some "tcp://10.0.0.7:502") sample_stored).
  - reflexivity.
  - reflexivity.
  - repeat constructor; simpl; try lia; eauto.
  - vm_compute. reflexivity.
Defined.

(** *** The queue of Sources *)

Lemma wf_sources_push l h n src :
  wf_sources l h n -> wf_sources (n :: l) (<[n := src]> h) (S n).
Proof.
  intros (Hlive & Hlt & Hnd). split; [|split].
  - intros p Hp. apply elem_of_cons in Hp as [->|Hp].
    + rewrite lookup_insert_eq. eauto.
    + destruct (decide (n = p)) as [->|Hne].
      * rewrite lookup_insert_eq. eauto.
      * rewrite lookup_insert_ne by assumption. auto.
  - intros p Hp. destruct (decide (n = p)) as [->|Hne]; [lia|].
    rewrite lookup_insert_ne in Hp by assumption. apply Hlt in Hp. lia.
  - apply NoDup_cons. split; [|assumption].
    intros Hin. apply Hlive, Hlt in Hin. lia.
Qed.

Lemma wf_sources_update l h n p src :
  wf_sources l h n -> is_Some (h !! p) -> wf_sources l (<[p := src]> h) n.
Proof.
  intros (Hlive & Hlt & Hnd) Hp. split; [|split]; [| |assumption].
  - intros q Hq. destruct (decide (p = q)) as [->|Hne].
    + rewrite lookup_insert_eq. eauto.
    + rewrite lookup_insert_ne by assumption. auto.
  - intros q Hq. destruct (decide (p = q)) as [->|Hne]; [auto|].
    rewrite lookup_insert_ne in Hq by assumption. auto.
Qed.

Lemma wf_sources_remove l1 p l2 h n :
  wf_sources (l1 ++ p :: l2) h n -> wf_sources (l1 ++ l2) (delete p h) n.
Proof.
  intros (Hlive & Hlt & Hnd).
  apply NoDup_app in Hnd as (Hn1 & Hdisj & Hn2).
  apply NoDup_cons in Hn2 as (Hp2 & Hn2).
  split; [|split].
  - intros q Hq. rewrite lookup_delete_ne.
    + apply Hlive. rewrite elem_of_app in *. rewrite elem_of_cons. tauto.
    + intros <-. apply elem_of_app in Hq as [Hq|Hq]; [|contradiction].
      apply (Hdisj p Hq). now left.
  - intros q Hq. apply Hlt. destruct (decide (p = q)) as [->|Hne].
    + rewrite lookup_delete_eq in Hq. destruct Hq; discriminate.
    + now rewrite lookup_delete_ne in Hq.
  - apply NoDup_app. repeat split; auto.
    intros x Hx Hx2. apply (Hdisj x Hx). now right.
Qed.









Lemma l_queue_remove_if_split h cmp l p rest :
  l_queue_remove_if h cmp l = (Some p, rest) ->
  exists l1 l2, l = l1 ++ p :: l2 /\ rest = l1 ++ l2.
Proof.
  revert rest. induction l as [|q l IH]; intros rest; simpl; [discriminate|].
  destruct (l_queue_remove_if h cmp l) as [r rest'] eqn:Hrec.
  assert (Hkeep : (r, q :: rest') = (Some p, rest) ->
                  exists l1 l2, q :: l = l1 ++ p :: l2 /\ rest = l1 ++ l2).
  { intros [= -> <-]. destruct (IH rest' eq_refl) as (l1 & l2 & -> & ->).
    exists (q :: l1), l2. auto. }
  destruct (h !! q) as [src|]; [|exact Hkeep].
  destruct (cmp src); [|exact Hkeep].
  intros [= -> <-]. exists [], l. auto.
Qed.

(** *** Addresses stay distinct *)









(** *** Duplicate addresses (C6) *)







(** *** One notification per change of Online *)

(** Every callback announces a change of Online once if Online has
    changed, and not at all if it has not. *)
Lemma online_change_notified_once host i w w' :
  connected_inv w -> step host i w = Some w' ->
  exists evs,
    appended w w' evs
    /\ length (List.filter is_online_changed evs)
       = if Bool.eqb (property_get_online (w_slave w))
                     (property_get_online (w_slave w'))
         then 0%nat else 1%nat.
Proof.
  intros [Hio Hto] Hstep. unfold appended, property_get_online.
  destruct i as [e| |k d|reg msg|msg]; simpl in Hstep.
  - destruct (poll_to (w_slave w)); [|discriminate]. injection Hstep as <-.
    set (w1 := with_slave (set_poll_to None) w).
    change (modbus (w_slave w)) with (modbus (w_slave w1)).
    change (w_log w) with (w_log w1).
    destruct (modbus (w_slave w1)) as [h|] eqn:Hm.
    { unfold enable_slave. rewrite Hm. exists []. rewrite app_nil_r, Hm.
      simpl. auto. }
    destruct (attempt_cases e) as [Hf|(h & i & Hc & Hs & Hn & Hi)].
    + destruct (enable_slave_failure e w1 Hm Hf)
        as (-> & _ & _ & _ & _ & _ & _ & evs & Hl & _ & Ho).
      exists evs. rewrite Ho. auto.
    + destruct (enable_slave_success e w1 h i Hm Hc Hs Hn Hi) as (m & ->).
      simpl. eexists. split; reflexivity.
  - destruct (io (w_slave w)) as [i|] eqn:Hi; [|discriminate].
    injection Hstep as <-.
    unfold destroy_handler. rewrite disconnected_cb_eq. simpl.
    destruct (modbus (w_slave w)) as [h|] eqn:Hm.
    + eexists. split; [reflexivity|]. rewrite Hi.
      now rewrite !List.filter_app, filter_online_timeout_remove.
    + destruct Hio as [_ Hio]. discriminate (Hio eq_refl).
  - destruct (to_list (w_slave w) !! k) as [t|]; [|discriminate].
    destruct (to_armed t); [|discriminate].
    destruct (w_sources w !! to_bond t) as [src|]; [|discriminate].
    destruct (polling_to_expired host d (modbus (w_slave w)) src)
      as [[src' ret] ms].
    injection Hstep as <-. simpl. exists []. rewrite app_nil_r.
    destruct (modbus (w_slave w)); auto.
  - injection Hstep as <-.
    destruct (method_source_add_cases reg msg w)
      as [->|(dict & a & nm & type & unit & opath & _ & _ & _ & _ & _ & _ & _
              & _ & _ & _ & _ & ->)]; simpl.
    { exists []. rewrite app_nil_r. destruct (modbus (w_slave w)); auto. }
    destruct (world_with_source_eq opath nm type unit (arg_address a)
                (arg_interval a) w) as (m & -> & _).
    simpl. eexists. split; [reflexivity|].
    destruct (modbus (w_slave w)); auto.
  - injection Hstep as <-. unfold method_source_remove.
    destruct msg as [|opath|]; simpl;
      try (exists []; rewrite app_nil_r;
           destruct (modbus (w_slave w)); simpl; now auto).
    destruct (l_queue_remove_if _ _ _) as [[p|] rest]; simpl.
    + eexists. split; [reflexivity|]. destruct (modbus (w_slave w)); auto.
    + exists []. rewrite app_nil_r. destruct (modbus (w_slave w)); auto.
Qed.

(** *** What AddSource stores is what the replay reads *)

(** The row that an accepted AddSource request writes is the row of the
    Source it has created, and the address of that Source fits 16 bits,
    which is what the replay asks of a stored Source. *)
Lemma add_source_stores_row reg msg w opath :
  fst (method_source_add reg msg w) = method_return_path opath ->
  exists src,
    w_sources (snd (method_source_add reg msg w)) !! w_next w = Some src
    /\ src_persisted src = true
    /\ 0 <= src_address src < 65536
    /\ appended w (snd (method_source_add reg msg w))
         [StorageWriteSource (src_storage (w_slave w)) (source_row_of src)].
Proof.
  intros Hok.
  destruct (method_source_add_cases reg msg w)
    as [H|(dict & a & nm & type & unit & opath0 & _ & _ & _ & _ & _ & _ & _
           & _ & _ & _ & _ & Heq)].
  { rewrite H in Hok. discriminate. }
  rewrite Heq. simpl.
  destruct (world_with_source_eq opath0 nm type unit (arg_address a)
              (arg_interval a) w) as (m & -> & _).
  simpl. rewrite lookup_insert_eq. eexists. split; [reflexivity|].
  split; [reflexivity|]. split; [|reflexivity].
  simpl. change 65536 with (2 ^ 16). apply Z.mod_pos_bound. lia.
Qed.

(** ** Further properties of [slave.c] *)

(** *** RemoveSource *)

Lemma path_cmp_eq src b : path_cmp src b = true <-> src_path src = b.
Proof. unfold path_cmp, source_get_path. apply strcmp_eqb. Qed.

Lemma l_queue_remove_if_none h cmp l rest :
  l_queue_remove_if h cmp l = (None, rest) ->
  forall p s, p ∈ l -> h !! p = Some s -> cmp s = false.
Proof.
  revert rest. induction l as [|q l IH]; intros rest Hr p s Hin Hp.
  - now apply elem_of_nil in Hin.
  - simpl in Hr. destruct (l_queue_remove_if h cmp l) as [r rest'] eqn:Hrec.
    destruct (h !! q) as [sq|] eqn:Hq.
    + destruct (cmp sq) eqn:Hc; [discriminate|].
      injection Hr as -> <-.
      apply elem_of_cons in Hin as [->|Hin]; [congruence|].
      eapply IH; eauto.
    + injection Hr as -> <-.
      apply elem_of_cons in Hin as [->|Hin]; [congruence|].
      eapply IH; eauto.
Qed.

Lemma l_queue_remove_if_first h cmp l1 p l2 s :
  h !! p = Some s -> cmp s = true ->
  (forall q s', q ∈ l1 -> h !! q = Some s' -> cmp s' = false) ->
  l_queue_remove_if h cmp (l1 ++ p :: l2) = (Some p, l1 ++ l2).
Proof.
  intros Hp Hc. induction l1 as [|q l1 IH]; intros Hfirst; simpl.
  - now rewrite Hp, Hc.
  - rewrite IH by (intros q' s' Hq'; apply Hfirst; now right).
    destruct (h !! q) as [sq|] eqn:Hq; [|reflexivity].
    now rewrite (Hfirst q sq (ltac:(now left)) Hq).
Qed.

Lemma l_queue_remove_if_match h cmp l p rest :
  l_queue_remove_if h cmp l = (Some p, rest) ->
  exists s, p ∈ l /\ h !! p = Some s /\ cmp s = true.
Proof.
  revert rest. induction l as [|q l IH]; intros rest Hr; [discriminate|].
  simpl in Hr. destruct (l_queue_remove_if h cmp l) as [r rest'] eqn:Hrec.
  assert (Hkeep : (r, q :: rest') = (Some p, rest) ->
                  exists s, p ∈ q :: l /\ h !! p = Some s /\ cmp s = true).
  { intros [= -> <-]. destruct (IH rest' eq_refl) as (s & Hin & Hp & Hc).
    exists s. split; [now right|auto]. }
  destruct (h !! q) as [sq|] eqn:Hq; [|exact (Hkeep Hr)].
  destruct (cmp sq) eqn:Hc; [|exact (Hkeep Hr)].
  injection Hr as -> <-. exists sq. split; [now left|auto].
Qed.

(** X1. RemoveSource answers with the invalid-arguments error and changes
    nothing when its argument is not an object path, and when no Source
    of the queue has that path. *)
Theorem remove_source_unknown_path msg w :
  (forall opath p s, msg = MsgObjectPath opath ->
     p ∈ source_list (w_slave w) -> w_sources w !! p = Some s ->
     src_path s <> opath) ->
  method_source_remove msg w = (dbus_error_invalid_args, w).
Proof.
  intros Hno. unfold method_source_remove.
  destruct msg as [|opath|]; try reflexivity.
  destruct (l_queue_remove_if _ _ _) as [[p|] rest] eqn:Hrem; [|reflexivity].
  exfalso. destruct (l_queue_remove_if_match _ _ _ _ _ Hrem) as (s & Hin & Hp & Hc).
  apply path_cmp_eq in Hc. exact (Hno opath p s eq_refl Hin Hp Hc).
Qed.

Lemma remove_source_unknown_path_witness :
  method_source_remove (MsgObjectPath "/slave_a1/source_0020") sample_polling
  = (dbus_error_invalid_args, sample_polling).
Proof.
  apply (remove_source_unknown_path (MsgObjectPath "/slave_a1/source_0020")
           sample_polling).
  intros opath p s [= <-] Hin Hp.
  apply list_elem_of_singleton in Hin. subst p.
  vm_compute in Hp. injection Hp as <-. discriminate.
Defined.

(** X2. When a Source of the queue has the path, RemoveSource returns,
    takes the first such Source off the queue and frees it with its
    stored record ([source_destroy(source, true)]). Nothing else moves:
    the other Sources, the connection, and the polling timers, the timer
    of the removed Source included. *)
Theorem remove_source_first opath w l1 p l2 s :
  source_list (w_slave w) = l1 ++ p :: l2 ->
  w_sources w !! p = Some s -> src_path s = opath ->
  (forall q s', q ∈ l1 -> w_sources w !! q = Some s' -> src_path s' <> opath) ->
  method_source_remove (MsgObjectPath opath) w
  = (method_return,
     {| w_slave := set_source_list (l1 ++ l2) (w_slave w);
        w_sources := delete p (w_sources w);
        w_next := w_next w; w_units := w_units w;
        w_log := w_log w ++ [SourceDestroy p true] |}).
Proof.
  intros Hl Hp Hpath Hfirst. unfold method_source_remove.
  rewrite Hl, (l_queue_remove_if_first _ _ l1 p l2 s Hp).
  - reflexivity.
  - now apply path_cmp_eq.
  - intros q s' Hq Hs'. destruct (path_cmp s' opath) eqn:Hc; [|reflexivity].
    apply path_cmp_eq in Hc. now destruct (Hfirst q s' Hq Hs').
Qed.

Lemma remove_source_first_witness :
  method_source_remove (MsgObjectPath "/slave_a1/source_0010") sample_polling
  = (method_return,
     {| w_slave := set_source_list ([] ++ []) (w_slave sample_polling);
        w_sources := delete 1%nat (w_sources sample_polling);
        w_next := w_next sample_polling; w_units := w_units sample_polling;
        w_log := w_log sample_polling ++ [SourceDestroy 1%nat true] |}).
Proof.
  apply (remove_source_first "/slave_a1/source_0010" sample_polling
           [] 1%nat [] sample_source).
  - reflexivity.
  - vm_compute. reflexivity.
  - reflexivity.
  - intros q s' Hq. now apply elem_of_nil in Hq.
Defined.

(** X3. RemoveSource does not cancel the polling timer of the Source it
    frees: the timer stays in [to_list] as it was, its bond now leads to
    freed memory, and the loop has no defined turn for its expiry. *)
Theorem remove_source_leaves_timer host opath w l1 p l2 s k t d :
  source_list (w_slave w) = l1 ++ p :: l2 ->
  w_sources w !! p = Some s -> src_path s = opath ->
  (forall q s', q ∈ l1 -> w_sources w !! q = Some s' -> src_path s' <> opath) ->
  to_list (w_slave w) !! k = Some t -> to_bond t = p ->
  let w' := snd (method_source_remove (MsgObjectPath opath) w) in
  to_list (w_slave w') !! k = Some t
  /\ w_sources w' !! to_bond t = None
  /\ step host (PollingExpired k d) w' = None.
Proof.
  intros Hl Hp Hpath Hfirst Hk Hb.
  unfold method_source_remove.
  rewrite Hl, (l_queue_remove_if_first _ _ l1 p l2 s Hp).
  - simpl. rewrite Hk, Hb, lookup_delete_eq. repeat split.
    now destruct (to_armed t).
  - now apply path_cmp_eq.
  - intros q s' Hq Hs'. destruct (path_cmp s' opath) eqn:Hc; [|reflexivity].
    apply path_cmp_eq in Hc. now destruct (Hfirst q s' Hq Hs').
Qed.

Lemma remove_source_leaves_timer_witness :
  let w' := snd (method_source_remove (MsgObjectPath "/slave_a1/source_0010")
                   sample_polling) in
  to_list (w_slave w') !! "/slave_a1/source_0010"
  = Some {| to_armed := Some 2000; to_bond := 1%nat |}
  /\ w_sources w' !! 1%nat = None
  /\ step LittleEndian (PollingExpired "/slave_a1/source_0010" device_answering)
       w' = None.
Proof.
  apply (remove_source_leaves_timer LittleEndian "/slave_a1/source_0010"
           sample_polling [] 1%nat [] sample_source "/slave_a1/source_0010"
           {| to_armed := Some 2000; to_bond := 1%nat |} device_answering).
  - reflexivity.
  - vm_compute. reflexivity.
  - reflexivity.
  - intros q s' Hq. now apply elem_of_nil in Hq.
  - vm_compute. reflexivity.
  - reflexivity.
Defined.

(** X4. An accepted AddSource undone by RemoveSource of the path it
    returned: the queue and the Sources are what they were before the two
    calls. *)
Theorem add_then_remove_round_trip reg msg w opath :
  wf_source_list w ->
  fst (method_source_add reg msg w) = method_return_path opath ->
  let w1 := snd (method_source_add reg msg w) in
  let w2 := snd (method_source_remove (MsgObjectPath opath) w1) in
  fst (method_source_remove (MsgObjectPath opath) w1) = method_return
  /\ source_list (w_slave w2) = source_list (w_slave w)
  /\ w_sources w2 = w_sources w.
Proof.
  intros (Hlive & Hlt & _) Hok.
  destruct (method_source_add_cases reg msg w)
    as [H|(dict & a & nm & type & unit & opath0 & _ & _ & _ & _ & _ & _ & _
           & _ & _ & _ & _ & Heq)].
  { rewrite H in Hok. discriminate. }
  rewrite Heq in *. simpl in Hok. injection Hok as ->. simpl.
  destruct (world_with_source_eq opath nm type unit (arg_address a)
              (arg_interval a) w) as (m & -> & _).
  unfold method_source_remove. simpl.
  rewrite lookup_insert_eq.
  assert (Hc : path_cmp (source_new opath nm type unit (arg_address a)
                           (arg_interval a) (src_storage (w_slave w)) true)
                 opath = true) by now apply path_cmp_eq.
  rewrite Hc. simpl. repeat split.
  rewrite delete_insert_eq. apply delete_id.
  destruct (w_sources w !! w_next w) eqn:Hn; [|reflexivity].
  assert (w_next w < w_next w)%nat by (apply Hlt; eauto). lia.
Qed.

Lemma add_then_remove_round_trip_witness :
  let reg := Some "/slave_a1/source_0010" in
  let w1 := snd (method_source_add reg sample_request sample_connected) in
  let w2 := snd (method_source_remove (MsgObjectPath "/slave_a1/source_0010")
                   w1) in
  fst (method_source_remove (MsgObjectPath "/slave_a1/source_0010") w1)
  = method_return
  /\ source_list (w_slave w2) = source_list (w_slave sample_connected)
  /\ w_sources w2 = w_sources sample_connected.
Proof.
  apply (add_then_remove_round_trip (Some "/slave_a1/source_0010")
           sample_request sample_connected "/slave_a1/source_0010").
  - split; [|split].
    + intros p Hp. now apply elem_of_nil in Hp.
    + intros p [x Hp]. vm_compute in Hp. discriminate.
    + constructor.
  - vm_compute. reflexivity.
Defined.

(** *** Starting the polling timers *)

Lemma polling_start_live p w src :
  w_sources w !! p = Some src ->
  polling_start p w
  = with_slave (set_to_list
      (<[src_path src :=
           {| to_armed := Some (src_interval src);
              to_bond := match to_list (w_slave w) !! src_path src with
                         | Some t => to_bond t
                         | None => p
                         end |}]> (to_list (w_slave w)))) w.
Proof.
  intros Hp. unfold polling_start, source_get_path, source_get_interval.
  rewrite Hp. now destruct (to_list (w_slave w) !! src_path src).
Qed.

(** X5. [polling_start] retargets, it does not duplicate: called again
    for the same Source it changes nothing, and after it [to_list] holds
    exactly one more timer than before if the path had none, and as many
    as before if it had one. *)
Theorem polling_start_idempotent p w src :
  w_sources w !! p = Some src ->
  polling_start p (polling_start p w) = polling_start p w
  /\ size (to_list (w_slave (polling_start p w)))
     = match to_list (w_slave w) !! src_path src with
       | Some _ => size (to_list (w_slave w))
       | None => S (size (to_list (w_slave w)))
       end.
Proof.
  intros Hp. split.
  - rewrite (polling_start_live p w src Hp).
    rewrite (polling_start_live p _ src) by exact Hp.
    simpl. rewrite lookup_insert_eq. simpl.
    unfold with_slave, set_to_list. simpl. now rewrite insert_insert_eq.
  - rewrite (polling_start_live p w src Hp). simpl.
    destruct (to_list (w_slave w) !! src_path src) as [t|] eqn:Ht.
    + rewrite <- (insert_delete_id (to_list (w_slave w)) (src_path src) t Ht)
        at 2.
      rewrite <- insert_delete_eq.
      rewrite !map_size_insert_None by apply lookup_delete_eq. reflexivity.
    + now apply map_size_insert_None.
Qed.

Lemma polling_start_idempotent_witness :
  polling_start 1%nat (polling_start 1%nat sample_polling)
  = polling_start 1%nat sample_polling
  /\ size (to_list (w_slave (polling_start 1%nat sample_polling)))
     = match to_list (w_slave sample_polling) !! src_path sample_source with
       | Some _ => size (to_list (w_slave sample_polling))
       | None => S (size (to_list (w_slave sample_polling)))
       end.
Proof.
  apply (polling_start_idempotent 1%nat sample_polling sample_source).
  vm_compute. reflexivity.
Defined.

(** *** The queue holds live Sources *)

Lemma wf_source_list_same w w' :
  source_list (w_slave w') = source_list (w_slave w) ->
  w_sources w' = w_sources w -> w_next w' = w_next w ->
  wf_source_list w -> wf_source_list w'.
Proof. unfold wf_source_list. intros -> -> ->. auto. Qed.

Lemma wf_source_list_step host i w w' :
  wf_source_list w -> step host i w = Some w' -> wf_source_list w'.
Proof.
  intros Hwf Hstep. destruct i as [e| |k d|reg msg|msg]; simpl in Hstep.
  - destruct (poll_to (w_slave w)); [|discriminate]. injection Hstep as <-.
    destruct (enable_slave_frame e (with_slave (set_poll_to None) w))
      as (Hl & Hs & Hn & _).
    eapply wf_source_list_same; eauto.
  - destruct (io (w_slave w)); [|discriminate]. injection Hstep as <-.
    unfold destroy_handler. rewrite disconnected_cb_eq.
    eapply wf_source_list_same; eauto.
  - destruct (to_list (w_slave w) !! k) as [t|]; [|discriminate].
    destruct (to_armed t); [|discriminate].
    destruct (w_sources w !! to_bond t) as [src|] eqn:Hp; [|discriminate].
    destruct (polling_to_expired host d (modbus (w_slave w)) src)
      as [[src' ret] ms].
    injection Hstep as <-. unfold wf_source_list. simpl.
    apply wf_sources_update; eauto.
  - injection Hstep as <-.
    destruct (method_source_add_cases reg msg w)
      as [->|(dict & a & nm & type & unit & opath & _ & _ & _ & _ & _ & _ & _
              & _ & _ & _ & _ & ->)]; [assumption|].
    simpl.
    destruct (world_with_source_eq opath nm type unit (arg_address a)
                (arg_interval a) w) as (m & -> & _).
    unfold wf_source_list. simpl. now apply wf_sources_push.
  - injection Hstep as <-. unfold method_source_remove.
    destruct msg as [|opath|]; try assumption.
    destruct (l_queue_remove_if _ _ _) as [[p|] rest] eqn:Hrem; [|assumption].
    destruct (l_queue_remove_if_split _ _ _ _ _ Hrem) as (l1 & l2 & Hl & ->).
    unfold wf_source_list in *. simpl. rewrite Hl in Hwf.
    now apply wf_sources_remove.
Qed.

Lemma fold_create_wf (f : source_row -> option string) rows : forall w,
  wf_source_list w ->
  wf_source_list
    (fold_left (fun w row => create_source_from_storage (f row) row w) rows w).
Proof.
  induction rows as [|row rows IH]; intros w Hwf; [exact Hwf|].
  simpl. apply IH.
  destruct (create_source_from_storage_cases (f row) row w)
    as [->|(uaddr & opath & _ & _ & ->)]; [exact Hwf|].
  unfold wf_source_list. simpl. now apply wf_sources_push.
Qed.

Lemma slave_create_wf e units k sid nm u w0 :
  slave_create e units k sid nm u = Some w0 -> wf_source_list w0.
Proof.
  unfold slave_create. intros H.
  destruct u as [url0|]; [|discriminate].
  destruct (slave_create_driver (Some url0)) as [driver|]; [|discriminate].
  destruct (ce_register e); [|discriminate]. simpl in H.
  injection H as <-.
  match goal with
  | |- wf_source_list (slave_ref (with_slave _ ?w1)) =>
      apply (wf_source_list_same w1); try reflexivity
  end.
  assert (Hempty : forall w : world,
            source_list (w_slave w) = [] -> w_sources w = ∅ ->
            wf_source_list w).
  { intros w Hl Hs. unfold wf_source_list. rewrite Hl, Hs.
    split; [|split].
    - intros p Hp. now apply elem_of_nil in Hp.
    - intros p [x Hp]. rewrite lookup_empty in Hp. discriminate.
    - constructor. }
  destruct (ce_stat e =? 0).
  - apply fold_create_wf. now apply Hempty.
  - now apply Hempty.
Qed.

Lemma reachable_wf host w : reachable host w -> wf_source_list w.
Proof.
  intros (e & units & k & sid & nm & u & inputs & w0 & Hc & Hr).
  pose proof (slave_create_wf _ _ _ _ _ _ _ Hc) as Hwf. clear Hc.
  revert w0 Hwf Hr. induction inputs as [|i inputs IH]; intros w0 Hwf Hr.
  - simpl in Hr. now injection Hr as <-.
  - simpl in Hr. destruct (step host i w0) as [w1|] eqn:Hs; [|discriminate].
    eapply IH; [|exact Hr]. eapply wf_source_list_step; eauto.
Qed.

Lemma paths_of_cons h p l :
  paths_of h (p :: l)
  = match src_path <$> h !! p with
    | Some a => a :: paths_of h l
    | None => paths_of h l
    end.
Proof. reflexivity. Qed.

Lemma paths_of_length l h n :
  wf_sources l h n -> length (paths_of h l) = length l.
Proof.
  intros (Hlive & _ & _). induction l as [|p l IH]; [reflexivity|].
  rewrite paths_of_cons.
  destruct (Hlive p) as [s Hs]; [now left|]. rewrite Hs. simpl.
  rewrite IH; [reflexivity|]. intros q Hq. apply Hlive. now right.
Qed.

(** X6. Whatever the store held and whatever calls were made, the queue
    of a Slave never holds a freed Source, and never holds a Source
    twice: [l_queue_find], [l_queue_foreach] and [polling_start] only
    ever meet live Sources. *)
Theorem queue_holds_live_sources host w :
  reachable host w ->
  (forall p, p ∈ source_list (w_slave w) -> exists s, w_sources w !! p = Some s)
  /\ NoDup (source_list (w_slave w))
  /\ length (paths_of (w_sources w) (source_list (w_slave w)))
     = length (source_list (w_slave w)).
Proof.
  intros Hr. pose proof (reachable_wf host w Hr) as Hwf.
  destruct Hwf as (Hlive & Hlt & Hnd).
  split; [exact Hlive|]. split; [exact Hnd|].
  apply (paths_of_length _ _ (w_next w)). repeat split; assumption.
Qed.

Lemma queue_holds_live_sources_witness :
  reachable LittleEndian sample_polling
  /\ (forall p, p ∈ source_list (w_slave sample_polling) ->
        exists s, w_sources sample_polling !! p = Some s)
  /\ NoDup (source_list (w_slave sample_polling))
  /\ length (paths_of (w_sources sample_polling)
               (source_list (w_slave sample_polling)))
     = length (source_list (w_slave sample_polling)).
Proof.
  assert (Hr : reachable LittleEndian sample_polling).
  { exists first_creation, [("SI", "56")], "a1", 1, (Some "plc"),
      (Some "tcp://10.0.0.7:502"),
      [PollToExpired attempt_ok;
       AddSource (Some "/slave_a1/source_0010") sample_request],
      sample_offline.
    split; vm_compute; reflexivity. }
  split; [exact Hr|].
  exact (queue_holds_live_sources LittleEndian sample_polling Hr).
Defined.

(** *** One timer per Source on connection *)

Lemma paths_of_elem h l p s :
  p ∈ l -> h !! p = Some s -> src_path s ∈ paths_of h l.
Proof.
  intros Hin Hp. unfold paths_of. apply list_elem_of_omap.
  exists p. split; [exact Hin|]. now rewrite Hp.
Qed.

Lemma polling_start_sources p w : w_sources (polling_start p w) = w_sources w.
Proof. destruct (polling_start_shape p w) as (m & -> & _). reflexivity. Qed.

Lemma fold_polling_start_timers l : forall w,
  (forall p, p ∈ l -> is_Some (w_sources w !! p)) ->
  NoDup (paths_of (w_sources w) l) ->
  (forall p s, p ∈ l -> w_sources w !! p = Some s ->
     to_list (w_slave w) !! src_path s = None) ->
  let w' := fold_left (fun w p => polling_start p w) l w in
  (forall p s, p ∈ l -> w_sources w !! p = Some s ->
     to_list (w_slave w') !! src_path s
     = Some {| to_armed := Some (src_interval s); to_bond := p |})
  /\ (forall k, k ∉ paths_of (w_sources w) l ->
        to_list (w_slave w') !! k = to_list (w_slave w) !! k).
Proof.
  induction l as [|q l IH]; intros w Hlive Hnd Hfresh; cbn [fold_left].
  - split; [|reflexivity]. intros p s Hp. now apply elem_of_nil in Hp.
  - destruct (Hlive q) as [sq Hq]; [now left|].
    rewrite paths_of_cons, Hq in Hnd. simpl in Hnd.
    apply NoDup_cons in Hnd as (Hqnew & Hnd).
    pose proof (polling_start_live q w sq Hq) as Hstart.
    rewrite (Hfresh q sq (ltac:(now left)) Hq) in Hstart.
    assert (Hs1 : w_sources (polling_start q w) = w_sources w)
      by apply polling_start_sources.
    destruct (IH (polling_start q w)) as (IH1 & IH2).
    + intros p Hp. rewrite Hs1. apply Hlive. now right.
    + now rewrite Hs1.
    + intros p s Hp Hs. rewrite Hs1 in Hs. rewrite Hstart. simpl.
      rewrite lookup_insert_ne.
      * apply (Hfresh p s); [now right|exact Hs].
      * intros E. apply Hqnew. rewrite E. eapply paths_of_elem; eauto.
    + rewrite Hs1 in IH1, IH2. split.
      * intros p s Hp Hs. apply elem_of_cons in Hp as [->|Hp].
        -- rewrite Hq in Hs. injection Hs as <-.
           rewrite (IH2 (src_path sq) Hqnew), Hstart. simpl.
           apply lookup_insert_eq.
        -- now apply IH1.
      * intros k Hk. rewrite paths_of_cons, Hq in Hk. simpl in Hk.
        apply not_elem_of_cons in Hk as (Hne & Hk).
        rewrite (IH2 k Hk), Hstart. simpl. now apply lookup_insert_ne.
Qed.

(** X7. When a connection attempt succeeds on a Slave whose Sources have
    distinct paths, every Source of the queue gets a polling timer of its
    own, armed for its interval and bound to it, and [to_list] holds no
    other timer. *)
Theorem connect_starts_timer_per_source host e w h i :
  reachable host w -> modbus (w_slave w) = None ->
  env_create e = Some h -> 0 <= env_set_slave e -> env_connect e <> -1 ->
  env_io_new e = Some i ->
  NoDup (paths_of (w_sources w) (source_list (w_slave w))) ->
  let w' := enable_slave e w in
  (forall p, p ∈ source_list (w_slave w) ->
     exists s, w_sources w !! p = Some s
               /\ to_list (w_slave w') !! src_path s
                  = Some {| to_armed := Some (src_interval s); to_bond := p |})
  /\ (forall k, k ∉ paths_of (w_sources w) (source_list (w_slave w)) ->
        to_list (w_slave w') !! k = None)
  /\ property_get_online (w_slave w') = true.
Proof.
  intros Hr Hm Hc Hs Hn Hi Hnd.
  destruct (reachable_connected_inv host w Hr) as [Hio Hto].
  destruct (reachable_wf host w Hr) as (Hlive & _ & _).
  assert (Hempty : to_list (w_slave w) = ∅) by (apply Hto, Hio, Hm).
  unfold enable_slave. rewrite Hm, Hc, Hi.
  destruct (Z.ltb_spec (env_set_slave e) 0); [lia|].
  destruct (Z.eqb_spec (env_connect e) (-1)); [contradiction|]. simpl.
  match goal with
  | |- context [fold_left _ ?l ?w0] =>
      destruct (fold_polling_start_timers l w0) as (H1 & H2);
        [exact Hlive | exact Hnd
        | intros p s _ _; simpl; rewrite Hempty; apply lookup_empty |];
      destruct (fold_polling_start_shape l w0) as (m & Hfold)
  end.
  simpl in H1, H2. rewrite Hfold in *. simpl in *.
  split; [|split].
  - intros p Hp. destruct (Hlive p Hp) as [s Hps]. exists s.
    split; [exact Hps|]. now apply H1.
  - intros k Hk. rewrite (H2 k Hk), Hempty. apply lookup_empty.
  - reflexivity.
Qed.

Lemma connect_starts_timer_per_source_witness :
  let w' := enable_slave attempt_ok sample_two_sources in
  (forall p, p ∈ source_list (w_slave sample_two_sources) ->
     exists s, w_sources sample_two_sources !! p = Some s
               /\ to_list (w_slave w') !! src_path s
                  = Some {| to_armed := Some (src_interval s); to_bond := p |})
  /\ (forall k, k ∉ paths_of (w_sources sample_two_sources)
                      (source_list (w_slave sample_two_sources)) ->
        to_list (w_slave w') !! k = None)
  /\ property_get_online (w_slave w') = true.
Proof.
  apply (connect_starts_timer_per_source LittleEndian attempt_ok
           sample_two_sources 7%nat 9%nat).
  - exists second_creation, [("SI", "56")], "a1", 1, (Some "plc"),
      (Some "tcp://10.0.0.7:502"), [], sample_two_sources.
    split; vm_compute; reflexivity.
  - reflexivity.
  - reflexivity.
  - simpl. lia.
  - simpl. lia.
  - reflexivity.
  - change (NoDup ["/slave_a1/source_Flow"; "/slave_a1/source_Temp1"]).
    apply NoDup_cons. split; [|apply NoDup_singleton].
    intros Hin. apply list_elem_of_singleton in Hin. discriminate.
Defined.

(** *** Polling timers stay armed and filed under the path of their Source *)

Lemma timers_inv_same w w' :
  to_list (w_slave w') = to_list (w_slave w) ->
  w_sources w' = w_sources w -> w_next w' = w_next w ->
  timers_inv w -> timers_inv w'.
Proof. unfold timers_inv. intros -> -> ->. auto. Qed.

Lemma timers_inv_polling_start p w :
  (p < w_next w)%nat -> timers_inv w -> timers_inv (polling_start p w).
Proof.
  intros Hlt Hinv.
  destruct (w_sources w !! p) as [src|] eqn:Hp.
  2:{ unfold polling_start. now rewrite Hp. }
  rewrite (polling_start_live p w src Hp).
  intros k t. simpl. intros Hk.
  destruct (decide (src_path src = k)) as [<-|Hne].
  - rewrite lookup_insert_eq in Hk. injection Hk as <-. simpl.
    split; [eauto|].
    destruct (to_list (w_slave w) !! src_path src) as [t0|] eqn:Ht0.
    + destruct (Hinv _ _ Ht0) as (_ & Hb & Hpath). auto.
    + split; [exact Hlt|]. intros s Hs. congruence.
  - rewrite lookup_insert_ne in Hk by assumption. now apply Hinv.
Qed.

Lemma fold_polling_start_next (l : list nat) w :
  w_next (fold_left (fun w p => polling_start p w) l w) = w_next w.
Proof. destruct (fold_polling_start_shape l w) as (m & ->). reflexivity. Qed.

Lemma timers_inv_fold_polling_start (l : list nat) : forall w,
  (forall p, p ∈ l -> (p < w_next w)%nat) -> timers_inv w ->
  timers_inv (fold_left (fun w p => polling_start p w) l w).
Proof.
  induction l as [|q l IH]; intros w Hlt Hinv; [exact Hinv|].
  simpl. apply IH.
  - intros p Hp. destruct (polling_start_shape q w) as (m & -> & _). simpl.
    apply Hlt. now right.
  - apply timers_inv_polling_start; [apply Hlt; now left|exact Hinv].
Qed.

Lemma timers_inv_step host i w w' :
  wf_source_list w -> timers_inv w -> step host i w = Some w' -> timers_inv w'.
Proof.
  intros (Hlive & Hlt & _) Hinv Hstep.
  destruct i as [e| |k d|reg msg|msg]; simpl in Hstep.
  - destruct (poll_to (w_slave w)); [|discriminate]. injection Hstep as <-.
    set (w1 := with_slave (set_poll_to None) w).
    assert (H1 : timers_inv w1) by exact Hinv.
    unfold enable_slave.
    destruct (modbus (w_slave w1)); [exact H1|].
    destruct (env_create e); [|exact H1].
    destruct (env_set_slave e <? 0); [exact H1|].
    destruct (negb (env_connect e =? -1)); [|exact H1].
    destruct (env_io_new e); [|exact H1].
    match goal with
    | |- timers_inv (emit _ (fold_left ?f ?l ?w0)) =>
        apply (timers_inv_same (fold_left f l w0)); try reflexivity;
          apply timers_inv_fold_polling_start; [|exact H1]
    end.
    intros p Hp. simpl. apply Hlt, Hlive, Hp.
  - destruct (io (w_slave w)); [|discriminate]. injection Hstep as <-.
    unfold destroy_handler. rewrite disconnected_cb_eq.
    intros k t. simpl. rewrite lookup_empty. discriminate.
  - destruct (to_list (w_slave w) !! k) as [t|] eqn:Hk; [|discriminate].
    destruct (to_armed t); [|discriminate].
    destruct (w_sources w !! to_bond t) as [src|] eqn:Hp; [|discriminate].
    pose proof (polling_to_expired_fields host d (modbus (w_slave w)) src)
      as (Hpath & _).
    destruct (polling_to_expired host d (modbus (w_slave w)) src)
      as [[src' ret] ms].
    injection Hstep as <-. simpl in Hpath.
    destruct (Hinv k t Hk) as (_ & Hb & Hkp).
    intros k' t'. simpl. intros Hk'.
    assert (Hnew : forall b s, (b = to_bond t -> src_path src = k') ->
              (forall s0, w_sources w !! b = Some s0 -> src_path s0 = k') ->
              <[to_bond t := src']> (w_sources w) !! b = Some s ->
              src_path s = k').
    { intros b s Hsame Hold Hs. destruct (decide (to_bond t = b)) as [<-|Hne].
      - rewrite lookup_insert_eq in Hs. injection Hs as <-.
        rewrite Hpath. now apply Hsame.
      - rewrite lookup_insert_ne in Hs by assumption. now apply Hold. }
    destruct (decide (k = k')) as [<-|Hne].
    + rewrite lookup_insert_eq in Hk'. injection Hk' as <-. simpl.
      split; [eauto|]. split; [exact Hb|].
      intros s. apply Hnew; [intros _; now apply Hkp|exact Hkp].
    + rewrite lookup_insert_ne in Hk' by assumption.
      destruct (Hinv k' t' Hk') as (Ha' & Hb' & Hkp').
      split; [exact Ha'|]. split; [exact Hb'|].
      intros s. apply Hnew; [|exact Hkp'].
      intros E. apply Hkp'. now rewrite E.
  - injection Hstep as <-.
    destruct (method_source_add_cases reg msg w)
      as [->|(dict & a & nm & type & unit & opath & _ & _ & _ & _ & _ & _ & _
              & _ & _ & _ & _ & ->)]; [assumption|].
    simpl. unfold world_with_source.
    match goal with
    | |- timers_inv (match _ with Some _ => polling_start _ ?w1 | None => _ end) =>
        assert (H1 : timers_inv w1)
    end.
    { intros k t. simpl. intros Hk. destruct (Hinv k t Hk) as (Ha & Hb & Hkp).
      split; [exact Ha|]. split; [lia|].
      intros s. rewrite lookup_insert_ne by lia. apply Hkp. }
    destruct (io (w_slave w)); [|exact H1].
    apply timers_inv_polling_start; [simpl; lia|exact H1].
  - injection Hstep as <-. unfold method_source_remove.
    destruct msg as [|opath|]; try assumption.
    destruct (l_queue_remove_if _ _ _) as [[p|] rest]; [|assumption].
    intros k t. simpl. intros Hk. destruct (Hinv k t Hk) as (Ha & Hb & Hkp).
    split; [exact Ha|]. split; [exact Hb|].
    intros s Hs. apply lookup_delete_Some in Hs as (_ & Hs). now apply Hkp.
Qed.

Lemma reachable_timers_inv host w : reachable host w -> timers_inv w.
Proof.
  intros (e & units & k & sid & nm & u & inputs & w0 & Hc & Hr).
  pose proof (slave_create_wf _ _ _ _ _ _ _ Hc) as Hwf.
  assert (Hinv : timers_inv w0).
  { destruct (slave_create_initial _ _ _ _ _ _ _ Hc) as (_ & _ & Ht & _).
    intros k0 t. rewrite Ht, lookup_empty. discriminate. }
  clear Hc. revert w0 Hwf Hinv Hr.
  induction inputs as [|i inputs IH]; intros w0 Hwf Hinv Hr.
  - simpl in Hr. now injection Hr as <-.
  - simpl in Hr. destruct (step host i w0) as [w1|] eqn:Hs; [|discriminate].
    eapply (IH w1); [| |exact Hr].
    + eapply wf_source_list_step; eauto.
    + eapply timers_inv_step; eauto.
Qed.

(** X8. In every state between two callbacks, every polling timer is
    armed; and a timer whose Source is alive is filed under the path of
    that Source and its expiry is a turn the loop can take, whatever the
    device answers. Polling of a live Source never stops by itself. *)
Theorem polling_timers_stay_armed host w k t :
  reachable host w -> to_list (w_slave w) !! k = Some t ->
  is_Some (to_armed t)
  /\ forall s, w_sources w !! to_bond t = Some s ->
       src_path s = k
       /\ forall d, is_Some (step host (PollingExpired k d) w).
Proof.
  intros Hr Hk. destruct (reachable_timers_inv host w Hr k t Hk)
    as ([ms Ha] & _ & Hpath).
  split; [eauto|]. intros s Hs. split; [now apply Hpath|].
  intros d. simpl. rewrite Hk, Ha, Hs.
  destruct (polling_to_expired host d (modbus (w_slave w)) s) as [[s' r] ms'].
  eauto.
Qed.

Lemma polling_timers_stay_armed_witness :
  is_Some (to_armed {| to_armed := Some 2000; to_bond := 1%nat |})
  /\ forall s, w_sources sample_polling !! 1%nat = Some s ->
       src_path s = "/slave_a1/source_0010"
       /\ forall d, is_Some (step LittleEndian
                               (PollingExpired "/slave_a1/source_0010" d)
                               sample_polling).
Proof.
  apply (polling_timers_stay_armed LittleEndian sample_polling
           "/slave_a1/source_0010" {| to_armed := Some 2000; to_bond := 1%nat |}).
  - exists first_creation, [("SI", "56")], "a1", 1, (Some "plc"),
      (Some "tcp://10.0.0.7:502"),
      [PollToExpired attempt_ok;
       AddSource (Some "/slave_a1/source_0010") sample_request],
      sample_offline.
    split; vm_compute; reflexivity.
  - vm_compute. reflexivity.
Defined.

(** *** Handles and I/O registrations over a run *)

Lemma count_app f l1 l2 : count f (l1 ++ l2) = (count f l1 + count f l2)%nat.
Proof. unfold count. now rewrite List.filter_app, length_app. Qed.

Lemma count_timeout_remove f (l : list (string * polling_timeout)) :
  (forall k, f (TimeoutRemove k) = false) ->
  count f (map (fun kv => TimeoutRemove (fst kv)) l) = 0%nat.
Proof.
  intros Hf. unfold count. induction l as [|kv l IH]; [reflexivity|].
  simpl. now rewrite Hf.
Qed.

(** The log of a failed attempt: the driver is asked for a handle, and a
    handle that was obtained is given back. *)
Lemma enable_slave_failure_log e w :
  modbus (w_slave w) = None -> attempt_fails e ->
  w_log (enable_slave e w)
  = w_log w ++ DriverCreate (drv (w_slave w)) (url (w_slave w))
      :: match env_create e with
         | Some h => [DriverDestroy (drv (w_slave w)) (Some h)]
         | None => []
         end.
Proof.
  intros Hm Hf. unfold enable_slave. rewrite Hm.
  destruct e as [c ss cn ion]. unfold attempt_fails in Hf. simpl in *.
  destruct c as [h|]; simpl; [|reflexivity].
  destruct (Z.ltb_spec ss 0); simpl; [now rewrite <- app_assoc|].
  destruct (Z.eqb_spec cn (-1)); simpl; [now rewrite <- app_assoc|].
  destruct ion as [i|]; simpl; [|now rewrite <- app_assoc].
  exfalso. destruct Hf as [Hf|[Hf|[Hf|Hf]]]; try discriminate; lia.
Qed.

(** What [slave_create] writes: the three keys of a new Slave, the name
    defaulting to the URL, and nothing for a Slave that has a table. *)
Lemma slave_create_log e units k sid nm u w0 :
  slave_create e units k sid nm u = Some w0 ->
  exists url0,
    u = Some url0
    /\ w_log w0
       = if ce_stat e =? 0 then []
         else [StorageWriteKeyInt k "Id" (sid mod 2 ^ 8);
               StorageWriteKeyString k "Name"
                 (match nm with Some n => n | None => url0 end);
               StorageWriteKeyString k "URL" url0].
Proof.
  unfold slave_create. intros H.
  destruct u as [url0|]; [|discriminate]. exists url0. split; [reflexivity|].
  destruct (slave_create_driver (Some url0)) as [driver|]; [|discriminate].
  destruct (ce_register e); [|discriminate]. simpl in H.
  injection H as <-. simpl.
  destruct (ce_stat e =? 0); [|reflexivity].
  match goal with
  | |- context [fold_left ?g ?l ?w1] =>
      destruct (fold_create_source_frame (ce_source_reg e) l w1) as (_ & ->)
  end.
  reflexivity.
Qed.

Lemma enable_slave_resources e w :
  connected_inv w ->
  exists evs,
    w_log (enable_slave e w) = w_log w ++ evs
    /\ count is_null_destroy evs = 0%nat
    /\ (count is_io_new evs
        + match io (w_slave w) with Some _ => 1 | None => 0 end
        = count is_io_destroy evs
          + match io (w_slave (enable_slave e w)) with
            | Some _ => 1
            | None => 0
            end)%nat.
Proof.
  intros [Hio Hto].
  destruct (modbus (w_slave w)) as [h|] eqn:Hm.
  { unfold enable_slave. rewrite Hm. exists []. rewrite app_nil_r. auto. }
  assert (Hi0 : io (w_slave w) = None) by now apply Hio.
  destruct (attempt_cases e) as [Hf|(h & i & Hc & Hs & Hn & Hi)].
  - destruct (enable_slave_failure e w Hm Hf) as (_ & _ & Hi' & _).
    simpl in Hi'. rewrite (enable_slave_failure_log e w Hm Hf).
    rewrite (Hi' Hi0), Hi0. eexists. split; [reflexivity|].
    destruct (env_create e); split; reflexivity.
  - destruct (enable_slave_success e w h i Hm Hc Hs Hn Hi) as (m & ->).
    simpl. rewrite Hi0. eexists. split; [reflexivity|]. split; reflexivity.
Qed.

Lemma step_resources host i w w' :
  connected_inv w -> step host i w = Some w' ->
  exists evs,
    w_log w' = w_log w ++ evs
    /\ count is_null_destroy evs = 0%nat
    /\ (count is_io_new evs
        + match io (w_slave w) with Some _ => 1 | None => 0 end
        = count is_io_destroy evs
          + match io (w_slave w') with Some _ => 1 | None => 0 end)%nat.
Proof.
  intros [Hio Hto] Hstep.
  destruct i as [e| |k d|reg msg|msg]; simpl in Hstep.
  - destruct (poll_to (w_slave w)); [|discriminate]. injection Hstep as <-.
    apply (enable_slave_resources e (with_slave (set_poll_to None) w)).
    split; assumption.
  - destruct (io (w_slave w)) as [i|] eqn:Hi; [|discriminate].
    injection Hstep as <-.
    unfold destroy_handler. rewrite disconnected_cb_eq. simpl. rewrite Hi.
    destruct (modbus (w_slave w)) as [h|] eqn:Hm.
    2:{ destruct Hio as [_ Hio]. discriminate (Hio eq_refl). }
    eexists. split; [reflexivity|].
    rewrite !count_app, !count_timeout_remove by reflexivity.
    split; reflexivity.
  - destruct (to_list (w_slave w) !! k) as [t|]; [|discriminate].
    destruct (to_armed t); [|discriminate].
    destruct (w_sources w !! to_bond t) as [src|]; [|discriminate].
    destruct (polling_to_expired host d (modbus (w_slave w)) src)
      as [[src' ret] ms].
    injection Hstep as <-. simpl. exists []. rewrite app_nil_r.
    split; [reflexivity|]. split; reflexivity.
  - injection Hstep as <-.
    destruct (method_source_add_cases reg msg w)
      as [->|(dict & a & nm & type & unit & opath & _ & _ & _ & _ & _ & _ & _
              & _ & _ & _ & _ & ->)]; simpl.
    { exists []. rewrite app_nil_r. split; [reflexivity|]. split; reflexivity. }
    destruct (world_with_source_eq opath nm type unit (arg_address a)
                (arg_interval a) w) as (m & -> & _).
    simpl. eexists. split; [reflexivity|]. split; reflexivity.
  - injection Hstep as <-. unfold method_source_remove.
    destruct msg as [|opath|]; simpl;
      try (exists []; rewrite app_nil_r; split; [reflexivity|];
           split; reflexivity).
    destruct (l_queue_remove_if _ _ _) as [[p|] rest]; simpl.
    + eexists. split; [reflexivity|]. split; reflexivity.
    + exists []. rewrite app_nil_r. split; [reflexivity|]. split; reflexivity.
Qed.

Lemma run_resources host inputs : forall w w',
  connected_inv w -> run host inputs w = Some w' ->
  count is_null_destroy (w_log w) = 0%nat -> io_balanced w ->
  count is_null_destroy (w_log w') = 0%nat /\ io_balanced w'.
Proof.
  induction inputs as [|i inputs IH]; intros w w' Hinv Hrun Hnull Hbal.
  - simpl in Hrun. injection Hrun as <-. auto.
  - simpl in Hrun. destruct (step host i w) as [w1|] eqn:Hs; [|discriminate].
    destruct (step_resources host i w w1 Hinv Hs) as (evs & Hl & Hn & Hb).
    apply (IH w1 w'); [eapply connected_inv_step; eauto|exact Hrun| |].
    + rewrite Hl, count_app. lia.
    + unfold io_balanced in *. rewrite Hl, !count_app. lia.
Qed.

Lemma reachable_resources host w :
  reachable host w ->
  count is_null_destroy (w_log w) = 0%nat /\ io_balanced w.
Proof.
  intros (e & units & k & sid & nm & u & inputs & w0 & Hc & Hr).
  destruct (slave_create_initial _ _ _ _ _ _ _ Hc) as (Hm & Hi & Ht & _).
  destruct (slave_create_log _ _ _ _ _ _ _ Hc) as (url0 & _ & Hlog).
  apply (run_resources host inputs w0 w); [|exact Hr| |].
  - split; [split; auto|auto].
  - rewrite Hlog. now destruct (ce_stat e =? 0).
  - unfold io_balanced. rewrite Hlog, Hi. now destruct (ce_stat e =? 0).
Qed.

(** X9. In a run of any length, the driver's [destroy] is never handed a
    null handle, although [disconnected_cb] calls it without a test: a
    connection that is watched always has a handle. *)
Theorem driver_destroy_never_null host w d :
  reachable host w -> ~ In (DriverDestroy d None) (w_log w).
Proof.
  intros Hr Hin. destruct (reachable_resources host w Hr) as (Hnull & _).
  unfold count in Hnull.
  assert (Hf : In (DriverDestroy d None) (List.filter is_null_destroy (w_log w))).
  { apply List.filter_In. split; [exact Hin|reflexivity]. }
  destruct (List.filter is_null_destroy (w_log w)); [destruct Hf|discriminate].
Qed.

Lemma driver_destroy_never_null_witness :
  ~ In (DriverDestroy tcp None)
       (w_log (destroy_handler (disconnected_cb sample_polling))).
Proof.
  apply (driver_destroy_never_null LittleEndian).
  exists first_creation, [("SI", "56")], "a1", 1, (Some "plc"),
    (Some "tcp://10.0.0.7:502"),
    [PollToExpired attempt_ok;
     AddSource (Some "/slave_a1/source_0010") sample_request;
     IoDisconnected],
    sample_offline.
  split; vm_compute; reflexivity.
Defined.

(** X10. I/O registrations do not leak across reconnect cycles: at every
    moment between two callbacks, the registrations taken with [l_io_new]
    are those released with [l_io_destroy], plus the one in [slave->io]
    if there is one. *)
Theorem io_registrations_balanced host w :
  reachable host w ->
  count is_io_new (w_log w)
  = (count is_io_destroy (w_log w)
     + if property_get_online (w_slave w) then 1 else 0)%nat.
Proof.
  intros Hr. destruct (reachable_resources host w Hr) as (_ & Hbal).
  destruct (reachable_connected_inv host w Hr) as [Hio _].
  unfold io_balanced in Hbal. rewrite Hbal. unfold property_get_online.
  destruct (io (w_slave w)) eqn:Hi, (modbus (w_slave w)) eqn:Hm; try reflexivity.
  - destruct Hio as [_ Hio]. discriminate (Hio eq_refl).
  - destruct Hio as [Hio _]. discriminate (Hio eq_refl).
Qed.

Lemma io_registrations_balanced_witness :
  let w := destroy_handler (disconnected_cb sample_polling) in
  count is_io_new (w_log w)
  = (count is_io_destroy (w_log w)
     + if property_get_online (w_slave w) then 1 else 0)%nat.
Proof.
  apply (io_registrations_balanced LittleEndian).
  exists first_creation, [("SI", "56")], "a1", 1, (Some "plc"),
    (Some "tcp://10.0.0.7:502"),
    [PollToExpired attempt_ok;
     AddSource (Some "/slave_a1/source_0010") sample_request;
     IoDisconnected],
    sample_offline.
  split; vm_compute; reflexivity.
Defined.

(** *** The final teardown *)

Lemma fold_source_destroy_heap rm (l : list nat) : forall w p,
  w_sources (fold_left (fun w p => source_destroy p rm w) l w) !! p
  = if bool_decide (p ∈ l) then None else w_sources w !! p.
Proof.
  induction l as [|q l IH]; intros w p; cbn [fold_left].
  - case_bool_decide as H; [now apply elem_of_nil in H|reflexivity].
  - rewrite IH. case_bool_decide as H1; case_bool_decide as H2.
    + reflexivity.
    + exfalso. apply H2. now right.
    + simpl. apply elem_of_cons in H2 as [->|?]; [|contradiction].
      apply lookup_delete_eq.
    + simpl. apply lookup_delete_ne. intros ->. apply H2. now left.
Qed.

Lemma slave_free_sources w p :
  w_sources (slave_free w) !! p
  = if bool_decide (p ∈ source_list (w_slave w)) then None
    else w_sources w !! p.
Proof.
  unfold slave_free.
  rewrite l_hashmap_destroy_to_list_eq.
  unfold with_slave, emit, l_io_destroy; simpl.
  destruct (fold_source_destroy false (source_list (w_slave w)) w)
    as (Hs & _ & _ & _).
  rewrite Hs.
  destruct (io (w_slave w)); simpl; destruct (modbus (w_slave w)); simpl;
    apply fold_source_destroy_heap.
Qed.

Lemma slave_free_events w :
  exists evs,
    appended w (slave_free w) evs
    /\ (forall p, p ∈ source_list (w_slave w) ->
          In (SourceDestroy p false) evs /\ w_sources (slave_free w) !! p = None)
    /\ (forall k, is_Some (to_list (w_slave w) !! k) -> In (TimeoutRemove k) evs)
    /\ (forall p, ~ In (SourceDestroy p true) evs)
    /\ count is_storage_close evs = 1%nat.
Proof.
  eexists. split; [apply slave_free_log|]. split; [|split; [|split]].
  - intros p Hp. split.
    + apply in_or_app. left. apply in_map_iff. exists p.
      split; [reflexivity|]. now apply list_elem_of_In.
    + rewrite slave_free_sources. now case_bool_decide.
  - intros k [t Hk]. apply in_or_app. right. apply in_or_app. left.
    apply in_map_iff. exists (k, t). split; [reflexivity|].
    apply list_elem_of_In. now apply elem_of_map_to_list.
  - intros p Hin.
    repeat (apply in_app_or in Hin as [Hin|Hin]).
    + apply in_map_iff in Hin as (x & Hx & _). discriminate.
    + apply in_map_iff in Hin as (x & Hx & _). discriminate.
    + destruct (io (w_slave w)); simpl in Hin; intuition discriminate.
    + destruct (modbus (w_slave w)); simpl in Hin; intuition discriminate.
    + simpl in Hin. intuition discriminate.
  - rewrite !count_app.
    assert (H1 : count is_storage_close
                   (map (fun p => SourceDestroy p false)
                      (source_list (w_slave w))) = 0%nat).
    { unfold count. induction (source_list (w_slave w)); simpl; auto. }
    rewrite H1, count_timeout_remove by reflexivity.
    destruct (io (w_slave w)), (modbus (w_slave w)); reflexivity.
Qed.


(** X11. [slave_free] releases everything the Slave owns and nothing it
    does not: every Source of the queue is freed, none with its stored
    record ([source_destroy(source, false)]); every polling timer is
    removed; the Source table is closed once. *)
Theorem slave_free_releases_everything w :
  exists evs,
    appended w (slave_free w) evs
    /\ (forall p, p ∈ source_list (w_slave w) ->
          In (SourceDestroy p false) evs /\ w_sources (slave_free w) !! p = None)
    /\ (forall k, is_Some (to_list (w_slave w) !! k) -> In (TimeoutRemove k) evs)
    /\ (forall p, ~ In (SourceDestroy p true) evs)
    /\ count is_storage_close evs = 1%nat.
Proof. apply slave_free_events. Qed.

(** X12. [slave_free] tears down the I/O registration before it hands
    the handle to the driver's [destroy]: the socket is no longer watched
    when it is closed. *)
Theorem slave_free_registration_first w h i :
  modbus (w_slave w) = Some h -> io (w_slave w) = Some i ->
  exists pre post,
    w_log (slave_free w)
    = w_log w ++ pre
      ++ IoDestroy i :: DriverDestroy (drv (w_slave w)) (Some h) :: post
    /\ ~ In (DriverDestroy (drv (w_slave w)) (Some h)) pre
    /\ ~ In (IoDestroy i) post.
Proof.
  intros Hm Hi. rewrite slave_free_log, Hm, Hi.
  eexists (_ ++ _), _. split; [|split].
  - rewrite <- app_assoc. reflexivity.
  - rewrite in_app_iff, !in_map_iff.
    intros [(x & Hx & _)|(x & Hx & _)]; discriminate.
  - simpl. intuition discriminate.
Qed.

Lemma slave_free_registration_first_witness :
  exists pre post,
    w_log (slave_free sample_polling)
    = w_log sample_polling ++ pre
      ++ IoDestroy 9%nat
           :: DriverDestroy (drv (w_slave sample_polling)) (Some 7%nat) :: post
    /\ ~ In (DriverDestroy (drv (w_slave sample_polling)) (Some 7%nat)) pre
    /\ ~ In (IoDestroy 9%nat) post.
Proof.
  apply (slave_free_registration_first sample_polling 7%nat 9%nat);
    reflexivity.
Defined.

(** *** Reference counting and [slave_destroy] *)

Lemma enable_slave_refs e w :
  refs (w_slave (enable_slave e w)) = refs (w_slave w)
  /\ key (w_slave (enable_slave e w)) = key (w_slave w).
Proof.
  unfold enable_slave.
  destruct (modbus (w_slave w)); [auto|].
  destruct (env_create e); [|auto].
  destruct (env_set_slave e <? 0); [auto|].
  destruct (negb (env_connect e =? -1)); [|auto].
  destruct (env_io_new e); [|auto].
  match goal with
  | |- context [fold_left _ ?l ?w0] =>
      destruct (fold_polling_start_shape l w0) as (m & ->)
  end.
  auto.
Qed.

Lemma step_refs host i w w' :
  step host i w = Some w' ->
  refs (w_slave w') = refs (w_slave w) /\ key (w_slave w') = key (w_slave w).
Proof.
  intros Hstep. destruct i as [e| |k d|reg msg|msg]; simpl in Hstep.
  - destruct (poll_to (w_slave w)); [|discriminate]. injection Hstep as <-.
    apply (enable_slave_refs e (with_slave (set_poll_to None) w)).
  - destruct (io (w_slave w)); [|discriminate]. injection Hstep as <-.
    unfold destroy_handler. rewrite disconnected_cb_eq. auto.
  - destruct (to_list (w_slave w) !! k) as [t|]; [|discriminate].
    destruct (to_armed t); [|discriminate].
    destruct (w_sources w !! to_bond t) as [src|]; [|discriminate].
    destruct (polling_to_expired host d (modbus (w_slave w)) src)
      as [[src' ret] ms].
    injection Hstep as <-. auto.
  - injection Hstep as <-.
    destruct (method_source_add_cases reg msg w)
      as [->|(dict & a & nm & type & unit & opath & _ & _ & _ & _ & _ & _ & _
              & _ & _ & _ & _ & ->)]; [auto|].
    simpl.
    destruct (world_with_source_eq opath nm type unit (arg_address a)
                (arg_interval a) w) as (m & -> & _).
    auto.
  - injection Hstep as <-. unfold method_source_remove.
    destruct msg as [|opath|]; auto.
    destruct (l_queue_remove_if _ _ _) as [[p|] rest]; auto.
Qed.

Lemma fold_create_source_refs (f : source_row -> option string) rows : forall w,
  let w' := fold_left (fun w row => create_source_from_storage (f row) row w)
              rows w in
  refs (w_slave w') = refs (w_slave w) /\ key (w_slave w') = key (w_slave w)
  /\ name (w_slave w') = name (w_slave w) /\ url (w_slave w') = url (w_slave w)
  /\ id (w_slave w') = id (w_slave w).
Proof.
  induction rows as [|row rows IH]; intros w; simpl; [auto 6|].
  destruct (IH (create_source_from_storage (f row) row w))
    as (-> & -> & -> & -> & ->).
  destruct (create_source_from_storage_cases (f row) row w)
    as [->|(uaddr & opath & _ & _ & ->)]; auto 6.
Qed.

(** The Slave that [slave_create] returns, field by field. *)
Lemma slave_create_fields e units k sid nm u w0 :
  slave_create e units k sid nm u = Some w0 ->
  refs (w_slave w0) = 2 /\ key (w_slave w0) = k
  /\ id (w_slave w0) = sid mod 2 ^ 8 /\ name (w_slave w0) = nm
  /\ Some (url (w_slave w0)) = u
  /\ path (w_slave w0) = "/slave_" +:+ k.
Proof.
  unfold slave_create. intros H.
  destruct u as [url0|]; [|discriminate].
  destruct (slave_create_driver (Some url0)) as [driver|]; [|discriminate].
  destruct (ce_register e); [|discriminate]. simpl in H.
  injection H as <-. simpl.
  destruct (ce_stat e =? 0); [|simpl; auto 6].
  match goal with
  | |- context [fold_left ?g ?l ?w1] =>
      destruct (fold_create_source_refs (ce_source_reg e) l w1)
        as (-> & -> & -> & -> & ->);
      destruct (fold_create_source_frame (ce_source_reg e) l w1)
        as ((_ & _ & _ & _ & -> & _) & _)
  end.
  simpl. auto 6.
Qed.

Lemma reachable_refs host w : reachable host w -> refs (w_slave w) = 2.
Proof.
  intros (e & units & k & sid & nm & u & inputs & w0 & Hc & Hr).
  destruct (slave_create_fields _ _ _ _ _ _ _ Hc) as (H2 & _). clear Hc.
  revert w0 H2 Hr. induction inputs as [|i inputs IH]; intros w0 H2 Hr.
  - simpl in Hr. now injection Hr as <-.
  - simpl in Hr. destruct (step host i w0) as [w1|] eqn:Hs; [|discriminate].
    apply (IH w1); [|exact Hr].
    destruct (step_refs host i w0 w1 Hs) as (-> & _). exact H2.
Qed.

Lemma slave_unref_keep w :
  refs (w_slave w) <> 1 ->
  slave_unref w = (with_slave (fun s => set_refs (refs s - 1) s) w, false).
Proof.
  intros H. unfold slave_unref. simpl.
  destruct (Z.eqb_spec (refs (w_slave w) - 1) 0); [lia|reflexivity].
Qed.

Lemma slave_unref_last w :
  refs (w_slave w) = 1 ->
  slave_unref w
  = (slave_free (with_slave (fun s => set_refs (refs s - 1) s) w), true).
Proof.
  intros H. unfold slave_unref. simpl. now rewrite H.
Qed.

(** X13. [slave_destroy] on a Slave that [slave_create] returned, in any
    state of its life: the two references are dropped and [slave_free]
    runs, once. Without [rm] nothing is asked of the file system or of
    the Slave table; with [rm] the Source table file, the directory and
    the Slave's group are removed. In both cases the Sources are freed
    without touching their stored records one by one. *)
Theorem slave_destroy_frees_once host storagedir rm w :
  reachable host w ->
  exists w' evs,
    slave_destroy storagedir rm w
    = Some (w',
            if rm
            then [Unlink (storagedir +:+ "/" +:+ key (w_slave w)
                            +:+ "/sources.conf");
                  Rmdir (storagedir +:+ "/" +:+ key (w_slave w));
                  StorageRemoveGroup (key (w_slave w))]
            else [],
            true)
    /\ appended w w' evs
    /\ count is_storage_close evs = 1%nat
    /\ (forall p, ~ In (SourceDestroy p true) evs)
    /\ (forall p, p ∈ source_list (w_slave w) -> w_sources w' !! p = None).
Proof.
  intros Hr. pose proof (reachable_refs host w Hr) as H2.
  unfold slave_destroy.
  set (w0 := match io (w_slave w) with
             | Some i => emit (IoSetDisconnectHandler i) w
             | None => w
             end).
  assert (H0 : w_slave w0 = w_slave w
               /\ exists pre, w_log w0 = w_log w ++ pre
                              /\ count is_storage_close pre = 0%nat
                              /\ forall p, ~ In (SourceDestroy p true) pre).
  { subst w0. destruct (io (w_slave w)); simpl.
    - split; [reflexivity|]. eexists. split; [reflexivity|].
      split; [reflexivity|]. intros p [H|[]]. discriminate.
    - split; [reflexivity|]. exists []. rewrite app_nil_r. auto. }
  clearbody w0. destruct H0 as (Hs0 & pre & Hl0 & Hc0 & Hn0).
  rewrite (slave_unref_keep w0) by (rewrite Hs0, H2; lia).
  rewrite slave_unref_last by (simpl; rewrite Hs0, H2; reflexivity).
  match goal with
  | |- context [slave_free ?w2] =>
      destruct (slave_free_events w2)
        as (evs & Happ & Hsrc & _ & Hnever & Hclose);
      exists (slave_free w2), (pre ++ evs)
  end.
  unfold appended in *.
  split; [cbn [w_slave with_slave key set_refs]; now rewrite Hs0|].
  split; [|split; [|split]].
  - rewrite Happ. cbn [w_log with_slave]. now rewrite Hl0, <- app_assoc.
  - rewrite count_app. lia.
  - intros p Hin. apply in_app_or in Hin as [Hin|Hin].
    + exact (Hn0 p Hin).
    + exact (Hnever p Hin).
  - intros p Hp. apply Hsrc.
    cbn [w_slave with_slave source_list set_refs]. now rewrite Hs0.
Qed.

Lemma slave_destroy_frees_once_witness :
  exists w' evs,
    slave_destroy "/var/lib/knot" true sample_polling
    = Some (w',
            [Unlink ("/var/lib/knot" +:+ "/" +:+ key (w_slave sample_polling)
                       +:+ "/sources.conf");
             Rmdir ("/var/lib/knot" +:+ "/" +:+ key (w_slave sample_polling));
             StorageRemoveGroup (key (w_slave sample_polling))],
            true)
    /\ appended sample_polling w' evs
    /\ count is_storage_close evs = 1%nat
    /\ (forall p, ~ In (SourceDestroy p true) evs)
    /\ (forall p, p ∈ source_list (w_slave sample_polling) ->
          w_sources w' !! p = None).
Proof.
  apply (slave_destroy_frees_once LittleEndian "/var/lib/knot" true
           sample_polling).
  exists first_creation, [("SI", "56")], "a1", 1, (Some "plc"),
    (Some "tcp://10.0.0.7:502"),
    [PollToExpired attempt_ok;
     AddSource (Some "/slave_a1/source_0010") sample_request],
    sample_offline.
  split; vm_compute; reflexivity.
Defined.

(** *** What [slave_create] returns and writes *)

(** X14. [slave_create] fails exactly when the URL is null, when the
    scheme comparison takes no driver, or when the bus refuses the object.
    A Slave it returns is offline and has no I/O registration and no
    polling timer, whatever its table held; its connection timer is armed
    for 1 second; it is held by two references and registered as
    [/slave_<key>]. *)
Theorem slave_create_starts_idle e units k sid nm u :
  (slave_create e units k sid nm u = None
   <-> u = None \/ slave_create_driver u = None \/ ce_register e = false)
  /\ forall w0, slave_create e units k sid nm u = Some w0 ->
       property_get_online (w_slave w0) = false
       /\ io (w_slave w0) = None
       /\ to_list (w_slave w0) = ∅
       /\ poll_to (w_slave w0) = Some (seconds 1)
       /\ refs (w_slave w0) = 2
       /\ path (w_slave w0) = "/slave_" +:+ k.
Proof.
  split.
  - unfold slave_create. destruct u as [url0|]; [|tauto].
    destruct (slave_create_driver (Some url0)) as [driver|]; [|tauto].
    destruct (ce_register e); simpl.
    + split; [discriminate|]. intros [H|[H|H]]; discriminate.
    + tauto.
  - intros w0 Hc.
    destruct (slave_create_initial _ _ _ _ _ _ _ Hc) as (Hm & Hi & Ht & Hp & _).
    destruct (slave_create_fields _ _ _ _ _ _ _ Hc) as (Hr & _ & _ & _ & _ & Hpath).
    unfold property_get_online. rewrite Hm. auto 6.
Qed.

(** X15. A Slave that has no table yet is written to the Slave table as
    three keys, Id, Name and URL, and when no name was given the URL is
    written in its place, while the name that the Name property reports
    stays null. A Slave that has a table is not written again, and
    replaying its table writes nothing either. *)
Theorem slave_create_store_writes e units k sid nm url0 w0 :
  slave_create e units k sid nm (Some url0) = Some w0 ->
  property_get_name (w_slave w0) = nm
  /\ w_log w0
     = if ce_stat e =? 0 then []
       else [StorageWriteKeyInt k "Id" (sid mod 2 ^ 8);
             StorageWriteKeyString k "Name"
               (match nm with Some n => n | None => url0 end);
             StorageWriteKeyString k "URL" url0].
Proof.
  intros Hc.
  destruct (slave_create_fields _ _ _ _ _ _ _ Hc) as (_ & _ & _ & Hn & _).
  destruct (slave_create_log _ _ _ _ _ _ _ Hc) as (url1 & [= <-] & Hlog).
  split; [exact Hn|exact Hlog].
Qed.

Lemma slave_create_store_writes_witness :
  exists w0,
    slave_create first_creation [] "a1" 1 None (Some "tcp://10.0.0.7:502")
    = Some w0
    /\ property_get_name (w_slave w0) = None
    /\ w_log w0
       = if ce_stat first_creation =? 0 then []
         else [StorageWriteKeyInt "a1" "Id" (1 mod 2 ^ 8);
               StorageWriteKeyString "a1" "Name" "tcp://10.0.0.7:502";
               StorageWriteKeyString "a1" "URL" "tcp://10.0.0.7:502"].
Proof.
  eexists. split; [vm_compute; reflexivity|].
  apply (slave_create_store_writes first_creation [] "a1" 1 None
           "tcp://10.0.0.7:502").
  vm_compute. reflexivity.
Defined.

(** X16. A URL that continues after [tcp://] is given the stream-socket
    driver and one that continues after [serial://] the serial-line
    driver, whenever the bus accepts the Slave. *)
Theorem slave_create_driver_for_scheme e units k sid nm c rest :
  ce_register e = true ->
  (exists w, slave_create e units k sid nm (Some ("tcp://" +:+ String c rest))
             = Some w /\ drv (w_slave w) = tcp)
  /\ (exists w, slave_create e units k sid nm
                  (Some ("serial://" +:+ String c rest)) = Some w
                /\ drv (w_slave w) = rtu).
Proof.
  intros Hreg.
  assert (Hex : forall u d, slave_create_driver (Some u) = Some d ->
            exists w, slave_create e units k sid nm (Some u) = Some w
                      /\ drv (w_slave w) = d).
  { intros u d Hd.
    destruct (slave_create e units k sid nm (Some u)) as [w|] eqn:Hc.
    - exists w. split; [reflexivity|].
      destruct (slave_create_initial _ _ _ _ _ _ _ Hc) as (_ & _ & _ & _ & Hdrv).
      congruence.
    - exfalso. unfold slave_create in Hc. rewrite Hd, Hreg in Hc.
      discriminate. }
  split; apply Hex.
  - apply slave_create_driver_tcp_extended.
  - apply slave_create_driver_serial_extended.
Qed.

Lemma slave_create_driver_for_scheme_witness :
  (exists w, slave_create first_creation [] "a1" 1 None
               (Some ("tcp://" +:+ String "h" ":502")) = Some w
             /\ drv (w_slave w) = tcp)
  /\ (exists w, slave_create first_creation [] "a1" 1 None
                  (Some ("serial://" +:+ String "h" ":502")) = Some w
                /\ drv (w_slave w) = rtu).
Proof.
  apply (slave_create_driver_for_scheme first_creation [] "a1" 1 None
           "h"%char ":502").
  reflexivity.
Defined.

(** *** Rows that the replay skips, and what it does not look at *)

(** X17. A stored row is skipped, and the world stays as it was, when its
    address does not begin with [0x] and when the bus refuses the Source:
    no Source is allocated or queued, and replay goes on to the next
    row. *)
Theorem replay_skips_bad_rows reg row w :
  starts_with "0x" (row_address row) = false \/ reg = None ->
  create_source_from_storage reg row w = w.
Proof.
  intros [Hbad| ->].
  - unfold create_source_from_storage, sscanf_0x04x.
    destruct (row_address row) as [|c0 [|c1 r1]]; try reflexivity.
    + now destruct (negb (Ascii.eqb c0 "0")).
    + simpl in Hbad.
      destruct (Ascii.eqb_spec "0" c0) as [<-|Hne0]; simpl in *.
      * destruct (Ascii.eqb_spec "x" c1) as [<-|Hnex]; [discriminate|].
        destruct (Ascii.eqb_spec c1 "x") as [->|_]; [contradiction|].
        reflexivity.
      * destruct (Ascii.eqb_spec c0 "0") as [->|_]; [contradiction|].
        reflexivity.
  - destruct (create_source_from_storage_cases None row w)
      as [H|(uaddr & opath & _ & Hreg & _)]; [exact H|discriminate].
Qed.

Lemma replay_skips_bad_rows_witness :
  create_source_from_storage (Some "/slave_a1/source_0010")
    {| row_address := "16"; row_name := "Temp1"; row_type := "q";
       row_unit := "V"; row_interval := 2000 |} sample_offline
  = sample_offline.
Proof.
  apply (replay_skips_bad_rows (Some "/slave_a1/source_0010")
           {| row_address := "16"; row_name := "Temp1"; row_type := "q";
              row_unit := "V"; row_interval := 2000 |} sample_offline).
  left. reflexivity.
Defined.

Lemma scan_percent_x_four_then c3 c2 c1 c0 d3 d2 d1 d0 rest :
  lower_hex_digit c3 d3 -> lower_hex_digit c2 d2 ->
  lower_hex_digit c1 d1 -> lower_hex_digit c0 d0 ->
  scan_percent_x 4 (String c3 (String c2 (String c1 (String c0 rest))))
  = inr ((16 * (16 * (16 * (16 * 0 + d3) + d2) + d1) + d0) mod 2 ^ 32).
Proof.
  intros (V3 & S3 & M3 & P3 & _) (V2 & _ & _ & _ & X2 & X2')
         (V1 & _) (V0 & _).
  unfold scan_percent_x. simpl skip_space. rewrite S3, M3, P3, X2, X2'.
  rewrite andb_false_r. simpl. rewrite V3, V2, V1, V0. reflexivity.
Qed.

Lemma append_cons a s r : String a s +:+ r = String a (s +:+ r).
Proof. reflexivity. Qed.

Lemma sscanf_printf_0x04x_then n rest :
  0 <= n < 65536 -> sscanf_0x04x (printf_0x04x n +:+ rest) = (1, Some n).
Proof.
  intros Hn. rewrite printf_0x04x_digits by assumption.
  rewrite !append_cons. change (EmptyString +:+ rest) with rest.
  unfold sscanf_0x04x. simpl negb.
  rewrite (scan_percent_x_four_then _ _ _ _
             (n / 16 / 16 / 16 mod 16) (n / 16 / 16 mod 16)
             (n / 16 mod 16) (n mod 16));
    try (apply hex_lower_digit; apply Z.mod_pos_bound; lia).
  do 2 f_equal.
  rewrite !Z.div_div by lia. simpl Z.mul.
  rewrite Z.mod_small.
  - pose proof (Z.div_small n 65536 Hn).
    Z.div_mod_to_equations. lia.
  - Z.div_mod_to_equations. lia.
Qed.

(** X18. The replay reads [0x] and four hex digits and does not look at
    what follows: a row whose address is a stored address with anything
    appended replays to the Source of the stored address. *)
Theorem replay_ignores_trailing n rest nm type unit ival opath w :
  0 <= n < 65536 ->
  let row := {| row_address := printf_0x04x n +:+ rest; row_name := nm;
                row_type := type; row_unit := unit; row_interval := ival |} in
  let w' := create_source_from_storage (Some opath) row w in
  source_list (w_slave w') = w_next w :: source_list (w_slave w)
  /\ w_sources w' !! w_next w
     = Some (source_new opath nm type unit n ival (src_storage (w_slave w))
               false)
  /\ row_replay_address row = Some n.
Proof.
  intros Hn row w'. subst row w'.
  unfold create_source_from_storage, row_replay_address. simpl row_address.
  rewrite (sscanf_printf_0x04x_then n rest Hn). simpl.
  rewrite lookup_insert_eq. repeat split.
  rewrite Z.mod_small; [reflexivity|]. change (2 ^ 16) with 65536. lia.
Qed.

Lemma replay_ignores_trailing_witness :
  let row := {| row_address := printf_0x04x 16 +:+ "99"; row_name := "Temp1";
                row_type := "q"; row_unit := "V"; row_interval := 2000 |} in
  let w' := create_source_from_storage (Some "/slave_a1/source_0010") row
              sample_offline in
  source_list (w_slave w')
  = w_next sample_offline :: source_list (w_slave sample_offline)
  /\ w_sources w' !! w_next sample_offline
     = Some (source_new "/slave_a1/source_0010" "Temp1" "q" "V" 16 2000
               (src_storage (w_slave sample_offline)) false)
  /\ row_replay_address row = Some 16.
Proof.
  apply (replay_ignores_trailing 16 "99" "Temp1" "q" "V" 2000
           "/slave_a1/source_0010" sample_offline).
  lia.
Defined.

(** *** More on the dictionary of AddSource *)

Lemma add_args_loop_app d1 : forall d2 a,
  add_args_loop (d1 ++ d2) a
  = match add_args_loop d1 a with
    | Some a' => add_args_loop d2 a'
    | None => None
    end.
Proof.
  induction d1 as [|[k v] d1 IH]; intros d2 a; simpl; [reflexivity|].
  destruct (add_args_entry k v a); [apply IH|reflexivity].
Qed.

(** X19. When a key occurs more than once in the dictionary, the last
    occurrence decides: a request that ends in an Address entry and is
    accepted creates its Source at that address, whatever addresses the
    entries before it gave. *)
Theorem add_source_last_address_wins reg dict n w opath :
  fst (method_source_add reg (MsgDict (dict ++ [("Address", VarUint16 n)])) w)
  = method_return_path opath ->
  let w' := snd (method_source_add reg
                   (MsgDict (dict ++ [("Address", VarUint16 n)])) w) in
  exists src, w_sources w' !! w_next w = Some src
              /\ src_address src = n mod 2 ^ 16.
Proof.
  intros Hok.
  destruct (method_source_add_cases reg
              (MsgDict (dict ++ [("Address", VarUint16 n)])) w)
    as [H|(dict0 & a & nm & type & unit & opath0 & [= <-] & Hloop & _ & _ & _
           & _ & _ & _ & _ & _ & _ & Heq)].
  { rewrite H in Hok. discriminate. }
  rewrite Heq. simpl.
  destruct (world_with_source_eq opath0 nm type unit (arg_address a)
              (arg_interval a) w) as (m & -> & _).
  simpl. rewrite lookup_insert_eq. eexists. split; [reflexivity|]. simpl.
  rewrite add_args_loop_app in Hloop.
  destruct (add_args_loop dict add_args_init) as [a1|]; [|discriminate].
  simpl in Hloop. injection Hloop as <-. simpl.
  now rewrite Z.mod_mod by lia.
Qed.

Lemma add_source_last_address_wins_witness :
  let dict := [("Address", VarUint16 65535); ("Name", VarString "Temp1");
               ("Type", VarString "q"); ("Unit", VarString "V")] in
  let w' := snd (method_source_add (Some "/slave_a1/source_0010")
                   (MsgDict (dict ++ [("Address", VarUint16 16)]))
                   sample_connected) in
  exists src, w_sources w' !! w_next sample_connected = Some src
              /\ src_address src = 16 mod 2 ^ 16.
Proof.
  apply (add_source_last_address_wins (Some "/slave_a1/source_0010")
           [("Address", VarUint16 65535); ("Name", VarString "Temp1");
            ("Type", VarString "q"); ("Unit", VarString "V")]
           16 sample_connected "/slave_a1/source_0010").
  vm_compute. reflexivity.
Defined.

Lemma add_args_loop_failing_entry dict : forall a k v,
  In (k, v) dict -> (forall a0, add_args_entry k v a0 = None) ->
  add_args_loop dict a = None.
Proof.
  induction dict as [|[k0 v0] dict IH]; intros a k v Hin Hnone; [destruct Hin|].
  simpl. destruct Hin as [[= -> ->]|Hin].
  - now rewrite Hnone.
  - destruct (add_args_entry k0 v0 a); [|reflexivity]. eapply IH; eauto.
Qed.

(** X20. A known key with a value of the wrong D-Bus type rejects the
    whole request: Name, Type and Unit must be strings, Address and
    PollingInterval 16-bit unsigned integers. The world stays as it
    was. *)
Theorem add_source_wrong_value_type reg dict k v w :
  In (k, v) dict ->
  (In k ["Name"; "Type"; "Unit"] /\ get_variant_s v = None)
  \/ (In k ["Address"; "PollingInterval"] /\ get_variant_q v = None) ->
  method_source_add reg (MsgDict dict) w = (dbus_error_invalid_args, w).
Proof.
  intros Hin Hbad. unfold method_source_add.
  rewrite (add_args_loop_failing_entry dict add_args_init k v Hin);
    [reflexivity|].
  intros a0. unfold add_args_entry.
  destruct Hbad as [(Hk & Hv)|(Hk & Hv)]; simpl in Hk;
    repeat (destruct Hk as [<-|Hk]; [simpl; now rewrite Hv|]);
    destruct Hk.
Qed.

Lemma add_source_wrong_value_type_witness :
  method_source_add (Some "/slave_a1/source_0010")
    (MsgDict [("Name", VarString "Temp1"); ("Address", VarUint32 16)])
    sample_connected
  = (dbus_error_invalid_args, sample_connected).
Proof.
  apply (add_source_wrong_value_type (Some "/slave_a1/source_0010")
           [("Name", VarString "Temp1"); ("Address", VarUint32 16)]
           "Address" (VarUint32 16) sample_connected).
  - simpl. auto.
  - right. split; [simpl; auto|reflexivity].
Defined.

(** *** The handle: kept, or given back *)

(** X21. While the Slave holds a handle, no callback asks the driver for
    another one, and the handle is either still held after the callback
    or has been handed to the driver's [destroy] in it, once; the latter
    only when the connection was lost. *)
Theorem handle_kept_or_destroyed host i w w' h :
  modbus (w_slave w) = Some h -> step host i w = Some w' ->
  exists evs,
    appended w w' evs
    /\ count is_driver_create evs = 0%nat
    /\ ((modbus (w_slave w') = Some h /\ count is_driver_destroy evs = 0%nat)
        \/ (modbus (w_slave w') = None /\ i = IoDisconnected
            /\ In (DriverDestroy (drv (w_slave w)) (Some h)) evs
            /\ count is_driver_destroy evs = 1%nat)).
Proof.
  intros Hm Hstep. unfold appended.
  destruct i as [e| |k d|reg msg|msg]; simpl in Hstep.
  - destruct (poll_to (w_slave w)); [|discriminate]. injection Hstep as <-.
    unfold enable_slave. simpl. rewrite Hm. simpl.
    exists []. rewrite app_nil_r. auto.
  - destruct (io (w_slave w)) as [i|] eqn:Hi; [|discriminate].
    injection Hstep as <-.
    unfold destroy_handler. rewrite disconnected_cb_eq. simpl.
    rewrite Hm, Hi. eexists. split; [reflexivity|].
    rewrite !count_app, !count_timeout_remove by reflexivity.
    split; [reflexivity|]. right. repeat split.
    apply in_or_app. right. now left.
  - destruct (to_list (w_slave w) !! k) as [t|]; [|discriminate].
    destruct (to_armed t); [|discriminate].
    destruct (w_sources w !! to_bond t) as [src|]; [|discriminate].
    destruct (polling_to_expired host d (modbus (w_slave w)) src)
      as [[src' ret] ms].
    injection Hstep as <-. simpl. exists []. rewrite app_nil_r. auto.
  - injection Hstep as <-.
    destruct (method_source_add_cases reg msg w)
      as [->|(dict & a & nm & type & unit & opath & _ & _ & _ & _ & _ & _ & _
              & _ & _ & _ & _ & ->)]; simpl.
    { exists []. rewrite app_nil_r. auto. }
    destruct (world_with_source_eq opath nm type unit (arg_address a)
                (arg_interval a) w) as (m & -> & _).
    simpl. eexists. split; [reflexivity|]. auto.
  - injection Hstep as <-. unfold method_source_remove.
    destruct msg as [|opath|]; simpl;
      try (exists []; rewrite app_nil_r; now auto).
    destruct (l_queue_remove_if _ _ _) as [[p|] rest]; simpl.
    + eexists. split; [reflexivity|]. auto.
    + exists []. rewrite app_nil_r. auto.
Qed.

Lemma handle_kept_or_destroyed_witness :
  exists evs,
    appended sample_polling (destroy_handler (disconnected_cb sample_polling))
      evs
    /\ count is_driver_create evs = 0%nat
    /\ ((modbus (w_slave (destroy_handler (disconnected_cb sample_polling)))
         = Some 7%nat
         /\ count is_driver_destroy evs = 0%nat)
        \/ (modbus (w_slave (destroy_handler (disconnected_cb sample_polling)))
            = None
            /\ IoDisconnected = IoDisconnected
            /\ In (DriverDestroy (drv (w_slave sample_polling)) (Some 7%nat)) evs
            /\ count is_driver_destroy evs = 1%nat)).
Proof.
  apply (handle_kept_or_destroyed LittleEndian IoDisconnected sample_polling
           (destroy_handler (disconnected_cb sample_polling)) 7%nat);
    reflexivity.
Defined.

(** X22. A connection attempt that fails after the driver has given a
    handle hands that handle back to the driver's [destroy] before it
    returns, keeps no handle and no I/O registration, and asks the driver
    for nothing else. *)
Theorem failed_attempt_returns_handle e w h :
  modbus (w_slave w) = None -> io (w_slave w) = None ->
  env_create e = Some h -> attempt_fails e ->
  appended w (enable_slave e w)
    [DriverCreate (drv (w_slave w)) (url (w_slave w));
     DriverDestroy (drv (w_slave w)) (Some h)]
  /\ modbus (w_slave (enable_slave e w)) = None
  /\ io (w_slave (enable_slave e w)) = None.
Proof.
  intros Hm Hi Hc Hf. unfold appended.
  rewrite (enable_slave_failure_log e w Hm Hf), Hc.
  destruct (enable_slave_failure e w Hm Hf) as (Hm' & _ & Hi' & _).
  auto.
Qed.

Lemma failed_attempt_returns_handle_witness :
  appended sample_offline (enable_slave attempt_refused sample_offline)
    [DriverCreate (drv (w_slave sample_offline)) (url (w_slave sample_offline));
     DriverDestroy (drv (w_slave sample_offline)) (Some 7%nat)]
  /\ modbus (w_slave (enable_slave attempt_refused sample_offline)) = None
  /\ io (w_slave (enable_slave attempt_refused sample_offline)) = None.
Proof.
  apply (failed_attempt_returns_handle attempt_refused sample_offline 7%nat);
    try reflexivity.
  unfold attempt_fails. simpl. auto.
Defined.

(** *** Notifications and stored rows *)

(** X23. Every callback announces a change of the Online property exactly
    once when the property has changed in it, and not at all when it has
    not: a failed attempt, a poll, AddSource and RemoveSource announce
    nothing. *)
Theorem online_change_announced_once host i w w' :
  reachable host w -> step host i w = Some w' ->
  exists evs,
    appended w w' evs
    /\ length (List.filter is_online_changed evs)
       = if Bool.eqb (property_get_online (w_slave w))
                     (property_get_online (w_slave w'))
         then 0%nat else 1%nat.
Proof.
  intros Hr. apply online_change_notified_once.
  exact (reachable_connected_inv host w Hr).
Qed.

Lemma online_change_announced_once_witness :
  exists evs,
    appended sample_polling (destroy_handler (disconnected_cb sample_polling))
      evs
    /\ length (List.filter is_online_changed evs)
       = if Bool.eqb (property_get_online (w_slave sample_polling))
                     (property_get_online
                        (w_slave (destroy_handler
                                    (disconnected_cb sample_polling))))
         then 0%nat else 1%nat.
Proof.
  apply (online_change_announced_once LittleEndian IoDisconnected).
  - exists first_creation, [("SI", "56")], "a1", 1, (Some "plc"),
      (Some "tcp://10.0.0.7:502"),
      [PollToExpired attempt_ok;
       AddSource (Some "/slave_a1/source_0010") sample_request],
      sample_offline.
    split; vm_compute; reflexivity.
  - reflexivity.
Defined.

(** X24. An accepted AddSource request writes one row to the Source
    table, the row of the Source it has created and marked persisted, and
    nothing else; the address of that Source fits 16 bits, so the row is
    one that the replay reads back. *)
Theorem accepted_request_stores_row reg msg w opath :
  fst (method_source_add reg msg w) = method_return_path opath ->
  exists src,
    w_sources (snd (method_source_add reg msg w)) !! w_next w = Some src
    /\ src_persisted src = true
    /\ 0 <= src_address src < 65536
    /\ appended w (snd (method_source_add reg msg w))
         [StorageWriteSource (src_storage (w_slave w)) (source_row_of src)]
    /\ sscanf_0x04x (row_address (source_row_of src))
       = (1, Some (src_address src)).
Proof.
  intros Hok.
  destruct (add_source_stores_row reg msg w opath Hok)
    as (src & Hs & Hp & Ha & Happ).
  exists src. repeat split; try assumption; try apply Ha.
  now apply sscanf_printf_0x04x.
Qed.

Lemma accepted_request_stores_row_witness :
  exists src,
    w_sources (snd (method_source_add (Some "/slave_a1/source_0010")
                      sample_request sample_connected))
      !! w_next sample_connected = Some src
    /\ src_persisted src = true
    /\ 0 <= src_address src < 65536
    /\ appended sample_connected
         (snd (method_source_add (Some "/slave_a1/source_0010") sample_request
                 sample_connected))
         [StorageWriteSource (src_storage (w_slave sample_connected))
            (source_row_of src)]
    /\ sscanf_0x04x (row_address (source_row_of src))
       = (1, Some (src_address src)).
Proof.
  apply (accepted_request_stores_row (Some "/slave_a1/source_0010")
           sample_request sample_connected "/slave_a1/source_0010").
  vm_compute. reflexivity.
Defined.

(** *** The connection timer is armed exactly while the Slave is offline *)

Lemma retry_armed_step host i w w' :
  connected_inv w ->
  (is_Some (poll_to (w_slave w)) <-> modbus (w_slave w) = None) ->
  step host i w = Some w' ->
  (is_Some (poll_to (w_slave w')) <-> modbus (w_slave w') = None).
Proof.
  intros [Hio Hto] Harm Hstep.
  destruct i as [e| |k d|reg msg|msg]; simpl in Hstep.
  - destruct (poll_to (w_slave w)) as [t|] eqn:Hp; [|discriminate].
    injection Hstep as <-.
    assert (Hm : modbus (w_slave (with_slave (set_poll_to None) w)) = None)
      by (apply Harm; eauto).
    destruct (attempt_cases e) as [Hf|(h & i & Hc & Hs & Hn & Hi)].
    + destruct (enable_slave_failure e _ Hm Hf) as (-> & -> & _).
      split; eauto.
    + destruct (enable_slave_success e _ h i Hm Hc Hs Hn Hi) as (m & ->).
      simpl. split; [intros [? ?]; discriminate|discriminate].
  - destruct (io (w_slave w)); [|discriminate]. injection Hstep as <-.
    unfold destroy_handler. rewrite disconnected_cb_eq. simpl.
    split; eauto.
  - destruct (to_list (w_slave w) !! k) as [t|]; [|discriminate].
    destruct (to_armed t); [|discriminate].
    destruct (w_sources w !! to_bond t) as [src|]; [|discriminate].
    destruct (polling_to_expired host d (modbus (w_slave w)) src)
      as [[src' ret] ms].
    injection Hstep as <-. exact Harm.
  - injection Hstep as <-.
    destruct (method_source_add_cases reg msg w)
      as [->|(dict & a & nm & type & unit & opath & _ & _ & _ & _ & _ & _ & _
              & _ & _ & _ & _ & ->)]; [exact Harm|].
    simpl.
    destruct (world_with_source_eq opath nm type unit (arg_address a)
                (arg_interval a) w) as (m & -> & _).
    exact Harm.
  - injection Hstep as <-. unfold method_source_remove.
    destruct msg as [|opath|]; try exact Harm.
    destruct (l_queue_remove_if _ _ _) as [[p|] rest]; exact Harm.
Qed.

Lemma reachable_retry_armed host w :
  reachable host w ->
  (is_Some (poll_to (w_slave w)) <-> modbus (w_slave w) = None).
Proof.
  intros (e & units & k & sid & nm & u & inputs & w0 & Hc & Hr).
  destruct (slave_create_initial _ _ _ _ _ _ _ Hc) as (Hm & Hi & Ht & Hp & _).
  assert (Hinv : connected_inv w0) by (split; [split; auto|auto]).
  assert (Harm : is_Some (poll_to (w_slave w0)) <-> modbus (w_slave w0) = None)
    by (rewrite Hp, Hm; split; eauto).
  clear Hc Hm Hi Ht Hp. revert w0 Hinv Harm Hr.
  induction inputs as [|i inputs IH]; intros w0 Hinv Harm Hr.
  - simpl in Hr. now injection Hr as <-.
  - simpl in Hr. destruct (step host i w0) as [w1|] eqn:Hs; [|discriminate].
    apply (IH w1); [| |exact Hr].
    + eapply connected_inv_step; eauto.
    + eapply retry_armed_step; eauto.
Qed.

(** X25. Between two callbacks the connection timer is armed exactly
    when the Slave is offline: an offline Slave always has its next
    attempt scheduled, and no attempt is scheduled, or can start, while a
    connection is up. *)
Theorem retry_timer_armed_iff_offline host w :
  reachable host w ->
  (is_Some (poll_to (w_slave w)) <-> property_get_online (w_slave w) = false)
  /\ (property_get_online (w_slave w) = true ->
      forall e, step host (PollToExpired e) w = None)
  /\ (property_get_online (w_slave w) = false ->
      forall e, is_Some (step host (PollToExpired e) w)).
Proof.
  intros Hr. pose proof (reachable_retry_armed host w Hr) as Harm.
  unfold property_get_online. simpl.
  destruct (modbus (w_slave w)) as [h|] eqn:Hm.
  - split; [|split].
    + rewrite Harm. split; discriminate.
    + intros _ e. destruct (poll_to (w_slave w)) as [t|] eqn:Hp; [|reflexivity].
      assert (Hs : is_Some (Some t)) by eauto.
      apply Harm in Hs. discriminate.
    + discriminate.
  - split; [|split].
    + rewrite Harm. tauto.
    + discriminate.
    + intros _ e. destruct (proj2 Harm eq_refl) as [t ->]. eauto.
Qed.

Lemma retry_timer_armed_iff_offline_witness :
  (is_Some (poll_to (w_slave sample_polling))
   <-> property_get_online (w_slave sample_polling) = false)
  /\ (property_get_online (w_slave sample_polling) = true ->
      forall e, step LittleEndian (PollToExpired e) sample_polling = None)
  /\ (property_get_online (w_slave sample_polling) = false ->
      forall e, is_Some (step LittleEndian (PollToExpired e) sample_polling)).
Proof.
  apply (retry_timer_armed_iff_offline LittleEndian sample_polling).
  exists first_creation, [("SI", "56")], "a1", 1, (Some "plc"),
    (Some "tcp://10.0.0.7:502"),
    [PollToExpired attempt_ok;
     AddSource (Some "/slave_a1/source_0010") sample_request],
    sample_offline.
  split; vm_compute; reflexivity.
Defined.

(** *** AddSource on an offline Slave *)

(** X26. A request accepted while the Slave is offline starts no timer:
    [to_list] is empty before and after, and the new Source waits in the
    queue for the next connection. *)
Theorem add_source_offline_starts_no_timer host reg msg w opath :
  reachable host w -> property_get_online (w_slave w) = false ->
  fst (method_source_add reg msg w) = method_return_path opath ->
  let w' := snd (method_source_add reg msg w) in
  to_list (w_slave w') = ∅
  /\ source_list (w_slave w') = w_next w :: source_list (w_slave w)
  /\ property_get_online (w_slave w') = false.
Proof.
  intros Hr Hoff Hok.
  destruct (reachable_connected_inv host w Hr) as [Hio Hto].
  unfold property_get_online in *.
  destruct (modbus (w_slave w)) eqn:Hm; [discriminate|].
  assert (Hi : io (w_slave w) = None) by now apply Hio.
  destruct (method_source_add_cases reg msg w)
    as [H|(dict & a & nm & type & unit & opath0 & _ & _ & _ & _ & _ & _ & _
           & _ & _ & _ & _ & Heq)].
  { rewrite H in Hok. discriminate. }
  rewrite Heq. simpl.
  destruct (world_with_source_eq opath0 nm type unit (arg_address a)
              (arg_interval a) w) as (m & -> & Hsame & _).
  simpl. rewrite (Hsame Hi), (Hto Hi), Hm. auto.
Qed.

Lemma add_source_offline_starts_no_timer_witness :
  let w' := snd (method_source_add (Some "/slave_a1/source_0010")
                   sample_request sample_offline) in
  to_list (w_slave w') = ∅
  /\ source_list (w_slave w')
     = w_next sample_offline :: source_list (w_slave sample_offline)
  /\ property_get_online (w_slave w') = false.
Proof.
  apply (add_source_offline_starts_no_timer LittleEndian
           (Some "/slave_a1/source_0010") sample_request sample_offline
           "/slave_a1/source_0010").
  - exists first_creation, [("SI", "56")], "a1", 1, (Some "plc"),
      (Some "tcp://10.0.0.7:502"), [], sample_offline.
    split; vm_compute; reflexivity.
  - reflexivity.
  - vm_compute. reflexivity.
Defined.
